(** * GreenFolio: the metrics core of [data_manager.py]

    A shallow embedding of the entry points of [data_manager.py]
    ([filter_stocks_by_preference], [get_portfolio_historical_data],
    [get_benchmark_data], [calculate_metrics], [calculate_portfolio_metrics],
    with the record-building part of [get_stock_data]) and the properties
    the design document states about them.

    Numbers.  Python and NumPy floats are idealised as real numbers.  A
    NumPy/pandas scalar that is not a number (the [NaN] that [pct_change]
    puts at the first date, the result of a statistic over too few
    observations) is the value [None] of [option R]; arithmetic propagates
    it and the pandas reductions skip it, as pandas does with its default
    [skipna=True].  The result of a NumPy division by zero is [None] as
    well: the infinities are not told apart from [NaN]; they only arise
    from a price of zero, and the statements about series computed from
    prices assume nonzero prices where an infinity would show.  Rounding is
    not modelled in this part.  Asset scores, prices and weights are finite
    numbers.

    Where the code compares a computed statistic with zero
    ([returns.std() != 0], [variance != 0]) rounding decides the branch;
    [Module Binary64] embeds [calculate_metrics] once more on binary64
    floats for the statements about these two tests. *)

From Stdlib Require Import Reals Lra.
From Stdlib Require Floats.
From stdpp Require Import gmap strings list fin_maps.

#[local] Set Warnings "-clear-no-such-hyp,-inexact-float".

Local Open Scope R_scope.

(** ** Decidable comparisons on the idealised floats *)

#[global] Instance Rlt_decision (x y : R) : Decision (x < y) := Rlt_dec x y.
#[global] Instance Req_decision : EqDecision R := Req_dec_T.

(** Python's built-in [max] keeps its first argument unless a later one is
    strictly greater. *)
Definition py_max2 (a b : R) : R := if decide (a < b) then b else a.
Definition py_max3 (a b c : R) : R := py_max2 (py_max2 a b) c.

(** ** Asset records

    [get_stock_data] returns a dict whose values are strings or numbers.
    The string attributes the core reads are fields; the numeric entries
    (the ESG keys among them) stay a dictionary, because the filter reads
    them with [dict.get] and a default. *)
Record Stock := mkStock {
  ticker : string;
  sector : string;
  country : string;
  scores : gmap string R
}.

(** [d.get(key, dflt)] *)
Definition dict_get (d : gmap string R) (key : string) (dflt : R) : R :=
  match d !! key with
  | Some v => v
  | None => dflt
  end.

Module Filter.

(** The four reads at the top of the loop body of
    [filter_stocks_by_preference]. *)
Definition env_score (stock : Stock) : R :=
  dict_get (scores stock) "env" (dict_get (scores stock) "environmental_score" 0).
Definition soc_score (stock : Stock) : R :=
  dict_get (scores stock) "soc" (dict_get (scores stock) "social_score" 0).
Definition gov_score (stock : Stock) : R :=
  dict_get (scores stock) "gov" (dict_get (scores stock) "governance_score" 0).
Definition total_score (stock : Stock) : R :=
  dict_get (scores stock) "total" (dict_get (scores stock) "esg_score" 0).

(** The [if]/[elif]/[else] chain of the loop body: [true] when the stock is
    appended to [filtered_stocks]. *)
Definition appended (preference : string) (stock : Stock) : bool :=
  if decide (preference = "Net Zéro") then
    bool_decide (env_score stock < 4) &&
    bool_decide (total_score stock < 20) &&
    bool_decide (py_max2 (soc_score stock) (gov_score stock) < 12)
  else if decide (preference = "Multi-thématique ESG") then
    bool_decide (total_score stock < 22) &&
    bool_decide (py_max3 (env_score stock) (soc_score stock) (gov_score stock) < 10) &&
    (bool_decide (env_score stock < 8) || bool_decide (soc_score stock < 8)
       || bool_decide (gov_score stock < 5))
  else if decide (preference = "Solidaire") then
    bool_decide (soc_score stock < 8) &&
    bool_decide (gov_score stock < 6) &&
    bool_decide (total_score stock < 25)
  else
    bool_decide (total_score stock < 25) &&
    bool_decide (py_max3 (env_score stock) (soc_score stock) (gov_score stock) < 15).

(** [for stock in stocks: ... filtered_stocks.append(stock)] with the list
    being built as the loop state. *)
Fixpoint filter_loop (preference : string) (stocks filtered_stocks : list Stock)
  : list Stock :=
  match stocks with
  | [] => filtered_stocks
  | stock :: rest =>
      filter_loop preference rest
        (if appended preference stock then filtered_stocks ++ [stock]
         else filtered_stocks)
  end.

Definition filter_stocks_by_preference (stocks : list Stock) (preference : string)
  : list Stock :=
  match stocks with
  | [] => []
  | _ => filter_loop preference stocks []
  end.

(** The predicates of the design document, one per strategy; the document's
    NetZero, MultiThematicESG and Solidarity are the strings [Net Zéro],
    [Multi-thématique ESG] and [Solidaire] of the source. *)
Definition net_zero_ok (s : Stock) : Prop :=
  env_score s < 4 ∧ total_score s < 20 ∧ Rmax (soc_score s) (gov_score s) < 12.
Definition multi_thematic_ok (s : Stock) : Prop :=
  total_score s < 22 ∧
  Rmax (env_score s) (Rmax (soc_score s) (gov_score s)) < 10 ∧
  (env_score s < 8 ∨ soc_score s < 8 ∨ gov_score s < 5).
Definition solidarity_ok (s : Stock) : Prop :=
  soc_score s < 8 ∧ gov_score s < 6 ∧ total_score s < 25.
Definition default_ok (s : Stock) : Prop :=
  total_score s < 25 ∧
  Rmax (env_score s) (Rmax (soc_score s) (gov_score s)) < 15.

Definition known_strategy (preference : string) : Prop :=
  preference = "Net Zéro" ∨ preference = "Multi-thématique ESG"
  ∨ preference = "Solidaire".

(** An asset is eligible under a strategy name when it satisfies the
    predicate of that strategy, the default one for any other name. *)
Definition eligible (preference : string) (s : Stock) : Prop :=
  (preference = "Net Zéro" ∧ net_zero_ok s)
  ∨ (preference = "Multi-thématique ESG" ∧ multi_thematic_ok s)
  ∨ (preference = "Solidaire" ∧ solidarity_ok s)
  ∨ (¬ known_strategy preference ∧ default_ok s).

#[global] Instance eligible_dec preference s : Decision (eligible preference s).
Proof.
  unfold eligible, known_strategy, net_zero_ok, multi_thematic_ok,
    solidarity_ok, default_ok; apply _.
Defined.

(** None of the eight keys the filter reads is present. *)
Definition no_esg_keys (s : Stock) : Prop :=
  ∀ k, k ∈ ["env"; "environmental_score"; "soc"; "social_score";
            "gov"; "governance_score"; "total"; "esg_score"] →
       scores s !! k = None.

End Filter.

(** ** pandas and NumPy, as far as the core uses them *)
Module Pandas.

(** A NumPy scalar: a real number or [NaN]. *)
Abbreviation fnum := (option R).
Abbreviation NaN := (@None R).

(** A [pd.Series] of floats: its index (dates, as day numbers) and values,
    in index order.  [pd.Series()] is the empty list. *)
Abbreviation Series := (list (Z * option R)).

Definition fadd (x y : fnum) : fnum :=
  match x, y with Some a, Some b => Some (a + b) | _, _ => NaN end.
Definition fsub (x y : fnum) : fnum :=
  match x, y with Some a, Some b => Some (a - b) | _, _ => NaN end.
Definition fmul (x y : fnum) : fnum :=
  match x, y with Some a, Some b => Some (a * b) | _, _ => NaN end.
(** NumPy division does not raise; a zero divisor gives a value that is
    not a number. *)
Definition fdiv (x y : fnum) : fnum :=
  match x, y with
  | Some a, Some b => if decide (b = 0) then NaN else Some (a / b)
  | _, _ => NaN
  end.
Definition fpow (x : fnum) (n : nat) : fnum :=
  match x with Some a => Some (a ^ n) | None => NaN end.
Definition fsqrt (x : fnum) : fnum :=
  match x with Some a => Some (sqrt a) | None => NaN end.
(** [x != 0] on a NumPy scalar: [NaN != 0] is [True]. *)
Definition fnonzero (x : fnum) : bool :=
  match x with Some a => bool_decide (a ≠ 0) | None => true end.

(** [s.empty] *)
Definition empty (s : Series) : bool :=
  match s with [] => true | _ => false end.

(** Element-wise operation with a scalar, [1 + s], [s - c], [s * w]. *)
Definition smap (f : fnum → fnum) (s : Series) : Series :=
  map (λ e, (e.1, f e.2)) s.

(** Element-wise operation of two series that carry the same index (every
    use in the core combines series derived from one index). *)
Definition szip (f : fnum → fnum → fnum) (s1 s2 : Series) : Series :=
  zip_with (λ e1 e2, (e1.1, f e1.2 e2.2)) s1 s2.

(** The values that are numbers: what a reduction with [skipna=True]
    sees. *)
Definition valid (s : Series) : list R := omap snd s.

(** [sum(...)] of Python and of pandas: left to right from 0. *)
Definition py_sum (l : list R) : R := foldl Rplus 0 l.

Definition list_mean (l : list R) : R := py_sum l / INR (length l).

(** [s.mean()] *)
Definition mean (s : Series) : fnum :=
  match valid s with
  | [] => NaN
  | v => Some (list_mean v)
  end.

(** Sum of products of deviations over [n - 1]: the sample covariance of
    paired observations, the sample variance when paired with itself. *)
Definition sample_cov (p : list (R * R)) : fnum :=
  match p with
  | [] | [_] => NaN
  | _ =>
      let mx := list_mean p.*1 in
      let my := list_mean p.*2 in
      Some (py_sum (map (λ xy, (xy.1 - mx) * (xy.2 - my)) p)
            / (INR (length p) - 1))
  end.

(** [s.var()], with the default [ddof=1] *)
Definition var (s : Series) : fnum :=
  sample_cov (map (λ x, (x, x)) (valid s)).

(** [s.std()] *)
Definition std (s : Series) : fnum := fsqrt (var s).

(** [s.min()] *)
Definition smin (s : Series) : fnum :=
  match valid s with
  | [] => NaN
  | x :: rest => Some (foldl Rmin x rest)
  end.

(** [s.iloc[0]] on a series known to be non-empty; the core guards the one
    use with [hist.empty]. *)
Definition iloc0 (s : Series) : fnum :=
  match s with [] => NaN | e :: _ => e.2 end.

(** [s.pct_change()]: [s / s.shift(1) - 1]; the first date stays in the
    index with the value [NaN]. *)
Fixpoint pct_change_from (prev : fnum) (s : Series) : Series :=
  match s with
  | [] => []
  | (d, p) :: rest => (d, fsub (fdiv p prev) (Some 1)) :: pct_change_from p rest
  end.
Definition pct_change (s : Series) : Series := pct_change_from NaN s.

(** [s.dropna()] *)
Definition dropna (s : Series) : Series :=
  filter (λ e, is_Some e.2) s.

(** [s.cumprod()]: the running product skips [NaN] and leaves it in
    place. *)
Fixpoint cumprod_from (acc : R) (s : Series) : Series :=
  match s with
  | [] => []
  | (d, None) :: rest => (d, NaN) :: cumprod_from acc rest
  | (d, Some x) :: rest => (d, Some (acc * x)) :: cumprod_from (acc * x) rest
  end.
Definition cumprod (s : Series) : Series := cumprod_from 1 s.

(** [s.expanding().max()]: at each date the maximum of the numbers seen so
    far ([min_periods=1]), [NaN] while there is none. *)
Definition running_max (best x : fnum) : fnum :=
  match best, x with
  | None, _ => x
  | Some b, None => Some b
  | Some b, Some v => Some (Rmax b v)
  end.
Fixpoint expanding_max_from (best : fnum) (s : Series) : Series :=
  match s with
  | [] => []
  | (d, x) :: rest =>
      (d, running_max best x) :: expanding_max_from (running_max best x) rest
  end.
Definition expanding_max (s : Series) : Series := expanding_max_from NaN s.

(** [s.reindex(index)]: the value at each date of [index], [NaN] where [s]
    has none. *)
Definition at_date (s : Series) (d : Z) : fnum :=
  match list_find (λ e, e.1 = d) s with
  | Some (_, e) => e.2
  | None => NaN
  end.
Definition reindex (s : Series) (index : list Z) : Series :=
  map (λ d, (d, at_date s d)) index.

(** [s1.cov(s2)]: inner join on the index, pairs with a [NaN] dropped,
    then the sample covariance. *)
Definition joined_pairs (s1 s2 : Series) : list (R * R) :=
  omap (λ e, match e.2, list_find (λ e', e'.1 = e.1) s2 with
             | Some x, Some (_, (_, Some y)) => Some (x, y)
             | _, _ => None
             end) s1.
Definition cov (s1 s2 : Series) : fnum := sample_cov (joined_pairs s1 s2).

(** A [pd.DataFrame] of float columns: [pd.DataFrame()] has no index and no
    column. *)
Record DataFrame := mkDataFrame {
  df_index : list Z;
  df_columns : gmap string (list fnum)
}.
Definition df_new : DataFrame := mkDataFrame [] ∅.

(** [df.empty]: one of the two axes has length 0. *)
Definition df_empty (df : DataFrame) : bool :=
  bool_decide (df_index df = []) || bool_decide (df_columns df = ∅).

(** [df[name] = s]: a frame without index takes the index of a non-empty
    [s]; otherwise [s] is aligned on the frame's index. *)
Definition df_setitem (df : DataFrame) (name : string) (s : Series) : DataFrame :=
  let index := match df_index df with [] => s.*1 | i => i end in
  mkDataFrame index (<[name := (reindex s index).*2]> (df_columns df)).

(** [df[name]], a [KeyError] when there is no such column. *)
Definition df_getitem (df : DataFrame) (name : string) : option Series :=
  match df_columns df !! name with
  | Some vals => Some (zip (df_index df) vals)
  | None => None
  end.

End Pandas.

(** ** Exceptions

    The core's own functions wrap their bodies in [try: ... except
    Exception]; a body is a computation that returns or raises. *)
Inductive exn := ZeroDivisionError | KeyError | FetchError.

Inductive outcome (A : Type) :=
  | Returned (a : A)
  | Raised (e : exn).
Arguments Returned {A} a.
Arguments Raised {A} e.

#[global] Instance outcome_ret : MRet outcome := λ A a, Returned a.
#[global] Instance outcome_bind : MBind outcome := λ A B f m,
  match m with
  | Returned a => f a
  | Raised e => Raised e
  end.

(** [a / b] on Python numbers raises on a zero divisor. *)
Definition py_div (a b : R) : outcome R :=
  if decide (b = 0) then Raised ZeroDivisionError else Returned (a / b).

(** [d[key]] on a dict raises [KeyError] on a missing key. *)
Definition dict_getitem (d : gmap string R) (key : string) : outcome R :=
  match d !! key with
  | Some v => Returned v
  | None => Raised KeyError
  end.

(** [portfolio[key]] on the weights dict, kept as an association list in
    insertion order (the order in which the series builder sees the
    tickers decides the index of its frames). *)
Definition weights_getitem (portfolio : list (string * R)) (key : string)
  : outcome R :=
  match list_find (λ kv, kv.1 = key) portfolio with
  | Some (_, kv) => Returned kv.2
  | None => Raised KeyError
  end.

(** ** The market-data provider

    What one [yf.Ticker(t).history(start, end)] call gives: it fails, or
    the frame has no [Close] column, or it has one (of length 0 when the
    frame is empty). *)
Inductive History :=
  | NoCloseColumn
  | Close (prices : list (Z * R)).

(** What [get_stock_data] reads from the provider for one ticker: [sector]
    and [country] of [info] when present, and the four scores of
    [sustainability] (total, environment, social, governance) when it
    could extract them. *)
Record Quote := mkQuote {
  q_sector : option string;
  q_country : option string;
  q_sustainability : option (R * R * R * R)
}.

(** [hist['Close']] as a float series. *)
Definition close_series (prices : list (Z * R)) : Pandas.Series :=
  map (λ e, (e.1, Some e.2)) prices.

Module Core.
Import Pandas.

Section DataSource.

(** [yf.Ticker(ticker).history(start=..., end=...)]: may raise. *)
Variable history : string → option string → option string → outcome History.

(** The provider side of [get_stock_data]: [None] when the one-year history
    or [info] is empty, or when anything raised. *)
Variable quote : string → option Quote.

(** *** [get_stock_data] *)
Definition get_stock_data (ticker : string) : option Stock :=
  match quote ticker with
  | None => None
  | Some q =>
      let '(total, env, soc, gov) :=
        match q_sustainability q with
        | Some esg_data => esg_data
        | None => (19, 10, 4, 5)
        end in
      Some {| ticker := ticker;
              sector := default "N/A" (q_sector q);
              country := default "N/A" (q_country q);
              scores := <["esg_score" := total]>
                        (<["environmental_score" := env]>
                        (<["social_score" := soc]>
                        (<["governance_score" := gov]> ∅))) |}
  end.

(** *** [get_portfolio_historical_data] *)

(** The variables the first loop updates. *)
Record Fetched := mkFetched {
  data : DataFrame;
  returns : DataFrame;
  valid_tickers : list string;
  valid_weights : list R
}.

(** [for ticker, weight in zip(tickers, weights)] *)
Fixpoint fetch_loop (start_date end_date : option string)
    (pairs : list (string * R)) (st : Fetched) : outcome Fetched :=
  match pairs with
  | [] => Returned st
  | (ticker, weight) :: rest =>
      hist ← history ticker start_date end_date;
      match hist with
      | Close ((_ :: _) as prices) =>
          fetch_loop start_date end_date rest
            {| data := df_setitem (data st) ticker (close_series prices);
               returns := df_setitem (returns st) ticker
                            (pct_change (close_series prices));
               valid_tickers := valid_tickers st ++ [ticker];
               valid_weights := valid_weights st ++ [weight] |}
      | _ => fetch_loop start_date end_date rest st
      end
  end.

(** [for ticker, weight in zip(valid_tickers, normalized_weights):
       portfolio_returns += returns[ticker] * weight] *)
Fixpoint weighted_sum_loop (returns : DataFrame) (pairs : list (string * R))
    (portfolio_returns : Series) : outcome Series :=
  match pairs with
  | [] => Returned portfolio_returns
  | (ticker, weight) :: rest =>
      match df_getitem returns ticker with
      | None => Raised KeyError
      | Some col =>
          weighted_sum_loop returns rest
            (szip fadd portfolio_returns (smap (λ r, fmul r (Some weight)) col))
      end
  end.

(** The body of the [try]. *)
Definition portfolio_historical_body (tickers : list string) (weights : list R)
    (start_date end_date : option string) : outcome (Series * Series) :=
  if bool_decide (tickers = []) || bool_decide (weights = []) then
    Returned ([], [])
  else
    st ← fetch_loop start_date end_date (zip tickers weights)
           (mkFetched df_new df_new [] []);
    if df_empty (data st) || bool_decide (valid_tickers st = []) then
      Returned ([], [])
    else
      let total_weight := py_sum (valid_weights st) in
      normalized_weights ← mapM (λ w, py_div w total_weight) (valid_weights st);
      portfolio_returns ←
        weighted_sum_loop (returns st) (zip (valid_tickers st) normalized_weights)
          (map (λ d, (d, Some 0)) (df_index (returns st)));
      let portfolio_value :=
        smap (λ v, fmul v (Some 100))
             (cumprod (smap (fadd (Some 1)) portfolio_returns)) in
      Returned (portfolio_value, portfolio_returns).

(** The pair is (portfolio_value, portfolio_returns); the handler returns
    two empty series. *)
Definition get_portfolio_historical_data (tickers : list string)
    (weights : list R) (start_date end_date : option string) : Series * Series :=
  match portfolio_historical_body tickers weights start_date end_date with
  | Returned r => r
  | Raised _ => ([], [])
  end.

(** *** [get_benchmark_data] *)
Definition benchmark_body (benchmark : string) (start_date end_date : option string)
  : outcome (Series * Series) :=
  if bool_decide (benchmark = "") then Returned ([], [])
  else
    hist ← history benchmark start_date end_date;
    match hist with
    | Close ((_ :: _) as prices) =>
        let close_prices := close_series prices in
        let returns := pct_change close_prices in
        let normalized :=
          smap (λ p, fmul (fdiv p (iloc0 close_prices)) (Some 100)) close_prices in
        Returned (normalized, returns)
    | _ => Returned ([], [])
    end.

(** The pair is (normalized, returns). *)
Definition get_benchmark_data (benchmark : string)
    (start_date end_date : option string) : Series * Series :=
  match benchmark_body benchmark start_date end_date with
  | Returned r => r
  | Raised _ => ([], [])
  end.

End DataSource.

(** *** [calculate_metrics]

    The result is the dict [metrics]; [{}] is the empty map.  Every
    operation of the body is a pandas or NumPy one, total on float series,
    so the [except] branch has no raise to catch.  Where the source reads
    [metrics['annualized_return']] and [metrics['beta']] back, the value
    just stored is used. *)
Definition risk_free_rate : R := 0.02.

Definition max_drawdown (returns : Series) : fnum :=
  let cum_returns := cumprod (smap (fadd (Some 1)) returns) in
  let rolling_max := expanding_max cum_returns in
  let drawdowns := smap (λ q, fsub q (Some 1)) (szip fdiv cum_returns rolling_max) in
  smin drawdowns.

Definition sharpe_ratio (returns : Series) : fnum :=
  let excess_returns := smap (λ r, fsub r (Some (risk_free_rate / 252))) returns in
  if fnonzero (std returns) then
    fdiv (fmul (Some (sqrt 252)) (mean excess_returns)) (std returns)
  else Some 0.

Definition annualized_return (returns : Series) : fnum :=
  fsub (fpow (fadd (Some 1) (mean returns)) 252) (Some 1).

Definition calculate_metrics (returns : Series) (benchmark_returns : option Series)
  : gmap string fnum :=
  if empty returns then ∅
  else
    let metrics : gmap string fnum := ∅ in
    let metrics := <["annualized_return" := annualized_return returns]> metrics in
    let metrics :=
      <["annualized_volatility" := fmul (std returns) (Some (sqrt 252))]> metrics in
    let metrics := <["sharpe_ratio" := sharpe_ratio returns]> metrics in
    let metrics := <["max_drawdown" := max_drawdown returns]> metrics in
    match benchmark_returns with
    | Some benchmark_returns =>
        if negb (empty benchmark_returns) then
          let covariance := cov returns benchmark_returns in
          let variance := var benchmark_returns in
          if fnonzero variance then
            let beta := fdiv covariance variance in
            let alpha :=
              fsub (fsub (annualized_return returns) (Some risk_free_rate))
                   (fmul beta
                      (fsub (fsub (fpow (fadd (Some 1) (mean benchmark_returns)) 252)
                                  (Some 1))
                            (Some risk_free_rate))) in
            <["alpha" := alpha]> (<["beta" := beta]> metrics)
          else
            <["alpha" := Some 0]> (<["beta" := Some 1]> metrics)
        else metrics
    | None => metrics
    end.

(** *** [calculate_portfolio_metrics] *)

(** The dict [metrics]. *)
Record PortfolioMetrics := mkPortfolioMetrics {
  volatility : R;
  esg_score : R;
  environmental_score : R;
  social_score : R;
  governance_score : R;
  sector_exposure : gmap string R;
  country_exposure : gmap string R;
  performance_metrics : gmap string fnum
}.

Definition initial_metrics : PortfolioMetrics :=
  mkPortfolioMetrics 0 0 0 0 0 ∅ ∅ ∅.

(** A body that mutates [metrics] and may raise: the handler of
    [calculate_portfolio_metrics] returns [metrics] as it is at the raise. *)
Definition Body (A : Type) : Type :=
  PortfolioMetrics → outcome A * PortfolioMetrics.

#[global] Instance Body_ret : MRet Body := λ A a metrics, (Returned a, metrics).
#[global] Instance Body_bind : MBind Body := λ A B f m metrics,
  match m metrics with
  | (Returned a, metrics') => f a metrics'
  | (Raised e, metrics') => (Raised e, metrics')
  end.

Definition lift {A} (o : outcome A) : Body A := λ metrics, (o, metrics).
Definition update (f : PortfolioMetrics → PortfolioMetrics) : Body unit :=
  λ metrics, (Returned (), f metrics).

(** [for x in l: step x] *)
Fixpoint for_each {A} (step : A → Body unit) (l : list A) : Body unit :=
  match l with
  | [] => mret ()
  | x :: rest => step x ;; for_each step rest
  end.

(** Truth value of an optional string argument: [None] and the empty string
    are false. *)
Definition truthy (s : option string) : bool :=
  match s with
  | Some s => negb (bool_decide (s = ""))
  | None => false
  end.

(** [exposure[key] = exposure.get(key, 0) + w] *)
Definition add_exposure (exposure : gmap string R) (key : string) (w : R)
  : gmap string R :=
  <[key := dict_get exposure key 0 + w]> exposure.

Section Aggregator.

Variable history : string → option string → option string → outcome History.
Variable quote : string → option Quote.

(** The four [+=] and the two exposure updates for one asset. *)
Definition accumulate (data : Stock) (weight_normalized : R) : Body unit :=
  total ← lift (dict_getitem (scores data) "esg_score");
  update (λ m, mkPortfolioMetrics (volatility m)
     (esg_score m + total * weight_normalized) (environmental_score m)
     (social_score m) (governance_score m) (sector_exposure m)
     (country_exposure m) (performance_metrics m)) ;;
  env ← lift (dict_getitem (scores data) "environmental_score");
  update (λ m, mkPortfolioMetrics (volatility m) (esg_score m)
     (environmental_score m + env * weight_normalized)
     (social_score m) (governance_score m) (sector_exposure m)
     (country_exposure m) (performance_metrics m)) ;;
  soc ← lift (dict_getitem (scores data) "social_score");
  update (λ m, mkPortfolioMetrics (volatility m) (esg_score m)
     (environmental_score m) (social_score m + soc * weight_normalized)
     (governance_score m) (sector_exposure m)
     (country_exposure m) (performance_metrics m)) ;;
  gov ← lift (dict_getitem (scores data) "governance_score");
  update (λ m, mkPortfolioMetrics (volatility m) (esg_score m)
     (environmental_score m) (social_score m)
     (governance_score m + gov * weight_normalized) (sector_exposure m)
     (country_exposure m) (performance_metrics m)) ;;
  (if bool_decide (sector data ≠ "N/A") then
     update (λ m, mkPortfolioMetrics (volatility m) (esg_score m)
       (environmental_score m) (social_score m) (governance_score m)
       (add_exposure (sector_exposure m) (sector data) weight_normalized)
       (country_exposure m) (performance_metrics m))
   else mret ()) ;;
  (if bool_decide (country data ≠ "N/A") then
     update (λ m, mkPortfolioMetrics (volatility m) (esg_score m)
       (environmental_score m) (social_score m) (governance_score m)
       (sector_exposure m)
       (add_exposure (country_exposure m) (country data) weight_normalized)
       (performance_metrics m))
   else mret ()).

(** The second loop over [portfolio.items()]. *)
Definition esg_step (total_weight : R) (item : string * R) : Body unit :=
  match get_stock_data quote item.1 with
  | Some data =>
      weight_normalized ← lift (py_div item.2 total_weight);
      accumulate data weight_normalized
  | None => mret ()
  end.

(** The part of the body from the comment [Calcul des métriques ESG et
    expositions] on, on the working portfolio. *)
Definition esg_and_exposures (portfolio : list (string * R)) : Body unit :=
  let valid_weights :=
    omap (λ item : string * R,
            match get_stock_data quote item.1 with
            | Some _ => Some item.2
            | None => None
            end) portfolio in
  match valid_weights with
  | [] => mret ()
  | _ =>
      let total_weight := py_sum valid_weights in
      for_each (esg_step total_weight) portfolio
  end.

(** The dict comprehension that restricts the portfolio to the stocks the
    filter kept. *)
Definition filtered_portfolio (portfolio : list (string * R))
    (stocks_data : list Stock) : outcome (list (string * R)) :=
  mapM (λ stock, w ← weights_getitem portfolio (ticker stock);
                 mret (ticker stock, w)) stocks_data.

(** The working portfolio: the argument, or its restriction when a
    preference is given. *)
Definition working_portfolio (portfolio : list (string * R))
    (sustainability_preference : option string) : outcome (list (string * R)) :=
  let stocks_data := omap (get_stock_data quote) portfolio.*1 in
  match sustainability_preference with
  | Some preference =>
      if truthy sustainability_preference then
        filtered_portfolio portfolio
          (Filter.filter_stocks_by_preference stocks_data preference)
      else Returned portfolio
  | None => Returned portfolio
  end.

(** The body of the [try]. *)
Definition portfolio_metrics_body (portfolio : list (string * R))
    (start_date end_date benchmark sustainability_preference : option string)
  : Body unit :=
  portfolio ← lift (working_portfolio portfolio sustainability_preference);
  let '(portfolio_values, portfolio_returns) :=
    get_portfolio_historical_data history portfolio.*1 portfolio.*2
      start_date end_date in
  let benchmark_returns :=
    match benchmark with
    | Some b =>
        if truthy benchmark
        then Some (get_benchmark_data history b start_date end_date).2
        else None
    | None => None
    end in
  (if negb (empty portfolio_returns) then
     update (λ m, mkPortfolioMetrics (volatility m) (esg_score m)
       (environmental_score m) (social_score m) (governance_score m)
       (sector_exposure m) (country_exposure m)
       (calculate_metrics portfolio_returns benchmark_returns))
   else mret ()) ;;
  esg_and_exposures portfolio.

(** Both [return metrics], of the [try] and of its handler, return the dict
    in the state it has reached. *)
Definition calculate_portfolio_metrics (portfolio : list (string * R))
    (start_date end_date benchmark sustainability_preference : option string)
  : PortfolioMetrics :=
  let metrics := initial_metrics in
  match portfolio with
  | [] => metrics
  | _ =>
      (portfolio_metrics_body portfolio start_date end_date benchmark
         sustainability_preference metrics).2
  end.

End Aggregator.

(** The sum of the values of an exposure dict. *)
Definition exposure_total (exposure : gmap string R) : R :=
  map_fold (λ _ w acc, w + acc) 0 exposure.

End Core.

(** ** The formulas of the design document *)
Module Doc.
Import Pandas.

(** Product of a list of numbers. *)
Definition Rprod (l : list R) : R := foldr Rmult 1 l.

(** The product over [j <= i] of [1 + return[j]], taken over the dates at
    which the return is a number. *)
Definition growth (returns : Series) (i : nat) : R :=
  Rprod (map (λ r, 1 + r) (valid (take (S i) returns))).

(** The value series built from a return series [r] as
    [(1 + r).cumprod() * 100]. *)
Definition value_of_returns (r : Series) : Series :=
  smap (λ v, fmul v (Some 100)) (cumprod (smap (fadd (Some 1)) r)).

(** For a list of returns: the cumulative product at index [i], its prefix
    maximum over [0..i], and the drawdown at [i]. *)
Definition cum_prod (v : list R) (i : nat) : R :=
  Rprod (map (λ r, 1 + r) (take (S i) v)).
Fixpoint prefix_max (v : list R) (i : nat) : R :=
  match i with
  | O => cum_prod v 0
  | S k => Rmax (prefix_max v k) (cum_prod v i)
  end.
Definition drawdown (v : list R) (i : nat) : fnum :=
  fsub (fdiv (Some (cum_prod v i)) (Some (prefix_max v i))) (Some 1).

(** Minimum of the entries that are numbers. *)
Definition fmin_list (l : list fnum) : fnum :=
  match omap (λ x : fnum, x) l with
  | [] => NaN
  | x :: rest => Some (foldl Rmin x rest)
  end.

(** The minimum over [i] of the drawdown at [i]. *)
Definition min_drawdown (v : list R) : fnum :=
  fmin_list (map (drawdown v) (seq 0 (length v))).

(** Sample variance and standard deviation of a list of numbers. *)
Definition sample_variance (v : list R) : R :=
  py_sum (map (λ x, (x - list_mean v) * (x - list_mean v)) v)
  / (INR (length v) - 1).
Definition sample_stddev (v : list R) : R := sqrt (sample_variance v).

(** Sample covariance of paired observations. *)
Definition sample_covariance (p : list (R * R)) : R :=
  py_sum (map (λ xy, (xy.1 - list_mean p.*1) * (xy.2 - list_mean p.*2)) p)
  / (INR (length p) - 1).

(** The first date is dropped from a return series: its dates are those of
    the price series without the first. *)
Definition first_date_dropped (prices : list (Z * R)) (returns : Series) : Prop :=
  returns.*1 = tail prices.*1.

(** The drawdowns as the code meets them, one return after the other:
    [acc] is the cumulative product so far and [best] its running
    maximum. *)
Fixpoint drawdowns_from (acc : R) (best : fnum) (v : list R) : list fnum :=
  match v with
  | [] => []
  | x :: rest =>
      let c := acc * (1 + x) in
      let b := running_max best (Some c) in
      fsub (fdiv (Some c) b) (Some 1) :: drawdowns_from c b rest
  end.

(** The running maximum the loop has reached after the returns [pre]. *)
Definition reached_best (pre : list R) : fnum :=
  match length pre with
  | O => NaN
  | S k => Some (prefix_max pre k)
  end.

(** The three returns of the drawdown scenario, on three consecutive
    days. *)
Definition scenario_returns : Series :=
  [(0%Z, Some 0.01); (1%Z, Some (-0.02)); (2%Z, Some 0.03)].


(** A sub-score as the design document reads it off an asset record: the
    number the record stores for it, and 0 when the record has none.  A
    record names a sub-score by a short key ([env], [soc], [gov], [total])
    or by the long key that [get_stock_data] writes
    ([environmental_score], ...); the short key wins when both are there. *)
Definition sub_score (record : gmap string R) (short long : string) : R :=
  match record !! short with
  | Some v => v
  | None => match record !! long with
            | Some v => v
            | None => 0
            end
  end.

End Doc.

(** ** Invariants and aggregates of the portfolio body *)
Module Agg.
Import Pandas Core.

(** A body leaves the [volatility] entry of [metrics] as it found it. *)
Definition keeps_volatility {A} (c : Body A) : Prop :=
  ∀ m, volatility (c m).2 = volatility m.

(** A [history] answer that gives the series builder nothing to use. *)
Definition no_data (h : outcome History) : Prop :=
  match h with
  | Returned (Close (_ :: _)) => False
  | _ => True
  end.

(** The weights of the tickers with an asset record: [valid_weights] of the
    second half of [calculate_portfolio_metrics]. *)
Definition resolved_weights (quote : string → option Quote)
    (portfolio : list (string * R)) : list R :=
  omap (λ item : string * R,
          match get_stock_data quote item.1 with
          | Some _ => Some item.2
          | None => None
          end) portfolio.

(** The terms [score_i * weight_i / total] of the assets with a record, for
    the score stored under [key]. *)
Definition contributions (quote : string → option Quote) (key : string)
    (total_weight : R) (portfolio : list (string * R)) : list R :=
  omap (λ item : string * R,
          match get_stock_data quote item.1 with
          | Some data => Some (dict_get (scores data) key 0
                               * (item.2 / total_weight))
          | None => None
          end) portfolio.

(** The weighted aggregate of the score stored under [key]. *)
Definition weighted_score (quote : string → option Quote) (key : string)
    (portfolio : list (string * R)) : R :=
  py_sum (contributions quote key (py_sum (resolved_weights quote portfolio))
            portfolio).

(** The state of [metrics] after the four [+=] and the two exposure updates
    for one asset. *)
Definition accumulated (data : Stock) (wn : R) (m : PortfolioMetrics)
  : PortfolioMetrics :=
  mkPortfolioMetrics (volatility m)
    (esg_score m + dict_get (scores data) "esg_score" 0 * wn)
    (environmental_score m + dict_get (scores data) "environmental_score" 0 * wn)
    (social_score m + dict_get (scores data) "social_score" 0 * wn)
    (governance_score m + dict_get (scores data) "governance_score" 0 * wn)
    (if bool_decide (sector data ≠ "N/A")
     then add_exposure (sector_exposure m) (sector data) wn
     else sector_exposure m)
    (if bool_decide (country data ≠ "N/A")
     then add_exposure (country_exposure m) (country data) wn
     else country_exposure m)
    (performance_metrics m).

(** One iteration of the second loop when the division succeeds. *)
Definition esg_item (quote : string → option Quote) (total_weight : R)
    (m : PortfolioMetrics) (item : string * R) : PortfolioMetrics :=
  match get_stock_data quote item.1 with
  | Some data => accumulated data (item.2 / total_weight) m
  | None => m
  end.

End Agg.

(** ** Sample inputs *)
Module Sample.
Import Pandas.

(** An asset record that carries no numeric entry at all. *)
Definition bare_stock : Stock := mkStock "XYZ" "N/A" "N/A" ∅.

(** Two closes, 100 then 110, whatever the ticker and the date range. *)
Definition two_day_prices : list (Z * R) := [(0%Z, 100); (1%Z, 110)].
Definition two_day_history (_ : string) (_ _ : option string) : outcome History :=
  Returned (Close two_day_prices).

(** Two equal returns: a series without dispersion. *)
Definition flat_returns : Series := [(0%Z, Some 0.01); (1%Z, Some 0.01)].

(** The two assets of the aggregation scenario, and a third one with an
    environmental score of 5. *)
Definition scenario_quote (ticker : string) : option Quote :=
  if decide (ticker = "A") then
    Some (mkQuote (Some "Technology") (Some "France") (Some (10, 2, 3, 2)))
  else if decide (ticker = "B") then
    Some (mkQuote (Some "Utilities") (Some "France") (Some (15, 3, 4, 3)))
  else if decide (ticker = "C") then
    Some (mkQuote (Some "Energy") (Some "France") (Some (15, 5, 4, 3)))
  else None.

(** The records [get_stock_data] builds for them. *)
Definition stock_A : Stock :=
  mkStock "A" "Technology" "France"
    (<["esg_score" := 10]> (<["environmental_score" := 2]>
    (<["social_score" := 3]> (<["governance_score" := 2]> ∅)))).
Definition stock_B : Stock :=
  mkStock "B" "Utilities" "France"
    (<["esg_score" := 15]> (<["environmental_score" := 3]>
    (<["social_score" := 4]> (<["governance_score" := 3]> ∅)))).
Definition stock_C : Stock :=
  mkStock "C" "Energy" "France"
    (<["esg_score" := 15]> (<["environmental_score" := 5]>
    (<["social_score" := 4]> (<["governance_score" := 3]> ∅)))).

(** A provider without price history. *)
Definition no_history (_ : string) (_ _ : option string) : outcome History :=
  Returned (Close []).

(** A single close of 100. *)
Definition one_day_prices : list (Z * R) := [(0%Z, 100)].
Definition one_day_history (_ : string) (_ _ : option string) : outcome History :=
  Returned (Close one_day_prices).

(** A close series that starts at a price of 0. *)
Definition zero_start_prices : list (Z * R) := [(0%Z, 0); (1%Z, 110)].
Definition zero_start_history (_ : string) (_ _ : option string)
  : outcome History :=
  Returned (Close zero_start_prices).


(** A provider whose download fails for the ticker BAD and gives the two
    closes for every other ticker. *)
Definition failing_history (ticker : string) (_ _ : option string)
  : outcome History :=
  if decide (ticker = "BAD") then Raised FetchError
  else Returned (Close two_day_prices).


(** A record with the environmental score under both keys: 5 under the
    short one, 2 under the long one. *)
Definition short_key_stock : Stock :=
  mkStock "S" "Energy" "France"
    (<["env" := 5]> (<["esg_score" := 10]> (<["environmental_score" := 2]>
    (<["social_score" := 3]> (<["governance_score" := 2]> ∅))))).


(** A provider without any asset record. *)
Definition unresolved_quote (_ : string) : option Quote := None.

End Sample.

(** ** Rescaled weights, alignment and restriction *)
Module Scale.
Import Pandas Core.

(** The weights dict with every weight multiplied by [c]. *)
Definition scale_portfolio (c : R) (portfolio : list (string * R))
  : list (string * R) :=
  map (λ item, (item.1, c * item.2)) portfolio.

(** The variables of the first loop of the series builder, with the
    collected weights multiplied by [c]. *)
Definition scale_fetched (c : R) (st : Fetched) : Fetched :=
  mkFetched (data st) (returns st) (valid_tickers st)
    (map (Rmult c) (valid_weights st)).

(** The close series of the first ticker, in the order of the list, for
    which the provider has a non-empty close series. *)
Fixpoint first_closes
    (history : string → option string → option string → outcome History)
    (start_date end_date : option string) (tickers : list string)
  : option (list (Z * R)) :=
  match tickers with
  | [] => None
  | ticker :: rest =>
      match history ticker start_date end_date with
      | Returned (Close ((_ :: _) as prices)) => Some prices
      | _ => first_closes history start_date end_date rest
      end
  end.

(** [metrics] with its [performance_metrics] entry replaced. *)
Definition with_performance (perf : gmap string fnum) (m : PortfolioMetrics)
  : PortfolioMetrics :=
  mkPortfolioMetrics (volatility m) (esg_score m) (environmental_score m)
    (social_score m) (governance_score m) (sector_exposure m)
    (country_exposure m) perf.

(** An entry of the weights dict that a strategy keeps: its ticker has an
    asset record and the record is eligible. *)
Definition kept (quote : string → option Quote) (name : string)
    (item : string * R) : Prop :=
  match get_stock_data quote item.1 with
  | Some data => Filter.eligible name data
  | None => False
  end.

#[global] Instance kept_dec quote name item : Decision (kept quote name item).
Proof. unfold kept. destruct (get_stock_data quote item.1); apply _. Defined.

(** [metrics[key]] for the four score entries. *)
Definition score_entry (m : PortfolioMetrics) (key : string) : R :=
  if decide (key = "esg_score") then esg_score m
  else if decide (key = "environmental_score") then environmental_score m
  else if decide (key = "social_score") then social_score m
  else governance_score m.

(** The [performance_metrics] entry after the performance step of
    [calculate_portfolio_metrics] on the working portfolio: replaced by the
    calculator's dict when the portfolio return series is not empty. *)
Definition performance_after
    (history : string → option string → option string → outcome History)
    (working : list (string * R)) (start_date end_date benchmark : option string)
    (m : PortfolioMetrics) : gmap string fnum :=
  let portfolio_returns :=
    (get_portfolio_historical_data history working.*1 working.*2
       start_date end_date).2 in
  let benchmark_returns :=
    match benchmark with
    | Some b =>
        if truthy benchmark
        then Some (get_benchmark_data history b start_date end_date).2
        else None
    | None => None
    end in
  if negb (empty portfolio_returns)
  then calculate_metrics portfolio_returns benchmark_returns
  else performance_metrics m.


(** The variables of the first loop of the series builder once a ticker
    with the non-empty close series [prices] has been stored: the return
    frame carries the dates of [prices], every collected ticker has a column
    of that length, and the column of a ticker whose close series is
    [prices] starts with a value that is not a number. *)
Definition aligned
    (history : string → option string → option string → outcome History)
    (start_date end_date : option string) (prices : list (Z * R))
    (st : Fetched) : Prop :=
  prices ≠ []
  ∧ df_index (returns st) = prices.*1
  ∧ length (valid_tickers st) = length (valid_weights st)
  ∧ (∀ t, t ∈ valid_tickers st →
       ∃ vals, df_columns (returns st) !! t = Some vals
               ∧ length vals = length prices)
  ∧ (∃ t0 vals, t0 ∈ valid_tickers st
       ∧ history t0 start_date end_date = Returned (Close prices)
       ∧ df_columns (returns st) !! t0 = Some (NaN :: vals)).

End Scale.

(** ** The calculator in binary64

    The tests [returns.std() != 0] and [variance != 0] of
    [calculate_metrics] compare a computed float with zero, and a float
    computed from equal observations need not be zero.  This module embeds
    [calculate_metrics] a second time, on IEEE 754 binary64 numbers (the
    kernel's floats: [nan], the infinities and the signed zeros included,
    every operation rounded to nearest), to settle what these tests decide.

    The reductions whose result depends on how pandas and NumPy order
    their additions ([mean], [std], [var], [cov]) and the power [**] of the
    C library are the fields of a [Library]; the calculator is written over
    any such library.  [short_series] is one such library, with the
    two-pass formulas of pandas and NumPy and the additions made from left
    to right; the sample series are chosen so that the order of the
    additions does not matter (equal terms, or sums that are exact). *)
Module Binary64.
Import PrimFloat.

Abbreviation FSeries := (list (Z * float)).

(** [s.empty] *)
Definition empty (s : FSeries) : bool :=
  match s with [] => true | _ => false end.

(** Element-wise operation with a scalar, and of two series on one index. *)
Definition smap (f : float → float) (s : FSeries) : FSeries :=
  map (λ e, (e.1, f e.2)) s.
Definition szip (f : float → float → float) (s1 s2 : FSeries) : FSeries :=
  zip_with (λ e1 e2, (e1.1, f e1.2 e2.2)) s1 s2.

(** [x != 0] on a float: [True] on [nan], [False] on both zeros. *)
Definition nonzero (x : float) : bool := negb (PrimFloat.eqb x 0).

(** The values that are numbers, as a reduction with [skipna=True] sees
    them. *)
Definition numbers (s : FSeries) : list float :=
  omap (λ e : Z * float, if PrimFloat.is_nan e.2 then None else Some e.2) s.

(** [s.cumprod()]: [nan] stays in place and is skipped by the running
    product; an infinity is a factor like any other. *)
Fixpoint cumprod_from (acc : float) (s : FSeries) : FSeries :=
  match s with
  | [] => []
  | (d, x) :: rest =>
      if PrimFloat.is_nan x then (d, x) :: cumprod_from acc rest
      else (d, PrimFloat.mul acc x) :: cumprod_from (PrimFloat.mul acc x) rest
  end.
Definition cumprod (s : FSeries) : FSeries := cumprod_from 1 s.

(** [s.expanding().max()] *)
Definition running_max (best x : float) : float :=
  if PrimFloat.is_nan best then x
  else if PrimFloat.ltb best x then x else best.
Fixpoint expanding_max_from (best : float) (s : FSeries) : FSeries :=
  match s with
  | [] => []
  | (d, x) :: rest =>
      (d, running_max best x) :: expanding_max_from (running_max best x) rest
  end.
Definition expanding_max (s : FSeries) : FSeries :=
  expanding_max_from PrimFloat.nan s.

(** [s.min()] *)
Definition smin (s : FSeries) : float :=
  match numbers s with
  | [] => PrimFloat.nan
  | x :: rest => foldl (λ m y, if PrimFloat.ltb y m then y else m) x rest
  end.

(** The calls into pandas, NumPy and the C library whose rounding depends
    on the implementation. *)
Record Library := mkLibrary {
  mean : FSeries → float;            (* [s.mean()] *)
  std : FSeries → float;             (* [s.std()] *)
  var : FSeries → float;             (* [s.var()] *)
  cov : FSeries → FSeries → float;   (* [s1.cov(s2)] *)
  power252 : float → float           (* [x ** 252] *)
}.

Section Calculator.

Variable L : Library.

Definition risk_free_rate : float := 0.02%float.

Definition annualized_return (returns : FSeries) : float :=
  PrimFloat.sub (power252 L (PrimFloat.add 1 (mean L returns))) 1.

Definition sharpe_ratio (returns : FSeries) : float :=
  let excess_returns :=
    smap (λ r, PrimFloat.sub r (PrimFloat.div risk_free_rate 252)) returns in
  if nonzero (std L returns) then
    PrimFloat.div (PrimFloat.mul (PrimFloat.sqrt 252) (mean L excess_returns))
                  (std L returns)
  else 0%float.

Definition max_drawdown (returns : FSeries) : float :=
  let cum_returns := cumprod (smap (PrimFloat.add 1) returns) in
  let rolling_max := expanding_max cum_returns in
  let drawdowns :=
    smap (λ q, PrimFloat.sub q 1) (szip PrimFloat.div cum_returns rolling_max) in
  smin drawdowns.

Definition calculate_metrics (returns : FSeries)
    (benchmark_returns : option FSeries) : gmap string float :=
  if empty returns then ∅
  else
    let metrics : gmap string float := ∅ in
    let metrics := <["annualized_return" := annualized_return returns]> metrics in
    let metrics :=
      <["annualized_volatility" :=
          PrimFloat.mul (std L returns) (PrimFloat.sqrt 252)]> metrics in
    let metrics := <["sharpe_ratio" := sharpe_ratio returns]> metrics in
    let metrics := <["max_drawdown" := max_drawdown returns]> metrics in
    match benchmark_returns with
    | Some benchmark_returns =>
        if negb (empty benchmark_returns) then
          let covariance := cov L returns benchmark_returns in
          let variance := var L benchmark_returns in
          if nonzero variance then
            let beta := PrimFloat.div covariance variance in
            let alpha :=
              PrimFloat.sub
                (PrimFloat.sub (annualized_return returns) risk_free_rate)
                (PrimFloat.mul beta
                   (PrimFloat.sub
                      (PrimFloat.sub
                         (power252 L (PrimFloat.add 1 (mean L benchmark_returns)))
                         1)
                      risk_free_rate)) in
            <["alpha" := alpha]> (<["beta" := beta]> metrics)
          else
            <["alpha" := 0%float]> (<["beta" := 1%float]> metrics)
        else metrics
    | None => metrics
    end.

End Calculator.

(** *** A library

    [sum] from left to right starting at 0. *)
Definition fsum (l : list float) : float := foldl PrimFloat.add 0%float l.

(** A count as a float. *)
Definition of_count (n : nat) : float :=
  PrimFloat.of_uint63 (Uint63.of_Z (Z.of_nat n)).

(** [nanops.nanmean]: the sum of the numbers over their count. *)
Definition nanmean (s : FSeries) : float :=
  PrimFloat.div (fsum (numbers s)) (of_count (length (numbers s))).

(** [nanops.nanvar] with [ddof=1]: the squared deviations from the computed
    mean, summed, over [count - 1]; [nan] on fewer than two numbers. *)
Definition nanvar (s : FSeries) : float :=
  match numbers s with
  | [] | [_] => PrimFloat.nan
  | v =>
      let count := of_count (length v) in
      let avg := PrimFloat.div (fsum v) count in
      let sqr := map (λ x, PrimFloat.mul (PrimFloat.sub avg x)
                                         (PrimFloat.sub avg x)) v in
      PrimFloat.div (fsum sqr) (PrimFloat.sub count 1)
  end.

(** [nanops.nanstd] *)
Definition nanstd (s : FSeries) : float := PrimFloat.sqrt (nanvar s).

(** [Series.cov]: inner join on the index, pairs with a [nan] dropped. *)
Definition joined_pairs (s1 s2 : FSeries) : list (float * float) :=
  omap (λ e : Z * float,
          match list_find (λ e' : Z * float, e'.1 = e.1) s2 with
          | Some (_, e') =>
              if PrimFloat.is_nan e.2 || PrimFloat.is_nan e'.2 then None
              else Some (e.2, e'.2)
          | None => None
          end) s1.

(** [np.cov(a, b, ddof=1)[0, 1]]: both rows centred on their computed
    means, the dot product of the rows from left to right, times
    [1 / (n - 1)]. *)
Definition nancov (s1 s2 : FSeries) : float :=
  match joined_pairs s1 s2 with
  | [] => PrimFloat.nan
  | p =>
      let n := of_count (length p) in
      let avg1 := PrimFloat.div (fsum p.*1) n in
      let avg2 := PrimFloat.div (fsum p.*2) n in
      let dot := fsum (map (λ xy : float * float,
                              PrimFloat.mul (PrimFloat.sub xy.1 avg1)
                                            (PrimFloat.sub xy.2 avg2)) p) in
      PrimFloat.mul dot (PrimFloat.div 1 (PrimFloat.sub n 1))
  end.

(** [x ** n] by repeated multiplication: the C library's [pow] up to
    rounding, and exactly so at [x = 1]. *)
Fixpoint fpow (x : float) (n : nat) : float :=
  match n with
  | O => 1%float
  | S n => PrimFloat.mul x (fpow x n)
  end.

Definition short_series : Library :=
  mkLibrary nanmean nanstd nanvar nancov (λ x, fpow x 252).

(** *** Sample series *)

(** Two equal returns of 1%, three equal returns of 10%, and three returns
    around 0 whose deviations from their mean are powers of two. *)
Definition two_equal : FSeries := [(0%Z, 0.01%float); (1%Z, 0.01%float)].
Definition three_equal : FSeries :=
  [(0%Z, 0.1%float); (1%Z, 0.1%float); (2%Z, 0.1%float)].
Definition centred : FSeries :=
  [(0%Z, (-0.015625)%float); (1%Z, 0%float); (2%Z, 0.015625%float)].

End Binary64.


(** * Properties *)

Import Filter Pandas Core Doc Agg Sample.

#[local] Arguments valid : simpl never.
#[local] Arguments Rprod : simpl never.
#[local] Arguments growth : simpl never.

(** ** The eligibility filter *)

Lemma py_max2_Rmax a b : py_max2 a b = Rmax a b.
Proof.
  unfold py_max2, Rmax. destruct (decide (a < b)), (Rle_dec a b); lra.
Qed.

Lemma py_max3_Rmax a b c : py_max3 a b c = Rmax a (Rmax b c).
Proof. unfold py_max3. by rewrite !py_max2_Rmax, Rmax_assoc. Qed.

(** The loop appends, in order, the stocks that pass the chain. *)
Lemma filter_loop_filter preference stocks acc :
  filter_loop preference stocks acc
  = acc ++ filter (λ s, appended preference s) stocks.
Proof.
  revert acc. induction stocks as [|stock rest IH]; intros acc; simpl.
  - by rewrite app_nil_r.
  - rewrite IH, filter_cons.
    case_decide as H; destruct (appended preference stock); try done.
    by rewrite <- app_assoc.
Qed.

Lemma filter_stocks_filter stocks preference :
  filter_stocks_by_preference stocks preference
  = filter (λ s, appended preference s) stocks.
Proof.
  destruct stocks as [|stock rest]; [done|].
  unfold filter_stocks_by_preference. by rewrite filter_loop_filter.
Qed.

(** The chain of tests decides the predicate of the design document. *)
Lemma appended_eligible preference s :
  appended preference s ↔ eligible preference s.
Proof.
  unfold appended, eligible, known_strategy, net_zero_ok, multi_thematic_ok,
    solidarity_ok, default_ok.
  rewrite !py_max3_Rmax, !py_max2_Rmax.
  repeat case_decide; subst;
    rewrite ?andb_True, ?orb_True, ?bool_decide_spec; naive_solver.
Qed.

Lemma filter_stocks_eligible stocks preference :
  filter_stocks_by_preference stocks preference
  = filter (eligible preference) stocks.
Proof.
  rewrite filter_stocks_filter.
  apply list_filter_iff. intros s. apply appended_eligible.
Qed.

Lemma no_esg_keys_zero s :
  no_esg_keys s →
  env_score s = 0 ∧ soc_score s = 0 ∧ gov_score s = 0 ∧ total_score s = 0.
Proof.
  intros H. unfold env_score, soc_score, gov_score, total_score, dict_get.
  rewrite !H by set_solver. done.
Qed.

Lemma no_esg_keys_eligible preference s :
  no_esg_keys s → eligible preference s.
Proof.
  intros (He & Hs & Hg & Ht)%no_esg_keys_zero.
  assert (Rmax 0 0 = 0) as Hm by (apply Rmax_left; lra).
  unfold eligible, known_strategy, net_zero_ok, multi_thematic_ok,
    solidarity_ok, default_ok.
  rewrite He, Hs, Hg, Ht, !Hm.
  destruct (decide (preference = "Net Zéro")); [left; split; [done|lra]|].
  destruct (decide (preference = "Multi-thématique ESG"));
    [right; left; split; [done|lra]|].
  destruct (decide (preference = "Solidaire"));
    [right; right; left; split; [done|lra]|].
  right; right; right. split; [|lra]. naive_solver.
Qed.

Lemma eligible_net_zero s : eligible "Net Zéro" s ↔ net_zero_ok s.
Proof. unfold eligible, known_strategy. naive_solver. Qed.

Lemma eligible_multi_thematic s :
  eligible "Multi-thématique ESG" s ↔ multi_thematic_ok s.
Proof. unfold eligible, known_strategy. naive_solver. Qed.

Lemma eligible_solidarity s : eligible "Solidaire" s ↔ solidarity_ok s.
Proof. unfold eligible, known_strategy. naive_solver. Qed.

Lemma eligible_default preference s :
  ¬ known_strategy preference → (eligible preference s ↔ default_ok s).
Proof. unfold eligible, known_strategy. naive_solver. Qed.

(** The four reads of the loop body are the document's sub-scores of the
    record. *)
Lemma reads_sub_scores s :
  env_score s = sub_score (scores s) "env" "environmental_score"
  ∧ soc_score s = sub_score (scores s) "soc" "social_score"
  ∧ gov_score s = sub_score (scores s) "gov" "governance_score"
  ∧ total_score s = sub_score (scores s) "total" "esg_score".
Proof.
  unfold env_score, soc_score, gov_score, total_score, dict_get, sub_score.
  by split_and!.
Qed.

Lemma filter_stocks_elem stocks preference s :
  s ∈ filter_stocks_by_preference stocks preference
  ↔ s ∈ stocks ∧ eligible preference s.
Proof. rewrite filter_stocks_eligible, list_elem_of_filter. tauto. Qed.

(** C1.  Under every strategy name the filter keeps exactly the input
    assets whose sub-scores, read off the record (short key, else long key,
    else 0), satisfy that strategy's predicate (NetZero: env < 4, total <
    20, max(soc, gov) < 12; MultiThematicESG: total < 22, max(env, soc, gov)
    < 10 and one of env < 8, soc < 8, gov < 5; Solidarity: soc < 8, gov < 6,
    total < 25; any other name: total < 25 and max(env, soc, gov) < 15); an
    asset without any ESG key has four sub-scores of 0 and is kept under
    every strategy. *)
Theorem C1_filter_keeps_exactly_the_eligible
    (stocks : list Stock) (preference : string) (s : Stock) :
  let env := sub_score (scores s) "env" "environmental_score" in
  let soc := sub_score (scores s) "soc" "social_score" in
  let gov := sub_score (scores s) "gov" "governance_score" in
  let total := sub_score (scores s) "total" "esg_score" in
  (s ∈ filter_stocks_by_preference stocks "Net Zéro"
   ↔ s ∈ stocks ∧ env < 4 ∧ total < 20 ∧ Rmax soc gov < 12)
  ∧ (s ∈ filter_stocks_by_preference stocks "Multi-thématique ESG"
     ↔ s ∈ stocks ∧ total < 22 ∧ Rmax env (Rmax soc gov) < 10
       ∧ (env < 8 ∨ soc < 8 ∨ gov < 5))
  ∧ (s ∈ filter_stocks_by_preference stocks "Solidaire"
     ↔ s ∈ stocks ∧ soc < 8 ∧ gov < 6 ∧ total < 25)
  ∧ (preference ≠ "Net Zéro" → preference ≠ "Multi-thématique ESG" →
     preference ≠ "Solidaire" →
     (s ∈ filter_stocks_by_preference stocks preference
      ↔ s ∈ stocks ∧ total < 25 ∧ Rmax env (Rmax soc gov) < 15))
  ∧ (no_esg_keys s →
     env = 0 ∧ soc = 0 ∧ gov = 0 ∧ total = 0
     ∧ (s ∈ stocks → s ∈ filter_stocks_by_preference stocks preference))
  ∧ filter_stocks_by_preference stocks preference
    = filter (eligible preference) stocks.
Proof.
  intros env soc gov total.
  destruct (reads_sub_scores s) as (He & Hs & Hg & Ht).
  fold env in He. fold soc in Hs. fold gov in Hg. fold total in Ht.
  split_and!.
  - rewrite filter_stocks_elem, eligible_net_zero. unfold net_zero_ok.
    by rewrite He, Hs, Hg, Ht.
  - rewrite filter_stocks_elem, eligible_multi_thematic. unfold multi_thematic_ok.
    by rewrite He, Hs, Hg, Ht.
  - rewrite filter_stocks_elem, eligible_solidarity. unfold solidarity_ok.
    by rewrite Hs, Hg, Ht.
  - intros H1 H2 H3. rewrite filter_stocks_elem, eligible_default.
    + unfold default_ok. by rewrite He, Hs, Hg, Ht.
    + unfold known_strategy. tauto.
  - intros Hk. destruct (no_esg_keys_zero s Hk) as (He0 & Hs0 & Hg0 & Ht0).
    split_and!; [congruence..|].
    intros Hin. apply filter_stocks_elem.
    split; [done | by apply no_esg_keys_eligible].
  - apply filter_stocks_eligible.
Qed.

Lemma C1_witness :
  stock_A ∈ filter_stocks_by_preference [stock_C; stock_A; short_key_stock]
              "Net Zéro"
  ∧ ¬ (stock_C ∈ filter_stocks_by_preference
                   [stock_C; stock_A; short_key_stock] "Net Zéro")
  ∧ ¬ (short_key_stock ∈ filter_stocks_by_preference
                           [stock_C; stock_A; short_key_stock] "Net Zéro")
  ∧ bare_stock ∈ filter_stocks_by_preference [bare_stock] "Solidaire".
Proof.
  pose proof (C1_filter_keeps_exactly_the_eligible
                [stock_C; stock_A; short_key_stock] "Net Zéro") as Hkeep.
  split_and!.
  - destruct (Hkeep stock_A) as (Hnz & _). apply Hnz.
    split; [set_solver|].
    replace (sub_score (scores stock_A) "env" "environmental_score")
      with 2 by reflexivity.
    replace (sub_score (scores stock_A) "total" "esg_score")
      with 10 by reflexivity.
    replace (sub_score (scores stock_A) "soc" "social_score")
      with 3 by reflexivity.
    replace (sub_score (scores stock_A) "gov" "governance_score")
      with 2 by reflexivity.
    rewrite (Rmax_left 3 2) by lra. lra.
  - destruct (Hkeep stock_C) as (Hnz & _). intros (_ & H & _)%Hnz.
    replace (sub_score (scores stock_C) "env" "environmental_score")
      with 5 in H by reflexivity.
    lra.
  - destruct (Hkeep short_key_stock) as (Hnz & _). intros (_ & H & _)%Hnz.
    replace (sub_score (scores short_key_stock) "env" "environmental_score")
      with 5 in H by reflexivity.
    lra.
  - destruct (C1_filter_keeps_exactly_the_eligible [bare_stock] "Solidaire"
                bare_stock) as (_ & _ & _ & _ & Hbare & _).
    apply Hbare; [by intros k _ | apply list_elem_of_here].
Defined.

(** C9.  The filter's output is a subsequence of its input (order kept,
    records untouched) and filtering the output again under the same
    strategy changes nothing. *)
Theorem C9_filter_sublist_idempotent (stocks : list Stock) (preference : string) :
  sublist (filter_stocks_by_preference stocks preference) stocks
  ∧ filter_stocks_by_preference
      (filter_stocks_by_preference stocks preference) preference
    = filter_stocks_by_preference stocks preference.
Proof.
  rewrite !filter_stocks_eligible. split.
  - apply sublist_filter.
  - rewrite list_filter_filter. apply list_filter_iff. tauto.
Qed.

(** ** Series arithmetic *)

Lemma fdiv_Some a b : b ≠ 0 → fdiv (Some a) (Some b) = Some (a / b).
Proof. intros. unfold fdiv. by rewrite decide_False. Qed.

Lemma smap_length f s : length (smap f s) = length s.
Proof. apply length_map. Qed.

Lemma smap_index f s : (smap f s).*1 = s.*1.
Proof. unfold smap. rewrite <- list_fmap_compose. done. Qed.

Lemma smap_lookup f s i : smap f s !! i = (λ e, (e.1, f e.2)) <$> s !! i.
Proof. apply list_lookup_fmap. Qed.

Lemma pct_change_from_index prev s : (pct_change_from prev s).*1 = s.*1.
Proof.
  revert prev. induction s as [|[d p] rest IH]; intros prev; simpl; [done|].
  by rewrite IH.
Qed.

Lemma pct_change_from_succ prev s i d' q d p :
  s !! i = Some (d', q) → s !! S i = Some (d, p) →
  pct_change_from prev s !! S i = Some (d, fsub (fdiv p q) (Some 1)).
Proof.
  revert prev i. induction s as [|[d0 p0] rest IH]; intros prev i Hi HS; [done|].
  destruct i as [|i]; simpl in *.
  - destruct rest as [|[d1 p1] rest']; simplify_eq/=. done.
  - by apply IH.
Qed.

Lemma close_series_lookup prices i :
  close_series prices !! i = (λ e, (e.1, Some e.2)) <$> prices !! i.
Proof. apply list_lookup_fmap. Qed.

Lemma close_series_index prices : (close_series prices).*1 = prices.*1.
Proof. unfold close_series. by rewrite <- list_fmap_compose. Qed.

(** The return series of a close series keeps every date; the first one
    carries [NaN] and every later one the relative change of the price. *)
Lemma pct_change_close_index prices :
  (pct_change (close_series prices)).*1 = prices.*1.
Proof. unfold pct_change. by rewrite pct_change_from_index, close_series_index. Qed.

Lemma pct_change_close_first d p rest :
  pct_change (close_series ((d, p) :: rest)) !! 0%nat = Some (d, NaN).
Proof. done. Qed.

Lemma pct_change_close_succ prices i d' q d p :
  prices !! i = Some (d', q) → prices !! S i = Some (d, p) → q ≠ 0 →
  pct_change (close_series prices) !! S i = Some (d, Some (p / q - 1)).
Proof.
  intros Hi HS Hq. unfold pct_change.
  erewrite pct_change_from_succ.
  2,3: rewrite close_series_lookup; (by rewrite Hi) || by rewrite HS.
  by rewrite fdiv_Some.
Qed.

(** Aligning a series on its own index changes nothing when its dates are
    distinct. *)
Lemma at_date_here (s : Series) d v :
  (d, v) ∈ s → NoDup s.*1 → at_date s d = v.
Proof.
  induction s as [|[d0 v0] rest IH]; intros Hin Hnd; [by apply elem_of_nil in Hin|].
  unfold at_date. simpl. apply NoDup_cons in Hnd as [Hd0 Hnd].
  apply elem_of_cons in Hin as [Heq|Hin].
  - simplify_eq. by rewrite decide_True.
  - rewrite decide_False.
    + specialize (IH Hin Hnd). unfold at_date in IH.
      destruct (list_find _ rest) as [[j e]|]; simpl; done.
    + simpl. intros ->. apply Hd0.
      apply list_elem_of_fmap. by exists (d, v).
Qed.

Lemma reindex_self (s : Series) : NoDup s.*1 → reindex s s.*1 = s.
Proof.
  intros Hnd. unfold reindex. rewrite <- list_fmap_compose.
  transitivity ((λ e, e) <$> s); [|apply list_fmap_id].
  apply list_fmap_ext.
  intros i [d v] Hi; simpl. f_equal.
  apply at_date_here; [|done]. by eapply list_elem_of_lookup_2.
Qed.

(** What the benchmark builder returns on a non-empty close series. *)
Lemma get_benchmark_data_close history benchmark start_date end_date prices :
  benchmark ≠ "" → prices ≠ [] →
  history benchmark start_date end_date = Returned (Close prices) →
  get_benchmark_data history benchmark start_date end_date
  = (smap (λ p, fmul (fdiv p (iloc0 (close_series prices))) (Some 100))
       (close_series prices),
     pct_change (close_series prices)).
Proof.
  intros Hb Hp Hh. unfold get_benchmark_data, benchmark_body.
  rewrite bool_decide_eq_false_2 by done. rewrite Hh. simpl.
  by destruct prices.
Qed.

(** What the first loop of the series builder stores for a first ticker
    that has data. *)
Lemma fetch_loop_single history start_date end_date ticker weight prices :
  prices ≠ [] → NoDup prices.*1 →
  history ticker start_date end_date = Returned (Close prices) →
  ∃ st, fetch_loop history start_date end_date [(ticker, weight)]
          (mkFetched df_new df_new [] []) = Returned st
        ∧ valid_tickers st = [ticker] ∧ valid_weights st = [weight]
        ∧ df_getitem (returns st) ticker = Some (pct_change (close_series prices))
        ∧ df_index (returns st) = prices.*1
        ∧ df_empty (data st) = false.
Proof.
  intros Hp Hnd Hh. simpl. rewrite Hh. simpl.
  destruct prices as [|e rest]; [done|].
  eexists. split; [done|]. split; [done|]. split; [done|]. split_and!.
  - unfold df_getitem, df_setitem. cbn [returns df_columns df_index df_new].
    rewrite lookup_insert_eq.
    rewrite reindex_self by (by rewrite pct_change_close_index).
    by rewrite zip_fst_snd.
  - unfold df_setitem. cbn [returns df_columns df_index df_new].
    apply pct_change_close_index.
  - unfold df_empty, df_setitem. cbn [data df_columns df_index df_new].
    rewrite !bool_decide_eq_false_2; [done| |done].
    apply insert_non_empty.
Qed.

(** ** Return series *)

(** The return series the code derives from a non-empty close series, for
    a portfolio constituent and for a benchmark: for i >= 1 the return at
    date[i] is price[i]/price[i-1] - 1 (price[i-1] being nonzero), and the
    first date stays in the series, with a return that is not a number. *)
Lemma returns_of_close_series (prices : list (Z * R)) :
  prices ≠ [] →
  let returns := pct_change (close_series prices) in
  returns.*1 = prices.*1
  ∧ (∃ d, returns !! 0%nat = Some (d, NaN))
  ∧ (∀ i d' q d p,
       prices !! i = Some (d', q) → prices !! S i = Some (d, p) → q ≠ 0 →
       returns !! S i = Some (d, Some (p / q - 1)))
  ∧ (∀ history benchmark start_date end_date,
       benchmark ≠ "" →
       history benchmark start_date end_date = Returned (Close prices) →
       (get_benchmark_data history benchmark start_date end_date).2 = returns)
  ∧ (∀ history ticker weight start_date end_date,
       NoDup prices.*1 →
       history ticker start_date end_date = Returned (Close prices) →
       ∃ st, fetch_loop history start_date end_date [(ticker, weight)]
               (mkFetched df_new df_new [] []) = Returned st
             ∧ df_getitem (Core.returns st) ticker = Some returns).
Proof.
  intros Hp returns. split_and!.
  - apply pct_change_close_index.
  - destruct prices as [|[d p] rest]; [done|]. by exists d.
  - intros. by eapply pct_change_close_succ.
  - intros history benchmark sd ed Hb Hh.
    by rewrite (get_benchmark_data_close _ _ _ _ prices).
  - intros history tk w sd ed Hnd Hh.
    destruct (fetch_loop_single history sd ed tk w prices)
      as (st & ? & _ & _ & ? & _); eauto.
Qed.

Example returns_of_two_closes :
  pct_change (close_series two_day_prices) !! 1%nat
  = Some (1%Z, Some (110 / 100 - 1)).
Proof.
  destruct (returns_of_close_series two_day_prices) as (_ & _ & Hsucc & _);
    [done|].
  apply (Hsucc 0%nat 0%Z 100 1%Z 110); [done | done | lra].
Qed.

(** ** Value series *)

Lemma Rprod_app l1 l2 : Rprod (l1 ++ l2) = Rprod l1 * Rprod l2.
Proof.
  unfold Rprod. induction l1 as [|x l1 IH]; simpl; [lra|]. rewrite IH. lra.
Qed.

Lemma valid_cons_Some d x (s : Series) : valid ((d, Some x) :: s) = x :: valid s.
Proof. done. Qed.

Lemma valid_cons_NaN d (s : Series) : valid ((d, NaN) :: s) = valid s.
Proof. done. Qed.

Lemma valid_smap_add1 (s : Series) :
  valid (smap (fadd (Some 1)) s) = map (λ r, 1 + r) (valid s).
Proof.
  induction s as [|[d [x|]] s IH]; simpl; [done| |done].
  rewrite !valid_cons_Some. simpl. by f_equal.
Qed.

Lemma smap_take f (s : Series) n : take n (smap f s) = smap f (take n s).
Proof. unfold smap. by rewrite fmap_take. Qed.

(** The running product at a date where the entry is a number is the
    product of the numbers up to that date; elsewhere it is [NaN]. *)
Lemma cumprod_from_lookup acc (s : Series) i :
  cumprod_from acc s !! i
  = (λ e, (e.1, match e.2 with
                | Some _ => Some (acc * Rprod (valid (take (S i) s)))
                | None => NaN
                end)) <$> s !! i.
Proof.
  revert acc i. induction s as [|[d [x|]] s IH]; intros acc i; [done| |].
  - destruct i as [|i]; simpl.
    + do 3 f_equal. unfold Rprod; simpl. lra.
    + rewrite IH. destruct (s !! i) as [[d' [y|]]|]; simpl; [|done..].
      do 3 f_equal. rewrite valid_cons_Some. unfold Rprod; simpl. lra.
  - destruct i as [|i]; simpl; [done|].
    rewrite IH. by rewrite valid_cons_NaN.
Qed.

Lemma value_of_returns_number (r : Series) i d x :
  r !! i = Some (d, Some x) →
  value_of_returns r !! i = Some (d, Some (100 * growth r i)).
Proof.
  intros Hi. unfold value_of_returns, cumprod.
  rewrite smap_lookup, cumprod_from_lookup, smap_lookup, Hi. simpl.
  do 3 f_equal. rewrite smap_take, valid_smap_add1.
  unfold growth. lra.
Qed.

Lemma value_of_returns_NaN (r : Series) i d :
  r !! i = Some (d, NaN) → value_of_returns r !! i = Some (d, NaN).
Proof.
  intros Hi. unfold value_of_returns, cumprod.
  by rewrite smap_lookup, cumprod_from_lookup, smap_lookup, Hi.
Qed.

Lemma cumprod_from_length acc (s : Series) : length (cumprod_from acc s) = length s.
Proof.
  revert acc. induction s as [|[d [x|]] s IH]; intros acc; simpl; by rewrite ?IH.
Qed.

Lemma value_of_returns_length r : length (value_of_returns r) = length r.
Proof.
  unfold value_of_returns, cumprod.
  by rewrite smap_length, cumprod_from_length, smap_length.
Qed.

Lemma value_of_returns_nil r : value_of_returns r = [] ↔ r = [].
Proof.
  rewrite <- !length_zero_iff_nil. by rewrite value_of_returns_length.
Qed.

(** The two series the builder returns are related as the last lines of its
    body relate them, on every path. *)
Lemma portfolio_value_of_returns history tickers weights start_date end_date :
  (get_portfolio_historical_data history tickers weights start_date end_date).1
  = value_of_returns
      (get_portfolio_historical_data history tickers weights start_date end_date).2.
Proof.
  unfold get_portfolio_historical_data, portfolio_historical_body.
  destruct (bool_decide _ || bool_decide _); [done|].
  destruct (fetch_loop _ _ _ _ _) as [st|e]; simpl; [|done].
  destruct (df_empty _ || bool_decide _); [done|].
  destruct (mapM _ _) as [nw|e]; simpl; [|done].
  destruct (weighted_sum_loop _ _ _) as [pr|e]; simpl; done.
Qed.

(** Along a close series with nonzero prices the returns multiply up to the
    ratio of the current price to the first one. *)
Lemma growth_pct_change_from q (rest : list (Z * R)) i d p :
  q ≠ 0 → Forall (λ e, e.2 ≠ 0) rest → rest !! i = Some (d, p) →
  Rprod (map (λ r, 1 + r)
           (valid (take (S i) (pct_change_from (Some q) (close_series rest)))))
  = p / q.
Proof.
  revert q i. induction rest as [|[d1 p1] rest IH]; intros q i Hq Hnz Hi; [done|].
  apply Forall_cons in Hnz as [Hp1 Hnz]. simpl in Hp1.
  cbn [close_series map pct_change_from fst snd].
  rewrite fdiv_Some by done. cbn [fsub]. rewrite firstn_cons, valid_cons_Some.
  cbn [map]. change (Rprod (?x :: ?l)) with (x * Rprod l).
  destruct i as [|i]; simpl in Hi.
  - simplify_eq. rewrite take_0. change (Rprod (map _ (valid []))) with 1.
    field. done.
  - fold (close_series rest). rewrite (IH p1 i) by done. field. done.
Qed.

Lemma growth_pct_change d0 p0 (rest : list (Z * R)) i d p :
  Forall (λ e, e.2 ≠ 0) ((d0, p0) :: rest) →
  ((d0, p0) :: rest) !! i = Some (d, p) →
  growth (pct_change (close_series ((d0, p0) :: rest))) i = p / p0.
Proof.
  intros [Hp0 Hnz]%Forall_cons Hi. simpl in Hp0.
  unfold growth, pct_change. cbn [close_series map pct_change_from fst snd].
  rewrite firstn_cons, valid_cons_NaN.
  destruct i as [|i]; simpl in Hi.
  - simplify_eq. rewrite take_0. change (Rprod (map _ (valid []))) with 1.
    field. done.
  - fold (close_series rest). by apply (growth_pct_change_from p0 rest i d p).
Qed.

(** The benchmark value series: 100 at the first date and 100 times the
    growth of the benchmark returns at every date. *)
Lemma benchmark_value_growth history benchmark start_date end_date prices :
  benchmark ≠ "" → prices ≠ [] → Forall (λ e, e.2 ≠ 0) prices →
  history benchmark start_date end_date = Returned (Close prices) →
  let bv := (get_benchmark_data history benchmark start_date end_date).1 in
  let br := (get_benchmark_data history benchmark start_date end_date).2 in
  (∃ d, bv !! 0%nat = Some (d, Some 100))
  ∧ ∀ i d p, prices !! i = Some (d, p) →
             bv !! i = Some (d, Some (100 * growth br i)).
Proof.
  intros Hb Hp Hnz Hh bv br. subst bv br.
  rewrite (get_benchmark_data_close _ _ _ _ prices) by done.
  destruct prices as [|[d0 p0] rest]; [done|].
  assert (p0 ≠ 0) as Hp0 by (by apply Forall_cons in Hnz as [? _]).
  cbn [fst snd].
  assert (∀ i d p, ((d0, p0) :: rest) !! i = Some (d, p) →
    smap (λ p, fmul (fdiv p (iloc0 (close_series ((d0, p0) :: rest)))) (Some 100))
         (close_series ((d0, p0) :: rest)) !! i
    = Some (d, Some (100 * growth (pct_change (close_series ((d0, p0) :: rest))) i)))
    as Hall.
  { intros i d p Hi. rewrite smap_lookup, close_series_lookup, Hi.
    change (iloc0 (close_series ((d0, p0) :: rest))) with (Some p0).
    cbn [fmap option_fmap option_map fst snd].
    rewrite fdiv_Some by done. cbn [fmul].
    rewrite (growth_pct_change d0 p0 rest i d p) by done.
    do 3 f_equal. lra. }
  split; [|exact Hall].
  exists d0. rewrite (Hall 0%nat d0 p0) by done.
  rewrite (growth_pct_change d0 p0 rest 0%nat d0 p0) by done.
  do 3 f_equal. field. done.
Qed.

Lemma szip_const_smap f g c (s : Series) :
  szip f (map (λ d, (d, c)) s.*1) (smap g s) = smap (λ r, f c (g r)) s.
Proof. induction s as [|[d r] s IH]; simpl; [done|]. by f_equal. Qed.

(** A portfolio of one ticker with data and a nonzero weight: the portfolio
    return series is the ticker's return series, weighted by
    [weight / sum([weight])] and added to the zero series. *)
Lemma single_asset_returns history ticker w start_date end_date prices :
  prices ≠ [] → NoDup prices.*1 → w ≠ 0 →
  history ticker start_date end_date = Returned (Close prices) →
  (get_portfolio_historical_data history [ticker] [w] start_date end_date).2
  = smap (λ r, fadd (Some 0) (fmul r (Some (w / (0 + w)))))
         (pct_change (close_series prices)).
Proof.
  intros Hp Hnd Hw Hh.
  unfold get_portfolio_historical_data, portfolio_historical_body.
  rewrite !bool_decide_eq_false_2 by done. cbn [orb zip zip_with].
  destruct (fetch_loop_single history start_date end_date ticker w prices)
    as (st & -> & Hvt & Hvw & Hcol & Hidx & Hne); [done..|].
  cbn [mbind outcome_bind]. rewrite Hne, Hvt, Hvw. cbn [orb].
  rewrite bool_decide_eq_false_2 by done.
  cbn [mapM py_sum foldl]. unfold py_div at 1.
  rewrite decide_False by lra.
  cbn [mbind outcome_bind mret outcome_ret zip zip_with weighted_sum_loop].
  rewrite Hcol, Hidx, <- pct_change_close_index. cbn [snd].
  apply szip_const_smap.
Qed.

(** C5, as the code has it.  When the close prices the series builder
    fetches are all nonzero, the value at a date where the portfolio return
    is a number is 100 times the product of (1 + return) over the numeric
    returns up to that date; the benchmark value series of a close series
    with nonzero prices has 100 at index 0 and 100 times the same product of
    its returns at every index; each value series is empty exactly when its
    return series is.  (A close of zero makes the next return infinite,
    which the idealised numbers do not represent.) *)
Theorem C5_value_series_is_scaled_growth
    (history : string → option string → option string → outcome History)
    (tickers : list string) (weights : list R) (benchmark : string)
    (start_date end_date : option string) :
  let pv := (get_portfolio_historical_data history tickers weights
               start_date end_date).1 in
  let pr := (get_portfolio_historical_data history tickers weights
               start_date end_date).2 in
  let bv := (get_benchmark_data history benchmark start_date end_date).1 in
  let br := (get_benchmark_data history benchmark start_date end_date).2 in
  ((∀ t prices, t ∈ tickers →
      history t start_date end_date = Returned (Close prices) →
      Forall (λ e, e.2 ≠ 0) prices) →
   ∀ i d r, pr !! i = Some (d, Some r) →
            pv !! i = Some (d, Some (100 * growth pr i)))
  ∧ (pv = [] ↔ pr = [])
  ∧ (bv = [] ↔ br = [])
  ∧ (∀ prices,
       benchmark ≠ "" → prices ≠ [] → Forall (λ e, e.2 ≠ 0) prices →
       history benchmark start_date end_date = Returned (Close prices) →
       (∃ d, bv !! 0%nat = Some (d, Some 100))
       ∧ ∀ i d p, prices !! i = Some (d, p) →
                  bv !! i = Some (d, Some (100 * growth br i))).
Proof.
  intros pv pr bv br. subst pv pr bv br.
  rewrite portfolio_value_of_returns. split_and!.
  - intros _ i d r. apply value_of_returns_number.
  - apply value_of_returns_nil.
  - unfold get_benchmark_data, benchmark_body.
    destruct (bool_decide _); [done|].
    destruct (history _ _ _) as [[|[|e prices]]|]; simpl; done.
  - intros prices Hb Hp Hnz Hh.
    by apply (benchmark_value_growth history benchmark start_date end_date prices).
Qed.

Lemma C5_witness :
  let pv := (get_portfolio_historical_data two_day_history ["AAPL"] [1]
               None None).1 in
  let pr := (get_portfolio_historical_data two_day_history ["AAPL"] [1]
               None None).2 in
  let bv := (get_benchmark_data two_day_history "^GSPC" None None).1 in
  pr !! 1%nat = Some (1%Z, Some (110 / 100 - 1))
  ∧ pv !! 1%nat = Some (1%Z, Some (100 * growth pr 1))
  ∧ ∃ d, bv !! 0%nat = Some (d, Some 100).
Proof.
  intros pv pr bv.
  assert (Forall (λ e : Z * R, e.2 ≠ 0) two_day_prices) as Hnz
    by (repeat constructor; simpl; lra).
  assert (pr !! 1%nat = Some (1%Z, Some (110 / 100 - 1))) as Hr.
  { subst pr.
    rewrite (single_asset_returns _ _ _ _ _ two_day_prices);
      [|done| |lra|done].
    2:{ simpl. repeat constructor; set_solver. }
    unfold pct_change, two_day_prices.
    cbn [close_series map smap pct_change_from fst snd lookup list_lookup].
    rewrite fdiv_Some by lra. cbn [fsub fmul fadd]. do 3 f_equal.
    replace (0 + 1) with 1 by lra. lra. }
  destruct (C5_value_series_is_scaled_growth two_day_history ["AAPL"] [1]
              "^GSPC" None None) as (Hp & _ & _ & Hb).
  split; [exact Hr|]. split.
  - eapply Hp; [|exact Hr].
    intros t prices _ [= <-]. exact Hnz.
  - by apply (Hb two_day_prices).
Defined.

(** C5 as stated fails: for the portfolio of one ticker with the closes
    100, 110 the value series is not empty and its entry at index 0 is not
    a number, hence not 100; and a benchmark whose first close is 0 has no
    100 at index 0 either. *)
Lemma C5_portfolio_value_at_0_not_100 :
  (let pv := (get_portfolio_historical_data two_day_history ["AAPL"] [1]
                None None).1 in
   pv !! 0%nat = Some (0%Z, NaN) ∧ ¬ ∃ d, pv !! 0%nat = Some (d, Some 100))
  ∧ (let bv := (get_benchmark_data zero_start_history "^GSPC" None None).1 in
     bv !! 0%nat = Some (0%Z, NaN) ∧ ¬ ∃ d, bv !! 0%nat = Some (d, Some 100)).
Proof.
  assert ((get_portfolio_historical_data two_day_history ["AAPL"] [1]
             None None).1 !! 0%nat = Some (0%Z, NaN)) as H0.
  { rewrite portfolio_value_of_returns.
    apply value_of_returns_NaN.
    rewrite (single_asset_returns _ _ _ _ _ two_day_prices); [done|done| |lra|done].
    simpl. repeat constructor; set_solver. }
  assert ((get_benchmark_data zero_start_history "^GSPC" None None).1 !! 0%nat
          = Some (0%Z, NaN)) as Hb.
  { rewrite (get_benchmark_data_close _ _ _ _ zero_start_prices) by done.
    cbn [fst zero_start_prices close_series map smap iloc0 snd lookup list_lookup].
    unfold fdiv. by rewrite decide_True. }
  split.
  - split; [exact H0|]. intros [d Hd]. rewrite H0 in Hd. discriminate.
  - split; [exact Hb|]. intros [d Hd]. rewrite Hb in Hd. discriminate.
Qed.

(** ** Performance metrics *)

Lemma valid_values (s : Series) : omap (λ x : fnum, x) s.*2 = valid s.
Proof.
  induction s as [|[d [x|]] s IH]; [done| |].
  - rewrite valid_cons_Some, <- IH. done.
  - rewrite valid_cons_NaN, <- IH. done.
Qed.

Lemma smin_fmin_list (s : Series) : smin s = fmin_list s.*2.
Proof. unfold smin, fmin_list. by rewrite valid_values. Qed.

Lemma running_max_NaN best : running_max best NaN = best.
Proof. by destruct best. Qed.

(** The drawdown series of the code, entry by entry. *)
Lemma drawdown_values_from acc best (s : Series) :
  omap (λ x : fnum, x)
    (smap (λ q, fsub q (Some 1))
       (szip fdiv (cumprod_from acc (smap (fadd (Some 1)) s))
          (expanding_max_from best (cumprod_from acc (smap (fadd (Some 1)) s))))).*2
  = omap (λ x : fnum, x) (drawdowns_from acc best (valid s)).
Proof.
  revert acc best. induction s as [|[d [x|]] s IH]; intros acc best; [done| |].
  - rewrite valid_cons_Some. cbn [smap map fadd fst snd cumprod_from
      expanding_max_from szip zip_with fmap list_fmap drawdowns_from].
    fold (smap (fadd (Some 1)) s).
    fold (szip fdiv (cumprod_from (acc * (1 + x)) (smap (fadd (Some 1)) s))
            (expanding_max_from (running_max best (Some (acc * (1 + x))))
               (cumprod_from (acc * (1 + x)) (smap (fadd (Some 1)) s)))).
    fold (smap (λ q, fsub q (Some 1))
            (szip fdiv (cumprod_from (acc * (1 + x)) (smap (fadd (Some 1)) s))
            (expanding_max_from (running_max best (Some (acc * (1 + x))))
               (cumprod_from (acc * (1 + x)) (smap (fadd (Some 1)) s))))).
    cbn [omap list_omap]. rewrite <- IH. done.
  - rewrite valid_cons_NaN. cbn [smap map fadd fst snd cumprod_from
      expanding_max_from szip zip_with fmap list_fmap].
    rewrite running_max_NaN.
    fold (smap (fadd (Some 1)) s).
    fold (szip fdiv (cumprod_from acc (smap (fadd (Some 1)) s))
            (expanding_max_from best (cumprod_from acc (smap (fadd (Some 1)) s)))).
    fold (smap (λ q, fsub q (Some 1))
            (szip fdiv (cumprod_from acc (smap (fadd (Some 1)) s))
            (expanding_max_from best (cumprod_from acc (smap (fadd (Some 1)) s))))).
    cbn [omap list_omap fdiv fsub]. apply IH.
Qed.

Lemma max_drawdown_drawdowns_from (returns : Series) :
  max_drawdown returns = fmin_list (drawdowns_from 1 NaN (valid returns)).
Proof.
  unfold max_drawdown. rewrite smin_fmin_list. unfold fmin_list, cumprod, expanding_max.
  by rewrite drawdown_values_from.
Qed.

Lemma cum_prod_app_l (pre v : list R) k :
  (k < length pre)%nat → cum_prod (pre ++ v) k = cum_prod pre k.
Proof. intros Hk. unfold cum_prod. rewrite take_app_le by lia. done. Qed.

Lemma prefix_max_app_l (pre v : list R) k :
  (k < length pre)%nat → prefix_max (pre ++ v) k = prefix_max pre k.
Proof.
  induction k as [|k IH]; intros Hk; simpl.
  - by apply cum_prod_app_l.
  - rewrite IH by lia. by rewrite cum_prod_app_l.
Qed.

Lemma cum_prod_snoc (pre : list R) x rest :
  cum_prod (pre ++ x :: rest) (length pre)
  = Rprod (map (λ r, 1 + r) pre) * (1 + x).
Proof.
  unfold cum_prod.
  replace (S (length pre)) with (length (pre ++ [x]))
    by (rewrite length_app; simpl; lia).
  rewrite (cons_middle x pre rest), app_assoc, take_app_length.
  rewrite map_app, Rprod_app. unfold Rprod; simpl. lra.
Qed.

Lemma running_max_reached (pre : list R) x rest :
  running_max (reached_best pre)
    (Some (Rprod (map (λ r, 1 + r) pre) * (1 + x)))
  = Some (prefix_max (pre ++ x :: rest) (length pre)).
Proof.
  unfold reached_best. destruct (length pre) as [|k] eqn:Hlen; simpl.
  - apply length_zero_iff_nil in Hlen as ->. unfold cum_prod, Rprod. simpl.
    f_equal. lra.
  - rewrite prefix_max_app_l by lia. rewrite <- Hlen, cum_prod_snoc. done.
Qed.

(** Met one after the other or computed index by index, the drawdowns are
    the same. *)
Lemma drawdowns_from_indexwise (v pre : list R) :
  drawdowns_from (Rprod (map (λ r, 1 + r) pre)) (reached_best pre) v
  = map (drawdown (pre ++ v)) (seq (length pre) (length v)).
Proof.
  revert pre. induction v as [|x rest IH]; intros pre; [done|].
  cbn [drawdowns_from length seq map]. f_equal.
  - unfold drawdown. by rewrite (running_max_reached pre x rest), cum_prod_snoc.
  - rewrite (running_max_reached pre x rest).
    specialize (IH (pre ++ [x])).
    rewrite map_app, Rprod_app, length_app, <- app_assoc in IH.
    replace (length pre + length [x])%nat with (S (length pre)) in IH
      by (simpl; lia).
    cbn [app] in IH. rewrite <- IH. f_equal.
    + unfold Rprod; simpl. lra.
    + unfold reached_best. rewrite length_app. simpl.
      replace (length pre + 1)%nat with (S (length pre)) by lia.
      f_equal. replace (pre ++ x :: rest) with ((pre ++ [x]) ++ rest)
        by (by rewrite <- app_assoc).
      apply prefix_max_app_l. rewrite length_app. simpl. lia.
Qed.

Lemma max_drawdown_min_drawdown (returns : Series) :
  max_drawdown returns = min_drawdown (valid returns).
Proof.
  rewrite max_drawdown_drawdowns_from. unfold min_drawdown.
  exact (f_equal fmin_list (drawdowns_from_indexwise (valid returns) [])).
Qed.

(** The entries of the dict [calculate_metrics] returns. *)
Ltac metrics_lookup :=
  repeat (rewrite lookup_insert_ne by done); rewrite lookup_insert_eq.

Lemma calculate_metrics_base (returns : Series) benchmark_returns :
  returns ≠ [] →
  let m := calculate_metrics returns benchmark_returns in
  m !! "annualized_return" = Some (annualized_return returns)
  ∧ m !! "annualized_volatility" = Some (fmul (std returns) (Some (sqrt 252)))
  ∧ m !! "sharpe_ratio" = Some (sharpe_ratio returns)
  ∧ m !! "max_drawdown" = Some (max_drawdown returns).
Proof.
  intros Hr m. subst m. unfold calculate_metrics.
  destruct returns as [|e returns]; [done|]. cbn [empty].
  destruct benchmark_returns as [b|]; [destruct (negb (empty b));
    [destruct (fnonzero (var b))|]|];
    split_and!; by metrics_lookup.
Qed.

Lemma fnonzero_false x : fnonzero x = false ↔ x = Some 0.
Proof.
  destruct x as [a|]; simpl; [|done].
  rewrite bool_decide_eq_false. split.
  - intros H. f_equal. by destruct (decide (a = 0)).
  - intros [= ->] H. done.
Qed.

Lemma fnonzero_true x : fnonzero x = true ↔ x ≠ Some 0.
Proof.
  rewrite <- fnonzero_false. by destruct (fnonzero x).
Qed.

Lemma calculate_metrics_benchmark (returns b : Series) :
  returns ≠ [] → b ≠ [] →
  let m := calculate_metrics returns (Some b) in
  (var b = Some 0 → m !! "beta" = Some (Some 1) ∧ m !! "alpha" = Some (Some 0))
  ∧ (var b ≠ Some 0 →
     m !! "beta" = Some (fdiv (cov returns b) (var b))
     ∧ m !! "alpha"
       = Some (fsub (fsub (annualized_return returns) (Some 0.02))
                 (fmul (fdiv (cov returns b) (var b))
                    (fsub (fsub (fpow (fadd (Some 1) (mean b)) 252) (Some 1))
                          (Some 0.02))))).
Proof.
  intros Hr Hb m. subst m. unfold calculate_metrics.
  destruct returns as [|e returns]; [done|].
  destruct b as [|eb b]; [done|]. cbn [empty negb].
  split.
  - intros Hv%fnonzero_false. rewrite Hv. split; by metrics_lookup.
  - intros Hv%fnonzero_true. rewrite Hv. split; by metrics_lookup.
Qed.

Lemma mean_numbers (s : Series) :
  valid s ≠ [] → mean s = Some (list_mean (valid s)).
Proof. unfold mean. by destruct (valid s). Qed.

Lemma sample_cov_numbers (p : list (R * R)) :
  (2 ≤ length p)%nat → sample_cov p = Some (sample_covariance p).
Proof. destruct p as [|? [|? ?]]; simpl; (lia || done). Qed.

Lemma var_numbers (s : Series) :
  (2 ≤ length (valid s))%nat → var s = Some (sample_variance (valid s)).
Proof.
  intros Hlen. unfold var. rewrite sample_cov_numbers by (by rewrite length_map).
  unfold sample_covariance, sample_variance. rewrite length_map.
  assert (∀ v : list R, (map (λ x : R, (x, x)) v).*1 = v) as ->
    by (intros v; induction v as [|? ? IHv]; simpl; [done|by f_equal]).
  assert (∀ v : list R, (map (λ x : R, (x, x)) v).*2 = v) as ->
    by (intros v; induction v as [|? ? IHv]; simpl; [done|by f_equal]).
  by rewrite map_map.
Qed.

Lemma std_numbers (s : Series) :
  (2 ≤ length (valid s))%nat → std s = Some (sample_stddev (valid s)).
Proof. intros Hlen. unfold std. by rewrite var_numbers. Qed.

Lemma cov_numbers (s1 s2 : Series) :
  (2 ≤ length (joined_pairs s1 s2))%nat →
  cov s1 s2 = Some (sample_covariance (joined_pairs s1 s2)).
Proof. apply sample_cov_numbers. Qed.

Lemma valid_smap_sub c (s : Series) :
  valid (smap (λ r, fsub r (Some c)) s) = map (λ r, r - c) (valid s).
Proof.
  induction s as [|[d [x|]] s IH]; simpl; [done| |done].
  rewrite !valid_cons_Some. simpl. by f_equal.
Qed.

(** The drawdown scenario: cumulative products 1.01, 0.9898, 1.019494, and
    the minimum drawdown at the second day. *)
Lemma scenario_max_drawdown :
  max_drawdown scenario_returns = Some (0.9898 / 1.01 - 1).
Proof.
  rewrite max_drawdown_drawdowns_from.
  change (valid scenario_returns) with [0.01; -0.02; 0.03].
  cbn [drawdowns_from running_max].
  replace (1 * (1 + 0.01)) with 1.01 by lra.
  replace (1.01 * (1 + -0.02)) with 0.9898 by lra.
  replace (0.9898 * (1 + 0.03)) with 1.019494 by lra.
  rewrite (Rmax_left 1.01 0.9898) by lra.
  rewrite (Rmax_right 1.01 1.019494) by lra.
  rewrite !fdiv_Some by lra.
  cbn [fsub fmin_list omap list_omap foldl].
  f_equal. rewrite (Rmin_right (1.01 / 1.01 - 1)) by lra.
  rewrite Rmin_left by lra. lra.
Qed.

Lemma var_Some_valid (s : Series) x : var s = Some x → valid s ≠ [].
Proof. unfold var. by destruct (valid s). Qed.

(** C2.  On a non-empty return series the calculator stores
    annualized_return = (1 + mean)^252 - 1, annualized_volatility = sample
    standard deviation times sqrt(252), and max_drawdown = the minimum over
    i of cumProd[i] / (maximum of cumProd over 0..i) - 1, cumProd being the
    cumulative product of 1 + return; on the returns 0.01, -0.02, 0.03 the
    maximum drawdown is 0.9898/1.01 - 1, that is -0.02. *)
Theorem C2_metrics_formulas (returns : Series) (benchmark_returns : option Series) :
  returns ≠ [] →
  let m := calculate_metrics returns benchmark_returns in
  let v := valid returns in
  m !! "annualized_return"
    = Some (fsub (fpow (fadd (Some 1) (mean returns)) 252) (Some 1))
  ∧ m !! "annualized_volatility" = Some (fmul (std returns) (Some (sqrt 252)))
  ∧ m !! "max_drawdown" = Some (min_drawdown v)
  ∧ (v ≠ [] →
     m !! "annualized_return" = Some (Some ((1 + list_mean v) ^ 252 - 1)))
  ∧ ((2 ≤ length v)%nat →
     m !! "annualized_volatility" = Some (Some (sample_stddev v * sqrt 252)))
  ∧ (∀ i, prefix_max v i ≠ 0 →
          drawdown v i = Some (cum_prod v i / prefix_max v i - 1))
  ∧ calculate_metrics scenario_returns benchmark_returns !! "max_drawdown"
    = Some (Some (0.9898 / 1.01 - 1))
  ∧ 0.9898 / 1.01 - 1 = -0.02.
Proof.
  intros Hr m v.
  destruct (calculate_metrics_base returns benchmark_returns Hr)
    as (Har & Hvol & _ & Hdd).
  fold m in Har, Hvol, Hdd. split_and!.
  - exact Har.
  - exact Hvol.
  - rewrite Hdd. by rewrite max_drawdown_min_drawdown.
  - intros Hv. rewrite Har. unfold annualized_return.
    by rewrite mean_numbers.
  - intros Hv. rewrite Hvol. by rewrite std_numbers.
  - intros i Hi. unfold drawdown. by rewrite fdiv_Some.
  - destruct (calculate_metrics_base scenario_returns benchmark_returns)
      as (_ & _ & _ & ->); [done|].
    by rewrite scenario_max_drawdown.
  - lra.
Qed.

Lemma C2_witness :
  scenario_returns ≠ []
  ∧ calculate_metrics scenario_returns None !! "max_drawdown"
    = Some (min_drawdown [0.01; -0.02; 0.03]).
Proof.
  assert (scenario_returns ≠ []) as Hr by done.
  split; [exact Hr|].
  apply (C2_metrics_formulas scenario_returns None Hr).
Defined.

Lemma sharpe_ratio_nonzero_std (returns : Series) :
  std returns ≠ Some 0 →
  sharpe_ratio returns
  = fdiv (fmul (Some (sqrt 252))
            (mean (smap (λ r, fsub r (Some (0.02 / 252))) returns)))
         (std returns).
Proof. intros Hs%fnonzero_true. unfold sharpe_ratio. by rewrite Hs. Qed.

(** *** The guards of the calculator, decided on the computed floats *)

(** The sample variance and the sample standard deviation of three equal
    observations are zero. *)
Lemma three_equal_observations (x : R) :
  var [(0%Z, Some x); (1%Z, Some x); (2%Z, Some x)] = Some 0
  ∧ std [(0%Z, Some x); (1%Z, Some x); (2%Z, Some x)] = Some 0.
Proof.
  assert (var [(0%Z, Some x); (1%Z, Some x); (2%Z, Some x)] = Some 0) as Hv.
  { rewrite var_numbers by (simpl; lia). f_equal.
    change (valid [(0%Z, Some x); (1%Z, Some x); (2%Z, Some x)]) with [x; x; x].
    unfold sample_variance, list_mean, py_sum. simpl. field. }
  split; [exact Hv|]. unfold std. rewrite Hv. simpl. by rewrite sqrt_0.
Qed.

Section BinaryGuards.

Import PrimFloat.

(** Two floats that [==] tells apart are different. *)
Lemma float_neq (x y : PrimFloat.float) :
  PrimFloat.eqb x y = false → PrimFloat.is_nan x = false → x ≠ y.
Proof.
  intros Hne Hx ->. unfold PrimFloat.is_nan in Hx.
  rewrite Hne in Hx. discriminate.
Qed.

Lemma float_calculate_metrics_base (L : Binary64.Library)
    (returns : Binary64.FSeries) benchmark_returns :
  returns ≠ [] →
  let m := Binary64.calculate_metrics L returns benchmark_returns in
  m !! "annualized_return" = Some (Binary64.annualized_return L returns)
  ∧ m !! "sharpe_ratio" = Some (Binary64.sharpe_ratio L returns).
Proof.
  intros Hr m. subst m. unfold Binary64.calculate_metrics.
  destruct returns as [|e returns]; [done|]. cbn [Binary64.empty].
  destruct benchmark_returns as [b|]; [destruct (negb (Binary64.empty b));
    [destruct (Binary64.nonzero (Binary64.var L b))|]|];
    split_and!; by metrics_lookup.
Qed.

(** C3, as the code has it.  With a non-empty return series and a non-empty
    benchmark series, on binary64 numbers and for every implementation of
    the library reductions: when the variance that
    [benchmark_returns.var()] computes compares equal to zero the result has
    beta = 1 and alpha = 0; otherwise (a computed variance that is not a
    number included) beta is the computed covariance over the computed
    variance and alpha = (annualized_return - 0.02) - beta * ((1 +
    mean(benchmark)) ** 252 - 1 - 0.02).  The calculator returns its dict in
    both cases. *)
Theorem C3_beta_alpha (L : Binary64.Library) (returns b : Binary64.FSeries) :
  returns ≠ [] → b ≠ [] →
  let m := Binary64.calculate_metrics L returns (Some b) in
  let variance := Binary64.var L b in
  let beta := (Binary64.cov L returns b / variance)%float in
  let annualized_return :=
    (Binary64.power252 L (1 + Binary64.mean L returns)%float - 1)%float in
  m !! "annualized_return" = Some annualized_return
  ∧ (PrimFloat.eqb variance 0 = true →
     m !! "beta" = Some 1%float ∧ m !! "alpha" = Some 0%float)
  ∧ (PrimFloat.eqb variance 0 = false →
     m !! "beta" = Some beta
     ∧ m !! "alpha"
       = Some ((annualized_return - 0.02)
               - beta * (Binary64.power252 L (1 + Binary64.mean L b)%float
                         - 1 - 0.02))%float).
Proof.
  intros Hr Hb m variance beta annualized_return.
  split; [by apply float_calculate_metrics_base|].
  subst m. unfold Binary64.calculate_metrics.
  destruct returns as [|e returns]; [done|]. cbn [Binary64.empty].
  destruct b as [|eb b]; [done|]. cbn [Binary64.empty negb].
  fold variance. unfold Binary64.nonzero. split.
  - intros ->. cbn [negb]. split; by metrics_lookup.
  - intros ->. cbn [negb]. split; by metrics_lookup.
Qed.

Lemma C3_witness :
  PrimFloat.eqb (Binary64.var Binary64.short_series Binary64.two_equal) 0 = true
  ∧ Binary64.calculate_metrics Binary64.short_series Binary64.centred
      (Some Binary64.two_equal) !! "beta" = Some 1%float
  ∧ Binary64.calculate_metrics Binary64.short_series Binary64.centred
      (Some Binary64.two_equal) !! "alpha" = Some 0%float.
Proof.
  assert (PrimFloat.eqb (Binary64.var Binary64.short_series Binary64.two_equal) 0
          = true) as Hzero by (vm_compute; reflexivity).
  split; [exact Hzero|].
  destruct (C3_beta_alpha Binary64.short_series Binary64.centred
              Binary64.two_equal) as (_ & Hfallback & _); [done|done|].
  exact (Hfallback Hzero).
Defined.

(** C3 as stated fails.  The benchmark returns 0.1, 0.1, 0.1 are three
    equal observations, of sample variance zero; the variance pandas
    computes for them is 1.5 * 2^-112 (about 2.9e-34), because the computed
    mean 0.10000000000000002 is not 0.1.  The calculator then divides: with
    the returns -1/64, 0, 1/64 it stores beta = 0 and alpha = -0.02, not
    beta = 1 and alpha = 0. *)
Lemma C3_equal_benchmark_returns_beta_not_1 :
  (∀ x : R, var [(0%Z, Some x); (1%Z, Some x); (2%Z, Some x)] = Some 0)
  ∧ Binary64.mean Binary64.short_series Binary64.three_equal
    = 0.10000000000000002%float
  ∧ Binary64.var Binary64.short_series Binary64.three_equal
    = 0x1.8p-112%float
  ∧ (let m := Binary64.calculate_metrics Binary64.short_series
                Binary64.centred (Some Binary64.three_equal) in
     m !! "beta" = Some 0%float ∧ m !! "alpha" = Some (-0.02)%float
     ∧ m !! "beta" ≠ Some 1%float ∧ m !! "alpha" ≠ Some 0%float).
Proof.
  split; [intros x; apply three_equal_observations|].
  split; [vm_compute; reflexivity|]. split; [vm_compute; reflexivity|].
  intros m.
  assert (m !! "beta" = Some 0%float) as Hbeta by (vm_compute; reflexivity).
  assert (m !! "alpha" = Some (-0.02)%float) as Halpha
    by (vm_compute; reflexivity).
  split_and!; [exact Hbeta|exact Halpha|..].
  - rewrite Hbeta. intros Heq.
    apply (float_neq 0 1); [reflexivity | reflexivity | congruence].
  - rewrite Halpha. intros Heq.
    apply (float_neq (-0.02) 0); [reflexivity | reflexivity | congruence].
Qed.

(** C4, as the code has it.  On a non-empty return series, on binary64
    numbers and for every implementation of the library reductions: when
    the standard deviation that [returns.std()] computes compares equal to
    zero the calculator stores sharpe_ratio = 0; otherwise (a computed
    standard deviation that is not a number included) it stores sqrt(252) *
    mean(returns - 0.02/252) / std(returns).  The calculator returns its
    dict in both cases. *)
Theorem C4_sharpe_ratio (L : Binary64.Library) (returns : Binary64.FSeries)
    (benchmark_returns : option Binary64.FSeries) :
  returns ≠ [] →
  let m := Binary64.calculate_metrics L returns benchmark_returns in
  let sd := Binary64.std L returns in
  let excess_returns :=
    Binary64.smap (λ r, r - 0.02 / 252)%float returns in
  (PrimFloat.eqb sd 0 = true → m !! "sharpe_ratio" = Some 0%float)
  ∧ (PrimFloat.eqb sd 0 = false →
     m !! "sharpe_ratio"
     = Some (PrimFloat.sqrt 252 * Binary64.mean L excess_returns / sd)%float).
Proof.
  intros Hr m sd excess_returns.
  destruct (float_calculate_metrics_base L returns benchmark_returns Hr)
    as [_ Hsh].
  fold m in Hsh. rewrite Hsh. unfold Binary64.sharpe_ratio, Binary64.nonzero.
  fold sd. split; by intros ->.
Qed.

Lemma C4_witness :
  PrimFloat.eqb (Binary64.std Binary64.short_series Binary64.two_equal) 0 = true
  ∧ Binary64.calculate_metrics Binary64.short_series Binary64.two_equal None
      !! "sharpe_ratio" = Some 0%float.
Proof.
  assert (PrimFloat.eqb (Binary64.std Binary64.short_series Binary64.two_equal) 0
          = true) as Hzero by (vm_compute; reflexivity).
  split; [exact Hzero|].
  destruct (C4_sharpe_ratio Binary64.short_series Binary64.two_equal None)
    as [Hguard _]; [done|].
  exact (Hguard Hzero).
Defined.

(** C4 as stated fails.  The returns 0.1, 0.1, 0.1 are three equal
    observations, of sample standard deviation zero; the standard deviation
    pandas computes for them is about 1.7e-17, and the calculator divides by
    it: sharpe_ratio is about 9.33e16, not 0. *)
Lemma C4_equal_returns_sharpe_not_0 :
  (∀ x : R, std [(0%Z, Some x); (1%Z, Some x); (2%Z, Some x)] = Some 0)
  ∧ Binary64.std Binary64.short_series Binary64.three_equal
    = 1.6996749443881478e-17%float
  ∧ (let m := Binary64.calculate_metrics Binary64.short_series
                Binary64.three_equal None in
     m !! "sharpe_ratio" = Some 93323191607855184%float
     ∧ m !! "sharpe_ratio" ≠ Some 0%float).
Proof.
  split; [intros x; apply three_equal_observations|].
  split; [vm_compute; reflexivity|].
  intros m.
  assert (m !! "sharpe_ratio" = Some 93323191607855184%float) as Hsh
    by (vm_compute; reflexivity).
  split; [exact Hsh|].
  rewrite Hsh. intros Heq.
  apply (float_neq 93323191607855184 0); [reflexivity | reflexivity | congruence].
Qed.

End BinaryGuards.

(** ** The first date of a return series *)

(** C6 at the closes 100, 110 and at the single close 100.  The claim has
    the first date, which has no return, dropped from the return series.
    The return series of the benchmark builder, and the column the series
    builder stores for a constituent, still carry that date, with a return
    that is not a number; on a single close the portfolio return series is
    therefore not empty, and the calculator stores metrics that are not
    numbers. *)
Theorem C6_first_date_kept_with_NaN :
  (get_benchmark_data two_day_history "^GSPC" None None).2
    = [(0%Z, NaN); (1%Z, Some (110 / 100 - 1))]
  ∧ ¬ first_date_dropped two_day_prices
        (get_benchmark_data two_day_history "^GSPC" None None).2
  ∧ (∃ st, fetch_loop two_day_history None None [("AAPL", 1)]
             (mkFetched df_new df_new [] []) = Returned st
           ∧ ∃ col, df_getitem (Core.returns st) "AAPL" = Some col
                    ∧ ¬ first_date_dropped two_day_prices col)
  ∧ (get_portfolio_historical_data one_day_history ["AAPL"] [1] None None).2
    = [(0%Z, NaN)]
  ∧ calculate_metrics [(0%Z, NaN)] None !! "annualized_return" = Some NaN
  ∧ calculate_metrics [(0%Z, NaN)] None !! "max_drawdown" = Some NaN.
Proof.
  assert (pct_change (close_series two_day_prices)
          = [(0%Z, NaN); (1%Z, Some (110 / 100 - 1))]) as Hret.
  { unfold pct_change, two_day_prices. cbn [close_series map pct_change_from fst snd].
    rewrite fdiv_Some by lra. done. }
  assert (¬ first_date_dropped two_day_prices
              (pct_change (close_series two_day_prices))) as Hkept.
  { unfold first_date_dropped. rewrite pct_change_close_index. simpl. congruence. }
  split_and!.
  - by rewrite (get_benchmark_data_close _ _ _ _ two_day_prices).
  - by rewrite (get_benchmark_data_close _ _ _ _ two_day_prices).
  - destruct (fetch_loop_single two_day_history None None "AAPL" 1 two_day_prices)
      as (st & Hst & _ & _ & Hcol & _); [done| |done|].
    { simpl. repeat constructor; set_solver. }
    exists st. split; [done|]. eexists. split; [exact Hcol | exact Hkept].
  - rewrite (single_asset_returns _ _ _ _ _ one_day_prices); [done|done| |lra|done].
    simpl. repeat constructor; set_solver.
  - destruct (calculate_metrics_base [(0%Z, NaN)] None) as (-> & _); done.
  - destruct (calculate_metrics_base [(0%Z, NaN)] None) as (_ & _ & _ & ->); done.
Qed.

(** ** The portfolio aggregator *)

(** *** Exposure dictionaries *)

Lemma exposure_total_empty : exposure_total ∅ = 0.
Proof. unfold exposure_total. by rewrite map_fold_empty. Qed.

Lemma exposure_total_insert_fresh (e : gmap string R) k w :
  e !! k = None → exposure_total (<[k := w]> e) = w + exposure_total e.
Proof.
  intros Hk. unfold exposure_total.
  rewrite map_fold_insert_L; [done| |done].
  intros; lra.
Qed.

Lemma exposure_total_add (e : gmap string R) k w :
  exposure_total (add_exposure e k w) = exposure_total e + w.
Proof.
  unfold add_exposure, dict_get. destruct (e !! k) as [old|] eqn:Hk.
  - rewrite <- (insert_delete_id e k old) at 2 by done.
    rewrite <- insert_delete_eq.
    rewrite !exposure_total_insert_fresh by apply lookup_delete_eq. lra.
  - rewrite exposure_total_insert_fresh by done. lra.
Qed.

(** *** The second loop *)

Section AggregatorFacts.

Variable history : string → option string → option string → outcome History.
Variable quote : string → option Quote.

(** A record of [get_stock_data] carries its ticker and the four scores. *)
Lemma get_stock_data_record t data :
  get_stock_data quote t = Some data →
  ticker data = t
  ∧ ∃ total env soc gov,
      scores data = <["esg_score" := total]>
                    (<["environmental_score" := env]>
                    (<["social_score" := soc]>
                    (<["governance_score" := gov]> ∅))).
Proof.
  unfold get_stock_data. destruct (quote t) as [q|]; [|done].
  destruct (q_sustainability q) as [[[[total env] soc] gov]|];
    intros [= <-]; (split; [done|]); simpl; eauto 10.
Qed.

Lemma accumulate_run t data wn m :
  get_stock_data quote t = Some data →
  accumulate data wn m = (Returned (), accumulated data wn m).
Proof.
  intros (_ & total & env & soc & gov & Hs)%get_stock_data_record.
  unfold accumulate, accumulated, dict_getitem, dict_get. rewrite Hs.
  repeat (rewrite lookup_insert_ne by done). rewrite !lookup_insert_eq.
  cbn. by destruct (bool_decide (sector data ≠ "N/A")),
            (bool_decide (country data ≠ "N/A")).
Qed.

Lemma esg_step_nonzero total_weight item m :
  total_weight ≠ 0 →
  esg_step quote total_weight item m
  = (Returned (), esg_item quote total_weight m item).
Proof.
  intros HW. unfold esg_step, esg_item.
  destruct (get_stock_data quote item.1) as [data|] eqn:Hd; [|done].
  unfold py_div. rewrite decide_False by done.
  apply (accumulate_run item.1 data _ m Hd).
Qed.

Lemma esg_step_zero item m : (esg_step quote 0 item m).2 = m.
Proof.
  unfold esg_step. destruct (get_stock_data quote item.1) as [data|]; [|done].
  unfold py_div. by rewrite decide_True.
Qed.

Lemma esg_step_zero_raises item m data :
  get_stock_data quote item.1 = Some data →
  esg_step quote 0 item m = (Raised ZeroDivisionError, m).
Proof.
  intros Hd. unfold esg_step. rewrite Hd.
  unfold py_div. by rewrite decide_True.
Qed.

Lemma for_each_cons {A} (step : A → Body unit) x rest m :
  for_each step (x :: rest) m
  = match step x m with
    | (Returned _, m') => for_each step rest m'
    | (Raised e, m') => (Raised e, m')
    end.
Proof. done. Qed.

Lemma for_each_esg_nonzero total_weight portfolio m :
  total_weight ≠ 0 →
  for_each (esg_step quote total_weight) portfolio m
  = (Returned (), foldl (esg_item quote total_weight) m portfolio).
Proof.
  intros HW. revert m.
  induction portfolio as [|item rest IH]; intros m; [done|].
  rewrite for_each_cons, esg_step_nonzero by done. apply IH.
Qed.

Lemma for_each_esg_zero portfolio m :
  (for_each (esg_step quote 0) portfolio m).2 = m.
Proof.
  revert m. induction portfolio as [|item rest IH]; intros m; [done|].
  rewrite for_each_cons.
  pose proof (esg_step_zero item m) as Hs.
  destruct (esg_step quote 0 item m) as [[[]|e] m']; simpl in Hs; subst m'.
  - apply IH.
  - done.
Qed.

Lemma esg_and_exposures_nonzero portfolio m :
  py_sum (resolved_weights quote portfolio) ≠ 0 →
  esg_and_exposures quote portfolio m
  = (Returned (),
     foldl (esg_item quote (py_sum (resolved_weights quote portfolio))) m portfolio).
Proof.
  intros HW. unfold esg_and_exposures. fold (resolved_weights quote portfolio).
  destruct (resolved_weights quote portfolio) as [|w ws] eqn:Hrw.
  - by destruct HW.
  - by apply for_each_esg_nonzero.
Qed.

Lemma esg_and_exposures_zero portfolio m :
  py_sum (resolved_weights quote portfolio) = 0 →
  (esg_and_exposures quote portfolio m).2 = m.
Proof.
  intros HW. unfold esg_and_exposures. fold (resolved_weights quote portfolio).
  destruct (resolved_weights quote portfolio) as [|w ws] eqn:Hrw; [done|].
  rewrite HW. apply for_each_esg_zero.
Qed.

End AggregatorFacts.

(** *** The working portfolio *)

Section WorkingPortfolio.

Variable quote : string → option Quote.

Lemma weights_getitem_elem (portfolio : list (string * R)) t :
  t ∈ portfolio.*1 →
  ∃ w, weights_getitem portfolio t = Returned w ∧ (t, w) ∈ portfolio.
Proof.
  intros Hin. unfold weights_getitem.
  destruct (list_find (λ kv, kv.1 = t) portfolio) as [[i [t' w]]|] eqn:Hf.
  - apply list_find_Some in Hf as (Hi & Ht & _). simpl in Ht. subst t'.
    exists w. split; [done|]. by eapply list_elem_of_lookup_2.
  - apply list_find_None in Hf. apply list_elem_of_fmap in Hin as ([t' w] & -> & Hin).
    rewrite Forall_forall in Hf. by destruct (Hf _ Hin).
Qed.

Lemma filtered_portfolio_returns (portfolio : list (string * R)) stocks :
  Forall (λ s, ticker s ∈ portfolio.*1) stocks →
  ∃ P', filtered_portfolio portfolio stocks = Returned P'
        ∧ Forall (λ kv, kv ∈ portfolio) P'
        ∧ P'.*1 = ticker <$> stocks.
Proof.
  induction 1 as [|s stocks Hs _ (P' & HP' & Hall & Hkeys)].
  - exists []. by split.
  - destruct (weights_getitem_elem portfolio (ticker s) Hs) as (w & Hw & Hin).
    exists ((ticker s, w) :: P'). unfold filtered_portfolio in *. simpl.
    rewrite Hw. simpl. rewrite HP'. simpl. split; [done|].
    split; [by constructor | cbn; by f_equal].
Qed.

Lemma stocks_data_tickers (keys : list string) :
  Forall (λ s, ticker s ∈ keys) (omap (get_stock_data quote) keys).
Proof.
  induction keys as [|t keys IH]; simpl; [constructor|].
  destruct (get_stock_data quote t) as [data|] eqn:Hd.
  - constructor.
    + apply get_stock_data_record in Hd as [-> _]. apply list_elem_of_here.
    + eapply Forall_impl; [exact IH|]. intros s Hs. by apply list_elem_of_further.
  - eapply Forall_impl; [exact IH|]. intros s Hs. by apply list_elem_of_further.
Qed.

(** The working portfolio is always defined, and made of entries of the
    portfolio: the lookups of the dict comprehension cannot fail. *)
Lemma working_portfolio_returns (portfolio : list (string * R)) preference :
  ∃ P', working_portfolio quote portfolio preference = Returned P'
        ∧ Forall (λ kv, kv ∈ portfolio) P'
        ∧ (truthy preference = false → P' = portfolio)
        ∧ (truthy preference = true →
           ∃ name, preference = Some name
             ∧ P'.*1 = ticker <$> filter_stocks_by_preference
                                     (omap (get_stock_data quote) portfolio.*1) name).
Proof.
  unfold working_portfolio.
  destruct preference as [name|]; cbn [truthy].
  - destruct (negb (bool_decide (name = ""))) eqn:Hname.
    + destruct (filtered_portfolio_returns portfolio
                  (filter_stocks_by_preference
                     (omap (get_stock_data quote) portfolio.*1) name))
        as (P' & HP' & Hall & Hkeys).
      { rewrite filter_stocks_eligible. apply Forall_forall.
        intros s [_ Hs]%list_elem_of_filter.
        pose proof (stocks_data_tickers portfolio.*1) as Hall.
        rewrite Forall_forall in Hall. by apply Hall. }
      exists P'. split_and!; [done|done|done|]. intros _. by exists name.
    + exists portfolio. split_and!; [done| |done|done].
      by apply Forall_forall.
  - exists portfolio. split_and!; [done| |done|done]. by apply Forall_forall.
Qed.

End WorkingPortfolio.

(** *** The whole body *)

Section WholeBody.

Variable history : string → option string → option string → outcome History.
Variable quote : string → option Quote.

(** The body, once the working portfolio is known: the performance step
    may replace [performance_metrics], then the second loop runs. *)
Lemma portfolio_metrics_body_run portfolio start_date end_date benchmark
    preference P' m :
  working_portfolio quote portfolio preference = Returned P' →
  ∃ perf,
    (perf = performance_metrics m
     ∨ ∃ bench, perf = calculate_metrics
                  (get_portfolio_historical_data history P'.*1 P'.*2
                     start_date end_date).2 bench)
    ∧ ((get_portfolio_historical_data history P'.*1 P'.*2
          start_date end_date).2 = [] → perf = performance_metrics m)
    ∧ portfolio_metrics_body history quote portfolio start_date end_date
        benchmark preference m
      = esg_and_exposures quote P'
          (mkPortfolioMetrics (volatility m) (esg_score m)
             (environmental_score m) (social_score m) (governance_score m)
             (sector_exposure m) (country_exposure m) perf).
Proof.
  intros HP'. unfold portfolio_metrics_body.
  unfold mbind at 1, Body_bind at 1, lift at 1. rewrite HP'.
  destruct (get_portfolio_historical_data history P'.*1 P'.*2 start_date end_date)
    as [pv pr]. cbn [snd].
  destruct pr as [|e pr]; cbn [empty negb].
  - exists (performance_metrics m). split; [by left|]. split; [done|].
    by destruct m.
  - eexists. split; [right; eexists; reflexivity|]. split; [done|]. done.
Qed.

Lemma calculate_portfolio_metrics_run portfolio start_date end_date benchmark
    preference P' :
  working_portfolio quote portfolio preference = Returned P' →
  ∃ perf,
    ((get_portfolio_historical_data history P'.*1 P'.*2
        start_date end_date).2 = [] → perf = ∅)
    ∧ calculate_portfolio_metrics history quote portfolio start_date end_date
        benchmark preference
      = (esg_and_exposures quote P' (mkPortfolioMetrics 0 0 0 0 0 ∅ ∅ perf)).2.
Proof.
  intros HP'. unfold calculate_portfolio_metrics.
  destruct portfolio as [|item portfolio].
  - exists ∅. split; [done|].
    destruct (working_portfolio_returns quote [] preference)
      as (P'' & HP'' & Hall & _).
    rewrite HP' in HP''. injection HP'' as <-.
    destruct P' as [|kv P']; [done|].
    apply Forall_cons in Hall as [Hin _]. by apply elem_of_nil in Hin.
  - destruct (portfolio_metrics_body_run (item :: portfolio) start_date end_date
                benchmark preference P' initial_metrics HP')
      as (perf & _ & Hempty & ->).
    by exists perf.
Qed.

End WholeBody.

(** *** What the second loop adds up *)

Section Sums.

Variable quote : string → option Quote.
Variable total_weight : R.

Lemma foldl_Rplus_shift a (l : list R) : foldl Rplus a l = a + py_sum l.
Proof.
  unfold py_sum. revert a. induction l as [|x l IH]; intros a; simpl; [lra|].
  rewrite (IH (a + x)), (IH (0 + x)). lra.
Qed.

Lemma py_sum_div (l : list R) c : py_sum (map (λ w, w / c) l) = py_sum l / c.
Proof.
  unfold py_sum. rewrite <- (Rplus_0_r (foldl Rplus 0 l / c)).
  replace (0 + 0) with 0 by lra.
  assert (∀ a, foldl Rplus (a / c) (map (λ w, w / c) l) = foldl Rplus a l / c) as H.
  { induction l as [|x l IH]; intros a; simpl; [done|].
    rewrite <- IH. f_equal. unfold Rdiv. lra. }
  rewrite <- H. rewrite Rplus_0_r. f_equal. unfold Rdiv. lra.
Qed.

Lemma esg_item_fixed m item :
  volatility (esg_item quote total_weight m item) = volatility m
  ∧ performance_metrics (esg_item quote total_weight m item)
    = performance_metrics m.
Proof. unfold esg_item. by destruct (get_stock_data quote item.1). Qed.

Lemma foldl_esg_item_fixed m portfolio :
  volatility (foldl (esg_item quote total_weight) m portfolio) = volatility m
  ∧ performance_metrics (foldl (esg_item quote total_weight) m portfolio)
    = performance_metrics m.
Proof.
  revert m. induction portfolio as [|item rest IH]; intros m; [done|].
  simpl. destruct (IH (esg_item quote total_weight m item)) as [-> ->].
  apply esg_item_fixed.
Qed.

(** Each score entry grows by the contributions of the assets, in
    portfolio order. *)
Lemma foldl_esg_item_scores m portfolio :
  let m' := foldl (esg_item quote total_weight) m portfolio in
  esg_score m'
    = foldl Rplus (esg_score m)
        (contributions quote "esg_score" total_weight portfolio)
  ∧ environmental_score m'
    = foldl Rplus (environmental_score m)
        (contributions quote "environmental_score" total_weight portfolio)
  ∧ social_score m'
    = foldl Rplus (social_score m)
        (contributions quote "social_score" total_weight portfolio)
  ∧ governance_score m'
    = foldl Rplus (governance_score m)
        (contributions quote "governance_score" total_weight portfolio).
Proof.
  revert m. induction portfolio as [|item rest IH]; intros m; [done|].
  cbn [foldl]. cbn zeta in *.
  destruct (IH (esg_item quote total_weight m item)) as (-> & -> & -> & ->).
  unfold contributions, esg_item. cbn [omap list_omap].
  by destruct (get_stock_data quote item.1).
Qed.

(** When every asset with a record has a known sector, the total of the
    sector exposures grows by the normalised weights of those assets. *)
Lemma foldl_esg_item_sectors m portfolio :
  (∀ item data, item ∈ portfolio → get_stock_data quote item.1 = Some data →
                sector data ≠ "N/A") →
  exposure_total (sector_exposure (foldl (esg_item quote total_weight) m portfolio))
  = foldl Rplus (exposure_total (sector_exposure m))
      (map (λ w, w / total_weight) (resolved_weights quote portfolio)).
Proof.
  revert m. induction portfolio as [|item rest IH]; intros m Hknown; [done|].
  cbn [foldl]. rewrite IH.
  2:{ intros ? ? ?. apply Hknown. by apply list_elem_of_further. }
  unfold resolved_weights, esg_item. cbn [omap list_omap].
  destruct (get_stock_data quote item.1) as [data|] eqn:Hd; [|done].
  cbn [map foldl accumulated sector_exposure].
  rewrite bool_decide_eq_true_2
    by (eapply Hknown; [apply list_elem_of_here | done]).
  by rewrite exposure_total_add.
Qed.

End Sums.

(** *** The aggregation scenario *)

Lemma scenario_record_A : get_stock_data scenario_quote "A" = Some stock_A.
Proof. reflexivity. Qed.
Lemma scenario_record_B : get_stock_data scenario_quote "B" = Some stock_B.
Proof. reflexivity. Qed.
Lemma scenario_record_C : get_stock_data scenario_quote "C" = Some stock_C.
Proof. reflexivity. Qed.

Lemma scenario_scores :
  (env_score stock_A = 2 ∧ soc_score stock_A = 3 ∧ gov_score stock_A = 2
   ∧ total_score stock_A = 10)
  ∧ (env_score stock_B = 3 ∧ soc_score stock_B = 4 ∧ gov_score stock_B = 3
     ∧ total_score stock_B = 15)
  ∧ (env_score stock_C = 5 ∧ soc_score stock_C = 4 ∧ gov_score stock_C = 3
     ∧ total_score stock_C = 15).
Proof. repeat split; reflexivity. Qed.

Ltac eligible_by_scores Hs :=
  apply appended_eligible;
  unfold eligible, known_strategy, net_zero_ok, multi_thematic_ok,
    solidarity_ok, default_ok;
  destruct Hs as (-> & -> & -> & ->);
  repeat match goal with
         | |- context [Rmax ?a ?b] =>
             first [rewrite (Rmax_left a b) by lra | rewrite (Rmax_right a b) by lra]
         end.

(** Both assets of the scenario pass the filter under every strategy
    name. *)
Lemma scenario_A_B_appended name :
  appended name stock_A = true ∧ appended name stock_B = true.
Proof.
  destruct scenario_scores as (HA & HB & _).
  assert (∀ s, (env_score s = 2 ∧ soc_score s = 3 ∧ gov_score s = 2
                ∧ total_score s = 10)
               ∨ (env_score s = 3 ∧ soc_score s = 4 ∧ gov_score s = 3
                  ∧ total_score s = 15) → appended name s) as Hok.
  { intros s Hs.
    destruct (decide (name = "Net Zéro")) as [->|?].
    { destruct Hs as [Hs|Hs]; eligible_by_scores Hs; left; (split; [done|lra]). }
    destruct (decide (name = "Multi-thématique ESG")) as [->|?].
    { destruct Hs as [Hs|Hs]; eligible_by_scores Hs; right; left;
        (split; [done|]); (split; [lra|]); (split; [lra|]); left; lra. }
    destruct (decide (name = "Solidaire")) as [->|?].
    { destruct Hs as [Hs|Hs]; eligible_by_scores Hs; right; right; left;
        (split; [done|lra]). }
    destruct Hs as [Hs|Hs]; eligible_by_scores Hs; right; right; right;
      (split; [naive_solver|lra]). }
  split; apply Is_true_true, Hok; [by left | by right].
Qed.

(** Asset C fails NetZero on its environmental score of 5. *)
Lemma scenario_C_net_zero : appended "Net Zéro" stock_C = false.
Proof.
  apply not_true_is_false. intros H%Is_true_true%appended_eligible.
  apply eligible_net_zero in H as [H _].
  destruct scenario_scores as (_ & _ & HC & _). rewrite HC in H. lra.
Qed.

Lemma scenario_working_portfolio preference :
  working_portfolio scenario_quote [("A", 50); ("B", 50)] preference
  = Returned [("A", 50); ("B", 50)].
Proof.
  unfold working_portfolio. destruct preference as [name|]; [|done].
  destruct (truthy (Some name)); [|done].
  cbn [fmap list_fmap fst omap list_omap].
  rewrite scenario_record_A, scenario_record_B.
  rewrite filter_stocks_filter.
  destruct (scenario_A_B_appended name) as [HA HB].
  rewrite !filter_cons, HA, HB. done.
Qed.

(** *** Weighted aggregates *)

(** The second loop on a working portfolio whose resolved weights do not
    sum to zero. *)
Lemma weighted_aggregates
    (history : string → option string → option string → outcome History)
    (quote : string → option Quote) (portfolio P' : list (string * R))
    (start_date end_date benchmark preference : option string) :
  working_portfolio quote portfolio preference = Returned P' →
  py_sum (resolved_weights quote P') ≠ 0 →
  let m := calculate_portfolio_metrics history quote portfolio start_date
             end_date benchmark preference in
  esg_score m = weighted_score quote "esg_score" P'
  ∧ environmental_score m = weighted_score quote "environmental_score" P'
  ∧ social_score m = weighted_score quote "social_score" P'
  ∧ governance_score m = weighted_score quote "governance_score" P'
  ∧ ((∀ item data, item ∈ P' → get_stock_data quote item.1 = Some data →
                   sector data ≠ "N/A") →
     exposure_total (sector_exposure m) = 1).
Proof.
  intros HP HW m.
  destruct (calculate_portfolio_metrics_run history quote portfolio start_date
              end_date benchmark preference P' HP) as (perf & _ & Hrun).
  subst m. rewrite Hrun, esg_and_exposures_nonzero by done. cbn [snd].
  destruct (foldl_esg_item_scores quote (py_sum (resolved_weights quote P'))
              (mkPortfolioMetrics 0 0 0 0 0 ∅ ∅ perf) P')
    as (-> & -> & -> & ->).
  split_and!; try done.
  intros Hknown. rewrite foldl_esg_item_sectors by done.
  cbn [sector_exposure]. rewrite exposure_total_empty, foldl_Rplus_shift.
  rewrite py_sum_div. field. done.
Qed.

Lemma scenario_A_B_total :
  py_sum (resolved_weights scenario_quote [("A", 50); ("B", 50)]) = 100.
Proof.
  unfold resolved_weights. cbn [omap list_omap fst snd].
  rewrite scenario_record_A, scenario_record_B. unfold py_sum. simpl. lra.
Qed.

(** C7, as the code has it.  The aggregates are taken over the working
    portfolio (the portfolio, or the assets of it that the filter keeps when
    a strategy is given).  Whenever the weights of its tickers with an asset
    record do not sum to zero, esg_score, environmental_score, social_score
    and governance_score each equal the sum over those assets of score_i *
    weight_i / (sum of those weights), and the values of sector_exposure sum
    to 1 when each of those assets has a known sector.  With the weights
    A: 50, B: 50 of the scenario, esg_score = 12.5 and environmental_score =
    2.5 under every strategy. *)
Theorem C7_weighted_esg_aggregates
    (history : string → option string → option string → outcome History)
    (quote : string → option Quote) (portfolio P' : list (string * R))
    (start_date end_date benchmark preference : option string) :
  working_portfolio quote portfolio preference = Returned P' →
  py_sum (resolved_weights quote P') ≠ 0 →
  let m := calculate_portfolio_metrics history quote portfolio start_date
             end_date benchmark preference in
  esg_score m = weighted_score quote "esg_score" P'
  ∧ environmental_score m = weighted_score quote "environmental_score" P'
  ∧ social_score m = weighted_score quote "social_score" P'
  ∧ governance_score m = weighted_score quote "governance_score" P'
  ∧ ((∀ item data, item ∈ P' → get_stock_data quote item.1 = Some data →
                   sector data ≠ "N/A") →
     exposure_total (sector_exposure m) = 1)
  ∧ (truthy preference = false → P' = portfolio)
  ∧ (let ms := calculate_portfolio_metrics history scenario_quote
                 [("A", 50); ("B", 50)] start_date end_date benchmark
                 preference in
     esg_score ms = 12.5 ∧ environmental_score ms = 2.5).
Proof.
  intros HP' HW m.
  destruct (weighted_aggregates history quote portfolio P' start_date end_date
              benchmark preference HP' HW) as (He & Hv & Hs & Hg & Hsec).
  split_and!; try done.
  - intros Hp. destruct (working_portfolio_returns quote portfolio preference)
      as (P'' & HP'' & _ & Hsame & _).
    rewrite HP' in HP''. injection HP'' as <-. by apply Hsame.
  - intros ms.
    destruct (weighted_aggregates history scenario_quote [("A", 50); ("B", 50)]
                [("A", 50); ("B", 50)] start_date end_date benchmark preference
                (scenario_working_portfolio preference))
      as (Hes & Hen & _); [rewrite scenario_A_B_total; lra|].
    subst ms. rewrite Hes, Hen. unfold weighted_score.
    rewrite scenario_A_B_total.
    unfold contributions. cbn [omap list_omap fst snd].
    rewrite scenario_record_A, scenario_record_B.
    change (dict_get (scores stock_A) "esg_score" 0) with 10.
    change (dict_get (scores stock_B) "esg_score" 0) with 15.
    change (dict_get (scores stock_A) "environmental_score" 0) with 2.
    change (dict_get (scores stock_B) "environmental_score" 0) with 3.
    unfold py_sum. simpl. split; lra.
Qed.

Lemma C7_witness :
  let m := calculate_portfolio_metrics no_history scenario_quote
             [("A", 50); ("B", 50)] None None None (Some "Solidaire") in
  working_portfolio scenario_quote [("A", 50); ("B", 50)] (Some "Solidaire")
    = Returned [("A", 50); ("B", 50)]
  ∧ py_sum (resolved_weights scenario_quote [("A", 50); ("B", 50)]) ≠ 0
  ∧ exposure_total (sector_exposure m) = 1.
Proof.
  intros m.
  assert (py_sum (resolved_weights scenario_quote [("A", 50); ("B", 50)]) ≠ 0)
    as HW.
  { unfold resolved_weights. cbn [omap list_omap fst snd].
    rewrite scenario_record_A, scenario_record_B. unfold py_sum. simpl. lra. }
  split; [apply scenario_working_portfolio|]. split; [exact HW|].
  apply (C7_weighted_esg_aggregates no_history scenario_quote
           [("A", 50); ("B", 50)] [("A", 50); ("B", 50)] None None None
           (Some "Solidaire") (scenario_working_portfolio _) HW).
  intros item data Hin Hd.
  apply elem_of_cons in Hin as [->|Hin]; [|apply elem_of_cons in Hin as [->|Hin]].
  - cbn [fst] in Hd. rewrite scenario_record_A in Hd. by injection Hd as <-.
  - cbn [fst] in Hd. rewrite scenario_record_B in Hd. by injection Hd as <-.
  - by apply elem_of_nil in Hin.
Defined.

(** C7 as stated fails.  With the single weight A: 0 every ticker resolves
    and every asset has a known sector, yet the sector exposures sum to 0;
    and with A: 50, C: 50 under NetZero the filter drops C, so that
    esg_score is the score 10 of A and not the 12.5 of the sum over the
    assets of the portfolio. *)
Lemma C7_zero_weights_and_dropped_assets :
  (let p := [("A", 0)] in
   let m := calculate_portfolio_metrics no_history scenario_quote p
              None None None None in
   (∀ item, item ∈ p → ∃ data, get_stock_data scenario_quote item.1 = Some data
                                ∧ sector data ≠ "N/A")
   ∧ exposure_total (sector_exposure m) = 0
   ∧ exposure_total (sector_exposure m) ≠ 1)
  ∧ (let p := [("A", 50); ("C", 50)] in
     let m := calculate_portfolio_metrics no_history scenario_quote p
                None None None (Some "Net Zéro") in
     (∀ item, item ∈ p → is_Some (get_stock_data scenario_quote item.1))
     ∧ esg_score m = 10
     ∧ weighted_score scenario_quote "esg_score" p = 12.5
     ∧ esg_score m ≠ weighted_score scenario_quote "esg_score" p).
Proof.
  split.
  - intros p m.
    assert (exposure_total (sector_exposure m) = 0) as H0.
    { subst m p.
      destruct (calculate_portfolio_metrics_run no_history scenario_quote
                  [("A", 0)] None None None None [("A", 0)])
        as (perf & _ & ->); [done|].
      rewrite esg_and_exposures_zero.
      - apply exposure_total_empty.
      - unfold resolved_weights. cbn [omap list_omap fst snd].
        rewrite scenario_record_A. unfold py_sum. simpl. lra. }
    split_and!.
    + intros item [->|Hin%elem_of_nil]%elem_of_cons; [|done].
      exists stock_A. by split.
    + exact H0.
    + rewrite H0. lra.
  - intros p m.
    assert (working_portfolio scenario_quote p (Some "Net Zéro")
            = Returned [("A", 50)]) as HP.
    { subst p. unfold working_portfolio. cbn [truthy].
      rewrite bool_decide_eq_false_2 by done. cbn [negb].
      cbn [fmap list_fmap fst omap list_omap].
      rewrite scenario_record_A, scenario_record_C, filter_stocks_filter.
      destruct (scenario_A_B_appended "Net Zéro") as [HA _].
      rewrite !filter_cons, HA, scenario_C_net_zero. done. }
    assert (esg_score m = 10) as H10.
    { destruct (weighted_aggregates no_history scenario_quote p [("A", 50)]
                  None None None (Some "Net Zéro") HP) as (He & _).
      - unfold resolved_weights. cbn [omap list_omap fst snd].
        rewrite scenario_record_A. unfold py_sum. simpl. lra.
      - subst m. rewrite He. unfold weighted_score, resolved_weights, contributions.
        cbn [omap list_omap fst snd]. rewrite scenario_record_A.
        change (dict_get (scores stock_A) "esg_score" 0) with 10.
        unfold py_sum. simpl. replace (0 + 50) with 50 by lra. lra. }
    assert (weighted_score scenario_quote "esg_score" p = 12.5) as H125.
    { subst p. unfold weighted_score, resolved_weights, contributions.
      cbn [omap list_omap fst snd].
      rewrite scenario_record_A, scenario_record_C.
      change (dict_get (scores stock_A) "esg_score" 0) with 10.
      change (dict_get (scores stock_C) "esg_score" 0) with 15.
      unfold py_sum. simpl. replace (0 + 50 + 50) with 100 by lra. lra. }
    split_and!; [|done|done|rewrite H10, H125; lra].
    intros item [->|[->|Hin%elem_of_nil]%elem_of_cons]%elem_of_cons; done.
Qed.

(** *** The [volatility] entry *)

Create HintDb volatility.

Lemma keeps_volatility_ret {A} (a : A) : keeps_volatility (mret a).
Proof. by intros m. Qed.

Lemma keeps_volatility_lift {A} (o : outcome A) : keeps_volatility (lift o).
Proof. by intros m. Qed.

Lemma keeps_volatility_update f :
  (∀ m, volatility (f m) = volatility m) → keeps_volatility (update f).
Proof. intros Hf m. apply Hf. Qed.

Lemma keeps_volatility_bind {A B} (c : Body A) (k : A → Body B) :
  keeps_volatility c → (∀ a, keeps_volatility (k a)) → keeps_volatility (c ≫= k).
Proof.
  intros Hc Hk m. unfold mbind, Body_bind. specialize (Hc m).
  destruct (c m) as [[a|e] m']; simpl in *; [|done].
  by rewrite Hk.
Qed.

Lemma keeps_volatility_if {A} (b : bool) (c1 c2 : Body A) :
  keeps_volatility c1 → keeps_volatility c2 →
  keeps_volatility (if b then c1 else c2).
Proof. by destruct b. Qed.

#[local] Hint Resolve keeps_volatility_ret keeps_volatility_lift
  keeps_volatility_bind keeps_volatility_if : volatility.
#[local] Hint Extern 2 (keeps_volatility (update _)) =>
  apply keeps_volatility_update; intros ?; reflexivity : volatility.

Lemma keeps_volatility_for_each {A} (step : A → Body unit) (l : list A) :
  (∀ x, keeps_volatility (step x)) → keeps_volatility (for_each step l).
Proof. intros Hstep. induction l; simpl; auto with volatility. Qed.

Lemma keeps_volatility_accumulate data wn : keeps_volatility (accumulate data wn).
Proof. unfold accumulate. auto 20 with volatility. Qed.

Lemma keeps_volatility_esg_step quote total_weight item :
  keeps_volatility (esg_step quote total_weight item).
Proof.
  unfold esg_step. destruct (get_stock_data quote item.1);
    auto using keeps_volatility_accumulate with volatility.
Qed.

Lemma keeps_volatility_esg_and_exposures quote portfolio :
  keeps_volatility (esg_and_exposures quote portfolio).
Proof.
  unfold esg_and_exposures. destruct (omap _ portfolio);
    auto using keeps_volatility_for_each, keeps_volatility_esg_step
      with volatility.
Qed.

Lemma keeps_volatility_body history quote portfolio start_date end_date
    benchmark preference :
  keeps_volatility (portfolio_metrics_body history quote portfolio start_date
                      end_date benchmark preference).
Proof.
  unfold portfolio_metrics_body.
  apply keeps_volatility_bind; [auto with volatility|]. intros P'.
  destruct (get_portfolio_historical_data history P'.*1 P'.*2 start_date end_date)
    as [pv pr].
  apply keeps_volatility_bind;
    auto using keeps_volatility_esg_and_exposures with volatility.
Qed.

(** C10.  Whatever the weights, the date range, the benchmark and the
    strategy, the [volatility] entry of the returned metrics is 0: it starts
    at zero and no step of the body changes it. *)
Theorem C10_volatility_entry_is_zero
    (history : string → option string → option string → outcome History)
    (quote : string → option Quote) (portfolio : list (string * R))
    (start_date end_date benchmark preference : option string) :
  volatility (calculate_portfolio_metrics history quote portfolio start_date
                end_date benchmark preference) = 0.
Proof.
  unfold calculate_portfolio_metrics. destruct portfolio as [|item rest]; [done|].
  by rewrite keeps_volatility_body.
Qed.

(** *** Degenerate inputs *)

Section Degenerate.

Variable history : string → option string → option string → outcome History.
Variable quote : string → option Quote.
Variables start_date end_date : option string.

Lemma py_sum_zeros (l : list R) : Forall (λ w, w = 0) l → py_sum l = 0.
Proof.
  unfold py_sum. induction 1 as [|w l -> _ IH]; simpl; [done|].
  by replace (0 + 0) with 0 by lra.
Qed.

(** Without usable data the first loop leaves its variables alone, unless
    a fetch raises. *)
Lemma fetch_loop_no_data pairs st :
  (∀ t, t ∈ pairs.*1 → no_data (history t start_date end_date)) →
  fetch_loop history start_date end_date pairs st = Returned st
  ∨ ∃ e, fetch_loop history start_date end_date pairs st = Raised e.
Proof.
  induction pairs as [|[t w] rest IH]; intros Hno; [by left|].
  cbn [fetch_loop].
  pose proof (Hno t (list_elem_of_here _ _)) as Ht. unfold no_data in Ht.
  destruct (history t start_date end_date) as [[|[|e prices]]|e]; cbn; try done.
  - apply IH. intros t' Ht'. apply Hno. by apply list_elem_of_further.
  - apply IH. intros t' Ht'. apply Hno. by apply list_elem_of_further.
  - right. by exists e.
Qed.

Lemma series_builder_no_data tickers weights :
  (∀ t, t ∈ tickers → no_data (history t start_date end_date)) →
  get_portfolio_historical_data history tickers weights start_date end_date
  = ([], []).
Proof.
  intros Hno. unfold get_portfolio_historical_data, portfolio_historical_body.
  destruct (bool_decide _ || bool_decide _); [done|].
  destruct (fetch_loop_no_data (zip tickers weights) (mkFetched df_new df_new [] []))
    as [->|[e ->]]; [|done..].
  intros t Ht. apply Hno.
  apply list_elem_of_fmap in Ht as ([t' w] & -> & Hin).
  by apply elem_of_zip_l in Hin.
Qed.

(** The first loop only collects weights it was given, one per ticker. *)
Lemma fetch_loop_weights pairs st st' :
  fetch_loop history start_date end_date pairs st = Returned st' →
  Forall (λ w, w = 0) pairs.*2 →
  Forall (λ w, w = 0) (valid_weights st) →
  length (valid_tickers st) = length (valid_weights st) →
  Forall (λ w, w = 0) (valid_weights st')
  ∧ length (valid_tickers st') = length (valid_weights st').
Proof.
  revert st. induction pairs as [|[t w] rest IH]; intros st Hst Hz Hvz Hlen.
  - by injection Hst as <-.
  - cbn [fetch_loop] in Hst. apply Forall_cons in Hz as [Hw Hz]. simpl in Hw.
    destruct (history t start_date end_date) as [[|[|e prices]]|e]; cbn in Hst;
      [by eapply IH..| |done].
    eapply IH; [exact Hst|done|..]; cbn.
    + apply Forall_app. split; [done|]. by constructor.
    + rewrite !length_app. simpl. lia.
Qed.

Lemma series_builder_zero_weights tickers weights :
  Forall (λ w, w = 0) weights →
  get_portfolio_historical_data history tickers weights start_date end_date
  = ([], []).
Proof.
  intros Hz. unfold get_portfolio_historical_data, portfolio_historical_body.
  destruct (bool_decide _ || bool_decide _); [done|].
  destruct (fetch_loop _ _ _ _ _) as [st|e] eqn:Hst; [|done]. cbn.
  destruct (fetch_loop_weights _ _ _ Hst) as [Hvz Hlen]; [|done|done|].
  { rewrite Forall_forall in Hz. apply Forall_forall.
    intros w ([t w'] & -> & Hin)%list_elem_of_fmap.
    apply Hz. by apply elem_of_zip_r in Hin. }
  destruct (df_empty _ || bool_decide _) eqn:Hempty; [done|].
  apply orb_false_elim in Hempty as [_ Hvt%bool_decide_eq_false].
  rewrite (py_sum_zeros _ Hvz).
  destruct (valid_weights st) as [|w ws].
  - by destruct (valid_tickers st).
  - cbn. unfold py_div. by rewrite decide_True.
Qed.

Lemma resolved_weights_none portfolio :
  (∀ item, item ∈ portfolio → quote item.1 = None) →
  resolved_weights quote portfolio = [].
Proof.
  induction portfolio as [|item rest IH]; intros Hnone; [done|].
  unfold resolved_weights, get_stock_data in *. cbn [omap list_omap].
  rewrite (Hnone item) by apply list_elem_of_here.
  apply IH. intros ? ?. apply Hnone. by apply list_elem_of_further.
Qed.

Lemma resolved_weights_zeros portfolio :
  Forall (λ item : string * R, item.2 = 0) portfolio →
  Forall (λ w, w = 0) (resolved_weights quote portfolio).
Proof.
  unfold resolved_weights.
  induction 1 as [|item rest Hw _ IH]; cbn [omap list_omap]; [constructor|].
  destruct (get_stock_data quote item.1); [by constructor | done].
Qed.

(** When the series builder has nothing and the resolved weights sum to
    zero, the aggregator returns the metrics it started from. *)
Lemma aggregator_returns_initial portfolio benchmark preference :
  (∀ P', working_portfolio quote portfolio preference = Returned P' →
         get_portfolio_historical_data history P'.*1 P'.*2 start_date end_date
           = ([], [])
         ∧ py_sum (resolved_weights quote P') = 0) →
  calculate_portfolio_metrics history quote portfolio start_date end_date
    benchmark preference = initial_metrics.
Proof.
  intros Hdeg.
  destruct (working_portfolio_returns quote portfolio preference)
    as (P' & HP' & _).
  destruct (Hdeg P' HP') as [Hseries Hsum].
  destruct (calculate_portfolio_metrics_run history quote portfolio start_date
              end_date benchmark preference P' HP') as (perf & Hperf & ->).
  rewrite esg_and_exposures_zero by done.
  rewrite Hperf by (by rewrite Hseries). done.
Qed.

Lemma aggregator_unresolved portfolio benchmark preference :
  (∀ item, item ∈ portfolio →
           quote item.1 = None ∧ no_data (history item.1 start_date end_date)) →
  calculate_portfolio_metrics history quote portfolio start_date end_date
    benchmark preference = initial_metrics.
Proof.
  intros Hun. apply aggregator_returns_initial. intros P' HP'.
  destruct (working_portfolio_returns quote portfolio preference)
    as (P'' & HP'' & Hall & _).
  rewrite HP' in HP''. injection HP'' as <-. rewrite Forall_forall in Hall.
  split.
  - apply series_builder_no_data.
    intros t ([t' w] & -> & Hin)%list_elem_of_fmap. by apply (Hun (t', w)), Hall.
  - rewrite resolved_weights_none; [done|].
    intros item Hin. by apply Hun, Hall.
Qed.

Lemma aggregator_zero_weights portfolio benchmark preference :
  Forall (λ item : string * R, item.2 = 0) portfolio →
  calculate_portfolio_metrics history quote portfolio start_date end_date
    benchmark preference = initial_metrics.
Proof.
  intros Hz. apply aggregator_returns_initial. intros P' HP'.
  destruct (working_portfolio_returns quote portfolio preference)
    as (P'' & HP'' & Hall & _).
  rewrite HP' in HP''. injection HP'' as <-.
  assert (Forall (λ item : string * R, item.2 = 0) P') as Hz'.
  { rewrite Forall_forall in Hz, Hall. apply Forall_forall.
    intros item Hin. by apply Hz, Hall. }
  split.
  - apply series_builder_zero_weights. apply Forall_fmap.
    eapply Forall_impl; [exact Hz'|]. done.
  - apply py_sum_zeros. by apply resolved_weights_zeros.
Qed.

(** Without price data the performance part of the metrics stays empty,
    whatever the asset records give. *)
Lemma aggregator_no_prices portfolio benchmark preference :
  (∀ item, item ∈ portfolio → no_data (history item.1 start_date end_date)) →
  performance_metrics
    (calculate_portfolio_metrics history quote portfolio start_date end_date
       benchmark preference) = ∅.
Proof.
  intros Hno.
  destruct (working_portfolio_returns quote portfolio preference)
    as (P' & HP' & Hall & _).
  destruct (calculate_portfolio_metrics_run history quote portfolio start_date
              end_date benchmark preference P' HP') as (perf & Hperf & ->).
  rewrite Forall_forall in Hall.
  rewrite Hperf.
  2:{ rewrite series_builder_no_data; [done|].
      intros t ([t' w] & -> & Hin)%list_elem_of_fmap.
      by apply (Hno (t', w)), Hall. }
  destruct (decide (py_sum (resolved_weights quote P') = 0)) as [H0|Hnz].
  - by rewrite esg_and_exposures_zero.
  - rewrite esg_and_exposures_nonzero by done. cbn [snd].
    by destruct (foldl_esg_item_fixed quote (py_sum (resolved_weights quote P'))
                   (mkPortfolioMetrics 0 0 0 0 0 ∅ ∅ ∅) P') as [_ ->].
Qed.

(** Without any asset record the second loop has nothing to add: only the
    performance entry can differ from the initial metrics. *)
Lemma aggregator_no_records portfolio benchmark preference :
  (∀ item, item ∈ portfolio → quote item.1 = None) →
  let aggregate := calculate_portfolio_metrics history quote portfolio
                     start_date end_date benchmark preference in
  aggregate = mkPortfolioMetrics 0 0 0 0 0 ∅ ∅ (performance_metrics aggregate).
Proof.
  intros Hnone aggregate. subst aggregate.
  destruct (working_portfolio_returns quote portfolio preference)
    as (P' & HP' & Hall & _).
  destruct (calculate_portfolio_metrics_run history quote portfolio start_date
              end_date benchmark preference P' HP') as (perf & _ & ->).
  rewrite esg_and_exposures_zero; [done|].
  rewrite resolved_weights_none; [done|].
  rewrite Forall_forall in Hall. intros item Hin. by apply Hnone, Hall.
Qed.

End Degenerate.

(** C8, as the code has it.  The aggregator and the series builder return
    on every input: a raise inside either body ends in its handler.  The
    aggregator returns the all-zero/empty metrics on an empty weights map,
    on tickers that have neither an asset record nor prices, and on weights
    that are all zero.  When only the prices are missing its performance
    metrics are empty, the scores and exposures being computed all the
    same; when only the asset records are missing its scores are zero and
    its exposures empty, the performance metrics being computed all the
    same.  On empty ticker or weight lists, on tickers without a non-empty
    close series (a failing fetch included) and on weights that are all
    zero, the series builder returns an empty value series and an empty
    return series. *)
Theorem C8_degenerate_inputs_return_empty
    (history : string → option string → option string → outcome History)
    (quote : string → option Quote)
    (portfolio : list (string * R)) (tickers : list string) (weights : list R)
    (start_date end_date benchmark preference : option string) :
  let aggregate := calculate_portfolio_metrics history quote portfolio
                     start_date end_date benchmark preference in
  let series := get_portfolio_historical_data history tickers weights
                  start_date end_date in
  (portfolio = [] → aggregate = initial_metrics)
  ∧ ((∀ item, item ∈ portfolio →
        quote item.1 = None ∧ no_data (history item.1 start_date end_date)) →
     aggregate = initial_metrics)
  ∧ (Forall (λ item : string * R, item.2 = 0) portfolio →
     aggregate = initial_metrics)
  ∧ ((∀ item, item ∈ portfolio →
        no_data (history item.1 start_date end_date)) →
     performance_metrics aggregate = ∅)
  ∧ ((∀ item, item ∈ portfolio → quote item.1 = None) →
     aggregate
     = mkPortfolioMetrics 0 0 0 0 0 ∅ ∅ (performance_metrics aggregate))
  ∧ (tickers = [] ∨ weights = [] → series = ([], []))
  ∧ ((∀ t, t ∈ tickers → no_data (history t start_date end_date)) →
     series = ([], []))
  ∧ (Forall (λ w, w = 0) weights → series = ([], []))
  ∧ (∀ e, portfolio_historical_body history tickers weights start_date end_date
          = Raised e → series = ([], []))
  ∧ (∀ e m, portfolio_metrics_body history quote portfolio start_date end_date
              benchmark preference initial_metrics = (Raised e, m) →
            portfolio ≠ [] → aggregate = m).
Proof.
  intros aggregate series. split_and!.
  - by intros ->.
  - apply aggregator_unresolved.
  - apply aggregator_zero_weights.
  - apply aggregator_no_prices.
  - apply aggregator_no_records.
  - intros Hempty. subst series.
    unfold get_portfolio_historical_data, portfolio_historical_body.
    by destruct Hempty as [-> | ->]; [|rewrite orb_true_r].
  - apply series_builder_no_data.
  - apply series_builder_zero_weights.
  - intros e He. subst series. unfold get_portfolio_historical_data.
    by rewrite He.
  - intros e m He Hp. subst aggregate. unfold calculate_portfolio_metrics.
    destruct portfolio; [done|]. by rewrite He.
Qed.

Lemma C8_witness :
  Forall (λ w, w = 0) [0]
  ∧ Forall (λ item : string * R, item.2 = 0) [("A", 0)]
  ∧ get_portfolio_historical_data two_day_history ["AAPL"] [0] None None
    = ([], [])
  ∧ calculate_portfolio_metrics two_day_history scenario_quote [("A", 0)]
      None None None None = initial_metrics.
Proof.
  assert (Forall (λ w, w = 0) [0]) as Hw by (by repeat constructor).
  assert (Forall (λ item : string * R, item.2 = 0) [("A", 0)]) as Hp
    by (by repeat constructor).
  split; [exact Hw|]. split; [exact Hp|].
  destruct (C8_degenerate_inputs_return_empty two_day_history scenario_quote
              [("A", 0)] ["AAPL"] [0] None None None None)
    as (_ & _ & Hagg & _ & _ & _ & _ & Hser & _).
  split; [exact (Hser Hw) | exact (Hagg Hp)].
Defined.

(** With prices at hand and a zero weight, the body of the series builder
    does raise, on the division by the weight total; the handler turns that
    into the two empty series. *)
Example zero_weight_body_raises :
  portfolio_historical_body two_day_history ["AAPL"] [0] None None
  = Raised ZeroDivisionError.
Proof.
  unfold portfolio_historical_body.
  rewrite !bool_decide_eq_false_2 by done. cbn [orb zip zip_with].
  destruct (fetch_loop_single two_day_history None None "AAPL" 0 two_day_prices)
    as (st & -> & Hvt & Hvw & _ & _ & Hne); [done| |done|].
  { simpl. repeat constructor; set_solver. }
  cbn [mbind outcome_bind]. rewrite Hne, Hvt, Hvw. cbn [orb].
  rewrite bool_decide_eq_false_2 by done.
  cbn [mapM py_sum foldl]. unfold py_div at 1.
  rewrite decide_True by lra. done.
Qed.

(** The NetZero scenario of the design document: an environmental score of
    5 excludes the asset whatever its other scores. *)
Example net_zero_excludes_env_5 (s : Stock) :
  env_score s = 5 → filter_stocks_by_preference [s] "Net Zéro" = [].
Proof.
  intros He. rewrite filter_stocks_eligible, filter_cons.
  rewrite decide_False; [done|].
  intros [H _]%eligible_net_zero. rewrite He in H. lra.
Qed.

(** * Further properties of the code *)

(** ** The filter across strategies and inputs *)

Lemma filter_sublist_impl {A} (P Q : A → Prop)
    `{!∀ x, Decision (P x)} `{!∀ x, Decision (Q x)} (l : list A) :
  (∀ x, P x → Q x) → sublist (filter P l) (filter Q l).
Proof.
  intros HPQ. induction l as [|x l IH]; [done|].
  rewrite !filter_cons. destruct (decide (P x)) as [HP|HP].
  - rewrite decide_True by auto. by constructor.
  - destruct (decide (Q x)); [by constructor | done].
Qed.

Lemma net_zero_within_default other s :
  ¬ known_strategy other → eligible "Net Zéro" s → eligible other s.
Proof.
  intros Hother [Hen [Hto Hmx]]%eligible_net_zero.
  apply eligible_default; [done|]. split; [lra|].
  apply Rmax_Rlt in Hmx as [Hs Hg].
  repeat apply Rmax_lub_lt; lra.
Qed.

Lemma multi_thematic_within_default other s :
  ¬ known_strategy other → eligible "Multi-thématique ESG" s → eligible other s.
Proof.
  intros Hother (Hto & Hmx & _)%eligible_multi_thematic.
  apply eligible_default; [done|]. split; [lra|].
  apply Rmax_Rlt in Hmx as [He [Hs Hg]%Rmax_Rlt].
  repeat apply Rmax_lub_lt; lra.
Qed.

(** X1.  Whatever the filter keeps under Net Zéro or under Multi-thématique
    ESG it also keeps, in the same order, under a name it does not
    recognise: the two strategies are tightenings of the default rule. *)
Theorem X1_strict_strategies_within_default (stocks : list Stock) (other : string) :
  ¬ known_strategy other →
  sublist (filter_stocks_by_preference stocks "Net Zéro")
          (filter_stocks_by_preference stocks other)
  ∧ sublist (filter_stocks_by_preference stocks "Multi-thématique ESG")
            (filter_stocks_by_preference stocks other).
Proof.
  intros Hother. rewrite !filter_stocks_eligible. split.
  - apply filter_sublist_impl. intros s. by apply net_zero_within_default.
  - apply filter_sublist_impl. intros s. by apply multi_thematic_within_default.
Qed.

Lemma X1_witness :
  ¬ known_strategy "Aucune"
  ∧ sublist (filter_stocks_by_preference [stock_A; stock_C] "Net Zéro")
            (filter_stocks_by_preference [stock_A; stock_C] "Aucune").
Proof.
  assert (¬ known_strategy "Aucune") as Hother
    by (unfold known_strategy; naive_solver).
  split; [exact Hother|].
  apply (X1_strict_strategies_within_default [stock_A; stock_C] "Aucune" Hother).
Defined.

(** X2.  Filtering a concatenation is concatenating the filtered parts: the
    decision on a stock does not depend on the stocks around it, and the
    output is never longer than the input. *)
Theorem X2_filter_distributes_over_append
    (stocks1 stocks2 : list Stock) (preference : string) :
  filter_stocks_by_preference (stocks1 ++ stocks2) preference
  = filter_stocks_by_preference stocks1 preference
    ++ filter_stocks_by_preference stocks2 preference
  ∧ (length (filter_stocks_by_preference stocks1 preference)
     ≤ length stocks1)%nat.
Proof.
  rewrite !filter_stocks_eligible. split.
  - apply filter_app.
  - apply length_filter.
Qed.

(** The record [get_stock_data] builds when the provider has no usable
    sustainability data carries the fallback scores 19, 10, 4, 5. *)
Lemma fallback_record_scores quote t q :
  quote t = Some q → q_sustainability q = None →
  ∃ data, get_stock_data quote t = Some data
          ∧ total_score data = 19 ∧ env_score data = 10
          ∧ soc_score data = 4 ∧ gov_score data = 5.
Proof.
  intros Hq Hs. unfold get_stock_data. rewrite Hq, Hs.
  eexists. split; [reflexivity|]. repeat split; reflexivity.
Qed.

(** X3.  An asset for which the provider has no sustainability data gets
    the fallback scores of [get_stock_data]; with them it is never kept
    under Net Zéro nor under Multi-thématique ESG, and always kept under
    Solidaire and under any other name. *)
Theorem X3_fallback_scores_eligibility
    (quote : string → option Quote) (t : string) (q : Quote)
    (stocks : list Stock) (name : string) :
  quote t = Some q → q_sustainability q = None →
  ∃ data, get_stock_data quote t = Some data
          ∧ (data ∈ filter_stocks_by_preference stocks name
             ↔ data ∈ stocks ∧ name ≠ "Net Zéro"
               ∧ name ≠ "Multi-thématique ESG").
Proof.
  intros Hq Hs.
  destruct (fallback_record_scores quote t q Hq Hs)
    as (data & Hd & Hto & Hen & Hso & Hgo).
  exists data. split; [done|].
  rewrite filter_stocks_eligible, list_elem_of_filter.
  assert (eligible name data
          ↔ name ≠ "Net Zéro" ∧ name ≠ "Multi-thématique ESG") as Hel.
  { unfold eligible, known_strategy, net_zero_ok, multi_thematic_ok,
      solidarity_ok, default_ok.
    rewrite Hto, Hen, Hso, Hgo.
    rewrite (Rmax_right 4 5), (Rmax_left 10 5) by lra.
    destruct (decide (name = "Net Zéro")) as [->|?];
      [split; [intros [[_ [? _]]|[[? _]|[[? _]|[? _]]]]; (lra || naive_solver)
              | naive_solver] |].
    destruct (decide (name = "Multi-thématique ESG")) as [->|?];
      [split; [intros [[? _]|[[_ [_ [? _]]]|[[? _]|[? _]]]]; (lra || naive_solver)
              | naive_solver] |].
    split; [done|]. intros _.
    destruct (decide (name = "Solidaire")) as [->|?].
    - right; right; left. split; [done|lra].
    - right; right; right. split; [naive_solver|lra]. }
  rewrite Hel. tauto.
Qed.

Lemma X3_witness :
  ∃ data, get_stock_data (λ _, Some (mkQuote None None None)) "XYZ" = Some data
          ∧ (data ∈ filter_stocks_by_preference [stock_A] "Solidaire"
             ↔ data ∈ [stock_A] ∧ "Solidaire" ≠ "Net Zéro"
               ∧ "Solidaire" ≠ "Multi-thématique ESG").
Proof.
  apply (X3_fallback_scores_eligibility (λ _, Some (mkQuote None None None))
           "XYZ" (mkQuote None None None) [stock_A] "Solidaire"); reflexivity.
Defined.

(** ** The entries of the performance dict *)

Lemma calculate_metrics_nil benchmark_returns :
  calculate_metrics [] benchmark_returns = ∅.
Proof. done. Qed.

Lemma calculate_metrics_no_benchmark_keys (returns : Series) benchmark_returns :
  returns ≠ [] →
  (benchmark_returns = None ∨ benchmark_returns = Some []) →
  calculate_metrics returns benchmark_returns !! "beta" = None
  ∧ calculate_metrics returns benchmark_returns !! "alpha" = None.
Proof.
  intros Hr Hb. unfold calculate_metrics.
  destruct returns as [|e returns]; [done|]. cbn [empty].
  destruct Hb as [-> | ->]; cbn [empty negb]; split; reflexivity.
Qed.

Lemma calculate_metrics_benchmark_keys (returns b : Series) :
  returns ≠ [] → b ≠ [] →
  is_Some (calculate_metrics returns (Some b) !! "beta")
  ∧ is_Some (calculate_metrics returns (Some b) !! "alpha").
Proof.
  intros Hr Hb.
  destruct (calculate_metrics_benchmark returns b Hr Hb) as [Hz Hnz].
  destruct (decide (var b = Some 0)) as [Hv|Hv].
  - destruct (Hz Hv) as [-> ->]. by split.
  - destruct (Hnz Hv) as [-> ->]. by split.
Qed.

(** X4.  The dict of [calculate_metrics] is empty exactly on an empty
    return series; otherwise it has the four entries annualized_return,
    annualized_volatility, sharpe_ratio and max_drawdown, and it has beta
    and alpha, both or neither, exactly when a benchmark series is given
    and is not empty (whatever its variance). *)
Theorem X4_metrics_keys (returns : Series) (benchmark_returns : option Series) :
  let m := calculate_metrics returns benchmark_returns in
  (m = ∅ ↔ returns = [])
  ∧ (returns ≠ [] →
     is_Some (m !! "annualized_return")
     ∧ is_Some (m !! "annualized_volatility")
     ∧ is_Some (m !! "sharpe_ratio") ∧ is_Some (m !! "max_drawdown"))
  ∧ (is_Some (m !! "beta")
     ↔ returns ≠ [] ∧ ∃ b, benchmark_returns = Some b ∧ b ≠ [])
  ∧ (is_Some (m !! "alpha") ↔ is_Some (m !! "beta")).
Proof.
  intros m. subst m.
  destruct (decide (returns = [])) as [->|Hr].
  { rewrite calculate_metrics_nil. split_and!.
    - done.
    - done.
    - rewrite lookup_empty. split; [by intros [? ?] | by intros [? _]].
    - by rewrite !lookup_empty. }
  destruct (calculate_metrics_base returns benchmark_returns Hr)
    as (Har & Hvol & Hsh & Hdd).
  assert (benchmark_returns = None ∨ benchmark_returns = Some []
          ∨ ∃ b, benchmark_returns = Some b ∧ b ≠ []) as Hcases.
  { destruct benchmark_returns as [[|e b]|]; [by right; left| |by left].
    right; right. by eexists. }
  split_and!.
  - split; [|done]. intros Hm. rewrite Hm, lookup_empty in Har. done.
  - intros _. rewrite Har, Hvol, Hsh, Hdd. by split_and!.
  - destruct Hcases as [Hn|[Hn|(b & -> & Hb)]].
    + destruct (calculate_metrics_no_benchmark_keys returns benchmark_returns)
        as [-> _]; [done|by left|].
      split; [by intros [? ?]|]. intros [_ (b & -> & Hb)]. done.
    + destruct (calculate_metrics_no_benchmark_keys returns benchmark_returns)
        as [-> _]; [done|by right|].
      split; [by intros [? ?]|]. intros [_ (b & Hsome & Hb)].
      rewrite Hn in Hsome. by injection Hsome as <-.
    + destruct (calculate_metrics_benchmark_keys returns b Hr Hb) as [Hbeta _].
      split; [|done]. intros _. split; [done|]. by exists b.
  - destruct Hcases as [Hn|[Hn|(b & -> & Hb)]].
    + destruct (calculate_metrics_no_benchmark_keys returns benchmark_returns)
        as [-> ->]; [done|by left|]. done.
    + destruct (calculate_metrics_no_benchmark_keys returns benchmark_returns)
        as [-> ->]; [done|by right|]. done.
    + destruct (calculate_metrics_benchmark_keys returns b Hr Hb) as [? ?].
      by split.
Qed.

Lemma X4_witness :
  is_Some (calculate_metrics flat_returns None !! "sharpe_ratio")
  ∧ ¬ is_Some (calculate_metrics flat_returns None !! "beta").
Proof.
  destruct (X4_metrics_keys flat_returns None) as (_ & Hkeys & Hbeta & _).
  split.
  - by apply Hkeys.
  - intros (_ & b & Hb & _)%Hbeta. done.
Defined.

(** ** Bounds on the maximum drawdown *)

Lemma fmin_list_bounded (P : R → Prop) (l : list fnum) :
  (∀ x y, P x → P y → P (Rmin x y)) →
  l ≠ [] → Forall (λ d, ∃ x, d = Some x ∧ P x) l →
  ∃ m, fmin_list l = Some m ∧ P m.
Proof.
  intros Hmin Hne Hall. unfold fmin_list.
  destruct l as [|d l]; [done|].
  apply Forall_cons in Hall as [(x & -> & Hx) Hall]. cbn [omap list_omap].
  clear Hne. revert x Hx. induction Hall as [|d' l' (y & -> & Hy) _ IH]; intros x Hx.
  - exists x. by split.
  - cbn [omap list_omap foldl]. apply IH. by apply Hmin.
Qed.

Lemma ratio_to_peak c b : 0 < c → c <= b → -1 < c / b - 1 <= 0.
Proof.
  intros Hc Hb. assert (0 < b) as Hb0 by lra.
  assert (0 < / b) as Hinv by (by apply Rinv_0_lt_compat).
  assert (c * / b <= b * / b) as Hle by (apply Rmult_le_compat_r; lra).
  rewrite Rinv_r in Hle by lra.
  assert (0 < c * / b) by (by apply Rmult_lt_0_compat).
  unfold Rdiv. lra.
Qed.

(** With growth factors that stay positive, every drawdown the loop meets
    is a number in (-1, 0]. *)
Lemma drawdowns_from_bounds acc best (v : list R) :
  0 < acc →
  match best with Some b => acc <= b | None => True end →
  Forall (λ r, -1 < r) v →
  Forall (λ d, ∃ x, d = Some x ∧ -1 < x <= 0) (drawdowns_from acc best v).
Proof.
  intros Hacc Hbest Hv. revert acc best Hacc Hbest.
  induction Hv as [|r v Hr _ IH]; intros acc best Hacc Hbest; [constructor|].
  cbn [drawdowns_from].
  assert (0 < acc * (1 + r)) as Hc by (apply Rmult_lt_0_compat; lra).
  assert (∃ b, running_max best (Some (acc * (1 + r))) = Some b
               ∧ acc * (1 + r) <= b) as (b & -> & Hb).
  { destruct best as [b0|]; simpl; eexists; (split; [reflexivity|]).
    - apply Rmax_r.
    - lra. }
  constructor.
  - rewrite fdiv_Some by lra. eexists. split; [reflexivity|].
    by apply ratio_to_peak.
  - by apply IH.
Qed.

(** With growth factors that never fall, every drawdown the loop meets is
    0. *)
Lemma drawdowns_from_no_loss acc best (v : list R) :
  0 < acc →
  match best with Some b => b = acc | None => True end →
  Forall (λ r, 0 <= r) v →
  Forall (λ d, d = Some 0) (drawdowns_from acc best v).
Proof.
  intros Hacc Hbest Hv. revert acc best Hacc Hbest.
  induction Hv as [|r v Hr _ IH]; intros acc best Hacc Hbest; [constructor|].
  cbn [drawdowns_from].
  assert (acc <= acc * (1 + r)) as Hgrow by nra.
  assert (running_max best (Some (acc * (1 + r))) = Some (acc * (1 + r))) as ->.
  { destruct best as [b0|]; simpl; [|done]. subst b0. by rewrite Rmax_right. }
  constructor.
  - rewrite fdiv_Some by lra. simpl. f_equal. field. lra.
  - apply IH; [lra|done].
Qed.

(** X5.  On returns that are all above -1 (prices stay positive), with at
    least one of them a number, the maximum drawdown the calculator stores
    is a number d with -1 < d <= 0. *)
Theorem X5_max_drawdown_between_minus_one_and_zero
    (returns : Series) (benchmark_returns : option Series) :
  valid returns ≠ [] → Forall (λ r, -1 < r) (valid returns) →
  ∃ d, calculate_metrics returns benchmark_returns !! "max_drawdown"
       = Some (Some d)
       ∧ -1 < d <= 0.
Proof.
  intros Hne Hv.
  assert (returns ≠ []) as Hr by (by intros ->).
  destruct (calculate_metrics_base returns benchmark_returns Hr)
    as (_ & _ & _ & ->).
  rewrite max_drawdown_drawdowns_from.
  destruct (fmin_list_bounded (λ x, -1 < x <= 0)
              (drawdowns_from 1 NaN (valid returns))) as (d & -> & Hd).
  - intros x y Hx Hy. unfold Rmin. destruct (Rle_dec x y); lra.
  - by destruct (valid returns).
  - apply drawdowns_from_bounds; [lra|done|done].
  - by exists d.
Qed.

Lemma X5_witness :
  valid scenario_returns ≠ [] ∧ Forall (λ r, -1 < r) (valid scenario_returns)
  ∧ ∃ d, calculate_metrics scenario_returns None !! "max_drawdown"
         = Some (Some d) ∧ -1 < d <= 0.
Proof.
  assert (valid scenario_returns ≠ []) as Hne by done.
  assert (Forall (λ r, -1 < r) (valid scenario_returns)) as Hv.
  { change (valid scenario_returns) with [0.01; -0.02; 0.03].
    repeat constructor; lra. }
  split; [exact Hne|]. split; [exact Hv|].
  exact (X5_max_drawdown_between_minus_one_and_zero scenario_returns None Hne Hv).
Defined.

(** X6.  On returns none of which is negative, with at least one of them a
    number, the maximum drawdown is exactly 0: a series that never loses
    has no drawdown. *)
Theorem X6_no_loss_no_drawdown
    (returns : Series) (benchmark_returns : option Series) :
  valid returns ≠ [] → Forall (λ r, 0 <= r) (valid returns) →
  calculate_metrics returns benchmark_returns !! "max_drawdown" = Some (Some 0).
Proof.
  intros Hne Hv.
  assert (returns ≠ []) as Hr by (by intros ->).
  destruct (calculate_metrics_base returns benchmark_returns Hr)
    as (_ & _ & _ & ->).
  rewrite max_drawdown_drawdowns_from.
  destruct (fmin_list_bounded (λ x, x = 0)
              (drawdowns_from 1 NaN (valid returns))) as (d & -> & ->).
  - intros x y -> ->. unfold Rmin. by destruct (Rle_dec 0 0).
  - by destruct (valid returns).
  - eapply Forall_impl; [apply drawdowns_from_no_loss; [lra|done|done]|].
    intros d ->. by exists 0.
  - done.
Qed.

Lemma X6_witness :
  valid flat_returns ≠ [] ∧ Forall (λ r, 0 <= r) (valid flat_returns)
  ∧ calculate_metrics flat_returns None !! "max_drawdown" = Some (Some 0).
Proof.
  assert (valid flat_returns ≠ []) as Hne by done.
  assert (Forall (λ r, 0 <= r) (valid flat_returns)) as Hv.
  { change (valid flat_returns) with [0.01; 0.01]. repeat constructor; lra. }
  split; [exact Hne|]. split; [exact Hv|].
  exact (X6_no_loss_no_drawdown flat_returns None Hne Hv).
Defined.

(** ** Dates without a return *)

Lemma valid_dropna (s : Series) : valid (dropna s) = valid s.
Proof.
  unfold dropna. induction s as [|[d [x|]] s IH].
  - done.
  - rewrite filter_cons_True by (by eexists). by rewrite !valid_cons_Some, IH.
  - rewrite filter_cons_False by (by intros [? ?]). by rewrite valid_cons_NaN.
Qed.

Lemma smap_dropna c (s : Series) :
  valid (smap (λ r, fsub r (Some c)) (dropna s))
  = valid (smap (λ r, fsub r (Some c)) s).
Proof. by rewrite !valid_smap_sub, valid_dropna. Qed.

Lemma joined_pairs_dropna (s1 s2 : Series) :
  joined_pairs (dropna s1) s2 = joined_pairs s1 s2.
Proof.
  unfold joined_pairs, dropna. induction s1 as [|[d [x|]] s1 IH].
  - done.
  - rewrite filter_cons_True by (by eexists). cbn [omap list_omap fst snd].
    by rewrite IH.
  - rewrite filter_cons_False by (by intros [? ?]). done.
Qed.

Lemma mean_valid (s s' : Series) : valid s = valid s' → mean s = mean s'.
Proof. unfold mean. by intros ->. Qed.

Lemma std_valid (s s' : Series) : valid s = valid s' → std s = std s'.
Proof. unfold std, var. by intros ->. Qed.

(** X7.  Dates whose return is not a number do not weigh on the metrics: as
    long as one return is a number, the calculator gives the same dict on
    the series and on the series with those dates dropped. *)
Theorem X7_metrics_ignore_undefined_returns
    (returns : Series) (benchmark_returns : option Series) :
  valid returns ≠ [] →
  calculate_metrics returns benchmark_returns
  = calculate_metrics (dropna returns) benchmark_returns.
Proof.
  intros Hne.
  assert (returns ≠ []) as Hr by (by intros ->).
  assert (dropna returns ≠ []) as Hd.
  { intros Hnil. apply Hne. by rewrite <- valid_dropna, Hnil. }
  unfold calculate_metrics.
  destruct returns as [|e returns]; [done|].
  destruct (dropna (e :: returns)) as [|e' dropped] eqn:Hdrop; [done|].
  cbn [empty]. rewrite <- Hdrop.
  assert (annualized_return (dropna (e :: returns))
          = annualized_return (e :: returns)) as ->.
  { unfold annualized_return.
    by rewrite (mean_valid _ (e :: returns)) by apply valid_dropna. }
  assert (std (dropna (e :: returns)) = std (e :: returns)) as Hstd
    by apply std_valid, valid_dropna.
  assert (sharpe_ratio (dropna (e :: returns)) = sharpe_ratio (e :: returns)) as ->.
  { unfold sharpe_ratio. rewrite Hstd.
    by rewrite (mean_valid _ (smap (λ r, fsub r (Some (risk_free_rate / 252)))
                                (e :: returns))) by apply smap_dropna. }
  assert (max_drawdown (dropna (e :: returns)) = max_drawdown (e :: returns)) as ->
    by (by rewrite !max_drawdown_min_drawdown, valid_dropna).
  rewrite Hstd. destruct benchmark_returns as [b|]; [|done].
  unfold cov. by rewrite joined_pairs_dropna.
Qed.

Lemma X7_witness :
  valid ((0%Z, NaN) :: scenario_returns) ≠ []
  ∧ calculate_metrics ((0%Z, NaN) :: scenario_returns) None
    = calculate_metrics scenario_returns None.
Proof.
  assert (valid ((0%Z, NaN) :: scenario_returns) ≠ []) as Hne by done.
  split; [exact Hne|].
  rewrite (X7_metrics_ignore_undefined_returns _ None Hne).
  reflexivity.
Defined.

(** ** A series against itself *)

Lemma joined_pairs_at_date (s1 s2 : Series) :
  joined_pairs s1 s2
  = omap (λ e, match e.2, at_date s2 e.1 with
               | Some x, Some y => Some (x, y)
               | _, _ => None
               end) s1.
Proof.
  unfold joined_pairs, at_date. apply list_omap_ext.
  apply Forall2_same_length_lookup_2; [done|].
  intros i e e' He He'. rewrite He in He'. injection He' as <-.
  destruct e.2; [|done].
  by destruct (list_find _ s2) as [[j [d [y|]]]|].
Qed.

Lemma joined_pairs_within (s1 s : Series) :
  (∀ e, e ∈ s1 → e ∈ s) → NoDup s.*1 →
  joined_pairs s1 s = map (λ x, (x, x)) (valid s1).
Proof.
  intros Hsub Hnd. rewrite joined_pairs_at_date.
  induction s1 as [|[d [x|]] s1 IH]; [done| |].
  - cbn [omap list_omap fst snd].
    rewrite (at_date_here s d (Some x)) by (apply Hsub, list_elem_of_here || done).
    rewrite valid_cons_Some. cbn [map]. f_equal.
    apply IH. intros e He. by apply Hsub, list_elem_of_further.
  - cbn [omap list_omap fst snd]. rewrite valid_cons_NaN.
    apply IH. intros e He. by apply Hsub, list_elem_of_further.
Qed.

Lemma cov_self (s : Series) : NoDup s.*1 → cov s s = var s.
Proof. intros Hnd. unfold cov, var. by rewrite joined_pairs_within. Qed.

(** X8.  A return series with distinct dates and at least two numbers,
    measured against itself as benchmark, has beta = 1 and alpha = 0,
    whether its variance is zero (the fallback) or not (the quotient). *)
Theorem X8_self_benchmark (returns : Series) :
  NoDup returns.*1 → (2 ≤ length (valid returns))%nat →
  calculate_metrics returns (Some returns) !! "beta" = Some (Some 1)
  ∧ calculate_metrics returns (Some returns) !! "alpha" = Some (Some 0).
Proof.
  intros Hnd Hlen.
  assert (returns ≠ []) as Hr by (intros ->; simpl in Hlen; lia).
  destruct (calculate_metrics_benchmark returns returns Hr Hr) as [Hz Hnz].
  destruct (decide (var returns = Some 0)) as [Hv|Hv]; [by apply Hz|].
  destruct (Hnz Hv) as [-> ->]. rewrite cov_self by done.
  unfold annualized_return.
  rewrite mean_numbers by (destruct (valid returns); simpl in *; [lia|done]).
  rewrite var_numbers in * by done.
  assert (sample_variance (valid returns) ≠ 0) as Hv0 by congruence.
  rewrite fdiv_Some by done. cbn [fadd fpow fsub fmul].
  split; do 2 f_equal; field; done.
Qed.

Lemma X8_witness :
  NoDup scenario_returns.*1 ∧ (2 ≤ length (valid scenario_returns))%nat
  ∧ calculate_metrics scenario_returns (Some scenario_returns) !! "beta"
    = Some (Some 1).
Proof.
  assert (NoDup scenario_returns.*1) as Hnd
    by (simpl; repeat constructor; set_solver).
  assert (2 ≤ length (valid scenario_returns))%nat as Hlen by (simpl; lia).
  split; [exact Hnd|]. split; [exact Hlen|].
  apply (X8_self_benchmark scenario_returns Hnd Hlen).
Defined.

(** ** Signs of the Sharpe ratio and of the annualized return *)

Lemma foldl_Rplus_map_sub a c (v : list R) :
  foldl Rplus a (map (λ r, r - c) v) = foldl Rplus a v - c * INR (length v).
Proof.
  revert a. induction v as [|x v IH]; intros a.
  - simpl. lra.
  - cbn [map foldl length]. rewrite IH, S_INR.
    rewrite (foldl_Rplus_shift (a + (x - c))), (foldl_Rplus_shift (a + x)). lra.
Qed.

Lemma list_mean_shift c (v : list R) :
  v ≠ [] → list_mean (map (λ r, r - c) v) = list_mean v - c.
Proof.
  intros Hv. unfold list_mean, py_sum.
  rewrite foldl_Rplus_map_sub, length_map.
  assert (INR (length v) ≠ 0) as Hn.
  { apply not_0_INR. by destruct v. }
  field. done.
Qed.

Lemma std_nonzero_positive (s : Series) sd :
  std s = Some sd → sd ≠ 0 → 0 < sd.
Proof.
  unfold std. destruct (var s) as [x|]; [|done]. intros [= <-] Hsd.
  pose proof (sqrt_pos x). lra.
Qed.

(** X9.  When the standard deviation of the returns is a nonzero number it
    is positive, the Sharpe ratio stored is sqrt(252) * (mean - 0.02/252) /
    std, and it is positive exactly when the mean return exceeds the daily
    risk-free rate 0.02/252. *)
Theorem X9_sharpe_ratio_sign
    (returns : Series) (benchmark_returns : option Series) (sd : R) :
  std returns = Some sd → sd ≠ 0 →
  let mu := list_mean (valid returns) in
  let sh := sqrt 252 * (mu - 0.02 / 252) / sd in
  0 < sd
  ∧ calculate_metrics returns benchmark_returns !! "sharpe_ratio" = Some (Some sh)
  ∧ (0 < sh ↔ 0.02 / 252 < mu).
Proof.
  intros Hs Hsd mu sh.
  assert (0 < sd) as Hpos by (by eapply std_nonzero_positive).
  assert (valid returns ≠ []) as Hv.
  { unfold std in Hs. destruct (var returns) as [x|] eqn:Hx; [|done].
    by eapply var_Some_valid. }
  assert (returns ≠ []) as Hr by (by intros ->).
  split; [done|]. split.
  - destruct (calculate_metrics_base returns benchmark_returns Hr)
      as (_ & _ & -> & _).
    rewrite sharpe_ratio_nonzero_std by congruence.
    rewrite mean_numbers; rewrite valid_smap_sub.
    + rewrite Hs, list_mean_shift by done. cbn [fmul]. by rewrite fdiv_Some.
    + by destruct (valid returns).
  - assert (0 < sqrt 252) as Hk by (apply sqrt_lt_R0; lra).
    assert (0 < / sd) as Hinv by (by apply Rinv_0_lt_compat).
    assert (0 < sqrt 252 * / sd) as Hc by (by apply Rmult_lt_0_compat).
    replace sh with (sqrt 252 * / sd * (mu - 0.02 / 252))
      by (unfold sh, Rdiv; lra).
    split; intros H; nra.
Qed.

Lemma X9_witness :
  ∃ sd, std scenario_returns = Some sd ∧ sd ≠ 0 ∧ 0 < sd.
Proof.
  assert (std scenario_returns = Some (sample_stddev (valid scenario_returns)))
    as Hs by (apply std_numbers; simpl; lia).
  assert (sample_stddev (valid scenario_returns) ≠ 0) as Hsd.
  { change (valid scenario_returns) with [0.01; -0.02; 0.03].
    unfold sample_stddev. intros H0%sqrt_eq_0.
    - unfold sample_variance, list_mean, py_sum in H0. simpl in H0. lra.
    - unfold sample_variance, list_mean, py_sum. simpl. lra. }
  eexists. split; [exact Hs|]. split; [exact Hsd|].
  apply (X9_sharpe_ratio_sign scenario_returns None _ Hs Hsd).
Defined.

Lemma pow_gt_1_iff x n : 0 <= x → (0 < n)%nat → (1 < x ^ n ↔ 1 < x).
Proof.
  intros Hx Hn. split.
  - intros Hpow. destruct (Rlt_dec 1 x) as [|Hle]; [done|].
    assert (x ^ n <= 1 ^ n) as H by (apply pow_incr; lra).
    rewrite pow1 in H. lra.
  - intros H1. by apply Rlt_pow_R1.
Qed.

(** X10.  When the mean return is a number not below -1, the annualized
    return stored is (1 + mean)^252 - 1; it is never below -1, it is
    positive exactly when the mean is positive, and 0 when the mean is 0. *)
Theorem X10_annualized_return_sign
    (returns : Series) (benchmark_returns : option Series) (mu : R) :
  mean returns = Some mu → -1 <= mu →
  let ar := (1 + mu) ^ 252 - 1 in
  calculate_metrics returns benchmark_returns !! "annualized_return"
    = Some (Some ar)
  ∧ -1 <= ar ∧ (0 < ar ↔ 0 < mu) ∧ (mu = 0 → ar = 0).
Proof.
  intros Hm Hmu ar.
  assert (returns ≠ []) as Hr by (by intros ->).
  destruct (calculate_metrics_base returns benchmark_returns Hr) as (-> & _).
  unfold annualized_return. rewrite Hm. cbn [fadd fpow fsub].
  split; [done|]. subst ar. split_and!.
  - assert (0 <= (1 + mu) ^ 252) by (apply pow_le; lra). lra.
  - pose proof (pow_gt_1_iff (1 + mu) 252) as Hiff.
    split; intros H.
    + assert (1 < 1 + mu) by (apply Hiff; [lra|lia|lra]). lra.
    + assert (1 < (1 + mu) ^ 252) by (apply Hiff; [lra|lia|lra]). lra.
  - intros ->. replace (1 + 0) with 1 by lra. rewrite pow1. lra.
Qed.

Lemma X10_witness :
  mean flat_returns = Some (list_mean (valid flat_returns))
  ∧ -1 <= list_mean (valid flat_returns)
  ∧ -1 <= (1 + list_mean (valid flat_returns)) ^ 252 - 1.
Proof.
  assert (mean flat_returns = Some (list_mean (valid flat_returns))) as Hm
    by (by apply mean_numbers).
  assert (-1 <= list_mean (valid flat_returns)) as Hmu.
  { change (valid flat_returns) with [0.01; 0.01].
    unfold list_mean, py_sum. simpl. lra. }
  split; [exact Hm|]. split; [exact Hmu|].
  apply (X10_annualized_return_sign flat_returns None _ Hm Hmu).
Defined.

(** ** A portfolio of one asset *)

Lemma smap_id_on (f : fnum → fnum) (s : Series) :
  (∀ x, f x = x) → smap f s = s.
Proof.
  intros Hf. unfold smap. induction s as [|[d x] s IH]; [done|].
  cbn [map fst snd]. by rewrite Hf, IH.
Qed.

Lemma single_asset_returns_exact history ticker w start_date end_date prices :
  prices ≠ [] → NoDup prices.*1 → w ≠ 0 →
  history ticker start_date end_date = Returned (Close prices) →
  (get_portfolio_historical_data history [ticker] [w] start_date end_date).2
  = pct_change (close_series prices).
Proof.
  intros Hp Hnd Hw Hh.
  rewrite (single_asset_returns _ _ _ _ _ prices) by done.
  apply smap_id_on. intros [r|]; [|done]. cbn [fmul fadd]. f_equal. field. lra.
Qed.

(** X11.  For a single ticker with a nonzero weight and a close series with
    distinct dates and nonzero prices, the series builder returns the
    ticker's own return series, the same as the benchmark builder gives for
    that ticker, and from the second date on the portfolio value series
    equals the benchmark's normalized series; at the first date the
    portfolio value is not a number while the normalized series has 100. *)
Theorem X11_single_asset_portfolio_tracks_its_asset
    (history : string → option string → option string → outcome History)
    (ticker : string) (w : R) (start_date end_date : option string)
    (prices : list (Z * R)) :
  ticker ≠ "" → w ≠ 0 → prices ≠ [] → NoDup prices.*1 →
  Forall (λ e, e.2 ≠ 0) prices →
  history ticker start_date end_date = Returned (Close prices) →
  let portfolio := get_portfolio_historical_data history [ticker] [w]
                     start_date end_date in
  let bench := get_benchmark_data history ticker start_date end_date in
  portfolio.2 = pct_change (close_series prices)
  ∧ bench.2 = portfolio.2
  ∧ (∀ i, (0 < i)%nat → portfolio.1 !! i = bench.1 !! i)
  ∧ (∃ d, portfolio.1 !! 0%nat = Some (d, NaN)
          ∧ bench.1 !! 0%nat = Some (d, Some 100)).
Proof.
  intros Ht Hw Hp Hnd Hnz Hh portfolio bench.
  assert (portfolio.2 = pct_change (close_series prices)) as Hpr
    by (by apply single_asset_returns_exact).
  assert (bench.2 = pct_change (close_series prices)) as Hbr
    by (subst bench; by rewrite (get_benchmark_data_close _ _ _ _ prices)).
  assert (portfolio.1 = value_of_returns (pct_change (close_series prices)))
    as Hpv by (rewrite <- Hpr; apply portfolio_value_of_returns).
  destruct (benchmark_value_growth history ticker start_date end_date prices
              Ht Hp Hnz Hh) as [_ Hbv].
  fold bench in Hbv. rewrite Hbr in Hbv.
  split; [done|]. split; [congruence|]. split.
  - intros i Hi. rewrite Hpv.
    destruct (prices !! i) as [[d p]|] eqn:Hpi.
    + rewrite (Hbv i d p Hpi).
      destruct i as [|i]; [lia|].
      destruct (prices !! i) as [[d' q]|] eqn:Hq.
      * apply (value_of_returns_number _ _ _ (p / q - 1)).
        apply (pct_change_close_succ prices i d' q d p); [done..|].
        rewrite Forall_forall in Hnz.
        apply (Hnz (d', q)). by eapply list_elem_of_lookup_2.
      * apply lookup_ge_None in Hq. apply lookup_lt_Some in Hpi. lia.
    + apply lookup_ge_None in Hpi.
      rewrite !(proj2 (lookup_ge_None _ _)); [done|..].
      * subst bench. rewrite (get_benchmark_data_close _ _ _ _ prices) by done.
        cbn [fst]. rewrite smap_length. unfold close_series.
        by rewrite length_map.
      * rewrite value_of_returns_length.
        rewrite <- (length_fmap fst), pct_change_close_index, length_fmap. done.
  - destruct prices as [|[d0 p0] rest]; [done|]. exists d0. split.
    + rewrite Hpv. by apply value_of_returns_NaN.
    + rewrite (Hbv 0%nat d0 p0) by done.
      rewrite (growth_pct_change d0 p0 rest 0%nat d0 p0) by done.
      apply Forall_cons in Hnz as [Hp0 _]. simpl in Hp0.
      do 3 f_equal. field. done.
Qed.

Lemma X11_witness :
  let portfolio := get_portfolio_historical_data two_day_history ["AAPL"] [0.5]
                     None None in
  let bench := get_benchmark_data two_day_history "AAPL" None None in
  bench.2 = portfolio.2 ∧ portfolio.1 !! 1%nat = bench.1 !! 1%nat.
Proof.
  intros portfolio bench.
  destruct (X11_single_asset_portfolio_tracks_its_asset two_day_history "AAPL"
              0.5 None None two_day_prices) as (_ & Hr & Hv & _).
  - done.
  - lra.
  - done.
  - simpl. repeat constructor; set_solver.
  - repeat constructor; simpl; lra.
  - done.
  - split; [exact Hr|]. apply Hv. lia.
Defined.

(** ** Rescaling the weights *)

Import Scale.

Lemma py_sum_scale c (l : list R) : py_sum (map (Rmult c) l) = c * py_sum l.
Proof.
  unfold py_sum.
  assert (∀ a, foldl Rplus (c * a) (map (Rmult c) l) = c * foldl Rplus a l) as H.
  { induction l as [|x l IH]; intros a; simpl; [done|].
    rewrite <- IH. f_equal. lra. }
  rewrite <- H. f_equal. lra.
Qed.

Lemma fetch_loop_scale history start_date end_date c pairs st :
  fetch_loop history start_date end_date
    (map (λ item : string * R, (item.1, c * item.2)) pairs) (scale_fetched c st)
  = match fetch_loop history start_date end_date pairs st with
    | Returned st' => Returned (scale_fetched c st')
    | Raised e => Raised e
    end.
Proof.
  revert st. induction pairs as [|[t w] rest IH]; intros st; [done|].
  cbn [map fetch_loop fst snd].
  destruct (history t start_date end_date) as [[|[|e prices]]|e]; cbn.
  - apply IH.
  - apply IH.
  - rewrite <- IH. f_equal. unfold scale_fetched. cbn. f_equal.
    by rewrite map_app.
  - done.
Qed.

Lemma zip_scale (tickers : list string) c (weights : list R) :
  zip tickers (map (Rmult c) weights)
  = map (λ item : string * R, (item.1, c * item.2)) (zip tickers weights).
Proof.
  revert weights. induction tickers as [|t tickers IH]; intros [|w weights];
    simpl; [done..|]. by rewrite IH.
Qed.

Lemma mapM_outcome_cons {A B} (f : A → outcome B) x l :
  mapM f (x :: l)
  = match f x with
    | Returned y => match mapM f l with
                    | Returned k => Returned (y :: k)
                    | Raised e => Raised e
                    end
    | Raised e => Raised e
    end.
Proof. done. Qed.

Lemma mapM_py_div_zero (l : list R) :
  l ≠ [] → mapM (λ w, py_div w 0) l = Raised ZeroDivisionError.
Proof.
  destruct l as [|w l]; [done|]. intros _. rewrite mapM_outcome_cons.
  unfold py_div at 1. by rewrite decide_True.
Qed.

Lemma mapM_py_div_nonzero (l : list R) W :
  W ≠ 0 → mapM (λ w, py_div w W) l = Returned (map (λ w, w / W) l).
Proof.
  intros HW. induction l as [|w l IH]; [done|].
  rewrite mapM_outcome_cons, IH. unfold py_div.
  by rewrite decide_False.
Qed.

Lemma normalized_weights_scale c (l : list R) :
  c ≠ 0 →
  mapM (λ w, py_div w (py_sum (map (Rmult c) l))) (map (Rmult c) l)
  = mapM (λ w, py_div w (py_sum l)) l.
Proof.
  intros Hc. rewrite py_sum_scale.
  destruct (decide (py_sum l = 0)) as [H0|Hnz].
  - rewrite H0, Rmult_0_r.
    destruct l as [|w l]; [done|]. by rewrite !mapM_py_div_zero.
  - rewrite !mapM_py_div_nonzero by (done || by apply Rmult_integral_contrapositive).
    f_equal. rewrite map_map. apply map_ext. intros w. field. by split.
Qed.

(** The series builder only sees the proportions of the weights. *)
Lemma series_builder_scale history tickers weights start_date end_date c :
  c ≠ 0 →
  get_portfolio_historical_data history tickers (map (Rmult c) weights)
    start_date end_date
  = get_portfolio_historical_data history tickers weights start_date end_date.
Proof.
  intros Hc. unfold get_portfolio_historical_data, portfolio_historical_body.
  assert (bool_decide (map (Rmult c) weights = []) = bool_decide (weights = []))
    as -> by (by destruct weights).
  destruct (bool_decide (tickers = []) || bool_decide (weights = [])); [done|].
  rewrite zip_scale.
  change (mkFetched df_new df_new [] [])
    with (scale_fetched c (mkFetched df_new df_new [] [])) at 1.
  rewrite fetch_loop_scale.
  destruct (fetch_loop history start_date end_date (zip tickers weights) _)
    as [st|e]; [|done].
  cbn [mbind outcome_bind scale_fetched data valid_tickers valid_weights returns].
  destruct (df_empty (data st) || bool_decide (valid_tickers st = [])); [done|].
  by rewrite normalized_weights_scale.
Qed.

(** X12.  Multiplying every weight by the same nonzero factor changes
    neither series the series builder returns: only the proportions of the
    weights count, they need not sum to 1. *)
Theorem X12_series_builder_scale_invariant
    (history : string → option string → option string → outcome History)
    (tickers : list string) (weights : list R)
    (start_date end_date : option string) (c : R) :
  c ≠ 0 →
  get_portfolio_historical_data history tickers (map (Rmult c) weights)
    start_date end_date
  = get_portfolio_historical_data history tickers weights start_date end_date.
Proof. apply series_builder_scale. Qed.

Lemma X12_witness :
  100 ≠ 0
  ∧ get_portfolio_historical_data two_day_history ["AAPL"]
      (map (Rmult 100) [0.5]) None None
    = get_portfolio_historical_data two_day_history ["AAPL"] [0.5] None None.
Proof.
  assert (100 ≠ 0) as Hc by lra.
  split; [exact Hc|].
  apply (X12_series_builder_scale_invariant two_day_history ["AAPL"] [0.5]
           None None 100 Hc).
Defined.

Lemma with_performance_same m : with_performance (performance_metrics m) m = m.
Proof. by destruct m. Qed.

(** The body of the aggregator, step by step, once the working portfolio is
    known. *)
Lemma portfolio_metrics_body_exact history quote portfolio start_date end_date
    benchmark preference P' m :
  working_portfolio quote portfolio preference = Returned P' →
  portfolio_metrics_body history quote portfolio start_date end_date
    benchmark preference m
  = esg_and_exposures quote P'
      (with_performance
         (performance_after history P' start_date end_date benchmark m) m).
Proof.
  intros HP'. unfold portfolio_metrics_body, performance_after.
  unfold mbind at 1, Body_bind at 1, lift at 1. rewrite HP'.
  destruct (get_portfolio_historical_data history P'.*1 P'.*2 start_date end_date)
    as [pv pr]. cbn [snd].
  destruct pr as [|e pr]; cbn [empty negb].
  - by rewrite with_performance_same.
  - done.
Qed.

Lemma scale_portfolio_keys c portfolio : (scale_portfolio c portfolio).*1 = portfolio.*1.
Proof.
  unfold scale_portfolio. induction portfolio as [|[t w] rest IH]; [done|].
  simpl. by f_equal.
Qed.

Lemma scale_portfolio_values c portfolio :
  (scale_portfolio c portfolio).*2 = map (Rmult c) portfolio.*2.
Proof.
  unfold scale_portfolio. induction portfolio as [|[t w] rest IH]; [done|].
  simpl. by f_equal.
Qed.

Lemma weights_getitem_scale c portfolio key :
  weights_getitem (scale_portfolio c portfolio) key
  = match weights_getitem portfolio key with
    | Returned w => Returned (c * w)
    | Raised e => Raised e
    end.
Proof.
  unfold weights_getitem, scale_portfolio.
  change (map ?f portfolio) with (f <$> portfolio).
  rewrite list_find_fmap.
  change (list_find _ portfolio) with (list_find (λ kv : string * R, kv.1 = key) portfolio).
  by destruct (list_find (λ kv : string * R, kv.1 = key) portfolio) as [[i kv]|].
Qed.

Lemma filtered_portfolio_scale c portfolio stocks :
  filtered_portfolio (scale_portfolio c portfolio) stocks
  = match filtered_portfolio portfolio stocks with
    | Returned P' => Returned (scale_portfolio c P')
    | Raised e => Raised e
    end.
Proof.
  unfold filtered_portfolio. induction stocks as [|s stocks IH]; [done|].
  rewrite !mapM_outcome_cons, IH.
  unfold mbind, outcome_bind. rewrite weights_getitem_scale.
  destruct (weights_getitem portfolio (ticker s)) as [w|e]; [|done].
  clear IH. unfold mret, outcome_ret. destruct (mapM _ stocks); reflexivity.
Qed.

Lemma working_portfolio_scale quote c portfolio preference :
  working_portfolio quote (scale_portfolio c portfolio) preference
  = match working_portfolio quote portfolio preference with
    | Returned P' => Returned (scale_portfolio c P')
    | Raised e => Raised e
    end.
Proof.
  unfold working_portfolio. rewrite scale_portfolio_keys.
  destruct preference as [name|]; [|done].
  destruct (truthy (Some name)); [|done].
  apply filtered_portfolio_scale.
Qed.

Lemma resolved_weights_scale quote c portfolio :
  resolved_weights quote (scale_portfolio c portfolio)
  = map (Rmult c) (resolved_weights quote portfolio).
Proof.
  unfold resolved_weights, scale_portfolio.
  induction portfolio as [|[t w] rest IH]; [done|].
  cbn [map omap list_omap fst snd].
  destruct (get_stock_data quote t); cbn [map]; by rewrite IH.
Qed.

Lemma esg_item_scale quote c W m (item : string * R) :
  c ≠ 0 → W ≠ 0 →
  esg_item quote (c * W) m (item.1, c * item.2) = esg_item quote W m item.
Proof.
  intros Hc HW. unfold esg_item. cbn [fst snd].
  destruct (get_stock_data quote item.1) as [data|]; [|done].
  replace (c * item.2 / (c * W)) with (item.2 / W) by (field; by split).
  done.
Qed.

Lemma foldl_esg_item_scale quote c W portfolio m :
  c ≠ 0 → W ≠ 0 →
  foldl (esg_item quote (c * W)) m (scale_portfolio c portfolio)
  = foldl (esg_item quote W) m portfolio.
Proof.
  intros Hc HW. revert m. unfold scale_portfolio.
  induction portfolio as [|item rest IH]; intros m; [done|].
  cbn [map foldl]. by rewrite esg_item_scale, IH.
Qed.

Lemma esg_and_exposures_scale quote c portfolio m :
  c ≠ 0 →
  (esg_and_exposures quote (scale_portfolio c portfolio) m).2
  = (esg_and_exposures quote portfolio m).2.
Proof.
  intros Hc.
  destruct (decide (py_sum (resolved_weights quote portfolio) = 0)) as [H0|Hnz].
  - rewrite !esg_and_exposures_zero; [done|done|].
    by rewrite resolved_weights_scale, py_sum_scale, H0, Rmult_0_r.
  - rewrite !esg_and_exposures_nonzero; [|done|].
    + cbn [snd]. rewrite resolved_weights_scale, py_sum_scale.
      by apply foldl_esg_item_scale.
    + rewrite resolved_weights_scale, py_sum_scale.
      by apply Rmult_integral_contrapositive.
Qed.

Lemma performance_after_scale history c working start_date end_date benchmark m :
  c ≠ 0 →
  performance_after history (scale_portfolio c working) start_date end_date
    benchmark m
  = performance_after history working start_date end_date benchmark m.
Proof.
  intros Hc. unfold performance_after.
  by rewrite scale_portfolio_keys, scale_portfolio_values, series_builder_scale.
Qed.

(** X13.  Multiplying every weight of the portfolio by the same nonzero
    factor does not change the metrics the aggregator returns: weights given
    in percent or as fractions lead to the same result. *)
Theorem X13_aggregator_scale_invariant
    (history : string → option string → option string → outcome History)
    (quote : string → option Quote) (portfolio : list (string * R))
    (start_date end_date benchmark preference : option string) (c : R) :
  c ≠ 0 →
  calculate_portfolio_metrics history quote (scale_portfolio c portfolio)
    start_date end_date benchmark preference
  = calculate_portfolio_metrics history quote portfolio
      start_date end_date benchmark preference.
Proof.
  intros Hc. unfold calculate_portfolio_metrics.
  destruct portfolio as [|item rest]; [done|].
  change (scale_portfolio c (item :: rest))
    with ((item.1, c * item.2) :: scale_portfolio c rest) at 1.
  cbv iota.
  change ((item.1, c * item.2) :: scale_portfolio c rest)
    with (scale_portfolio c (item :: rest)).
  destruct (working_portfolio_returns quote (item :: rest) preference)
    as (P' & HP' & _).
  rewrite (portfolio_metrics_body_exact _ _ (item :: rest) _ _ _ _ P') by done.
  rewrite (portfolio_metrics_body_exact _ _ (scale_portfolio c (item :: rest))
             _ _ _ _ (scale_portfolio c P'))
    by (by rewrite working_portfolio_scale, HP').
  by rewrite performance_after_scale, esg_and_exposures_scale.
Qed.

Lemma X13_witness :
  100 ≠ 0
  ∧ calculate_portfolio_metrics two_day_history scenario_quote
      (scale_portfolio 100 [("A", 0.5); ("B", 0.5)]) None None None None
    = calculate_portfolio_metrics two_day_history scenario_quote
        [("A", 0.5); ("B", 0.5)] None None None None.
Proof.
  assert (100 ≠ 0) as Hc by lra.
  split; [exact Hc|].
  apply (X13_aggregator_scale_invariant two_day_history scenario_quote
           [("A", 0.5); ("B", 0.5)] None None None None 100 Hc).
Defined.

(** ** The ESG part does not look at prices *)

Lemma esg_item_with_performance quote W perf m item :
  esg_item quote W (with_performance perf m) item
  = with_performance perf (esg_item quote W m item).
Proof. unfold esg_item. by destruct (get_stock_data quote item.1). Qed.

Lemma foldl_esg_item_with_performance quote W perf m portfolio :
  foldl (esg_item quote W) (with_performance perf m) portfolio
  = with_performance perf (foldl (esg_item quote W) m portfolio).
Proof.
  revert m. induction portfolio as [|item rest IH]; intros m; [done|].
  cbn [foldl]. by rewrite esg_item_with_performance, IH.
Qed.

Lemma esg_and_exposures_with_performance quote portfolio perf m :
  (esg_and_exposures quote portfolio (with_performance perf m)).2
  = with_performance perf (esg_and_exposures quote portfolio m).2.
Proof.
  destruct (decide (py_sum (resolved_weights quote portfolio) = 0)) as [H0|Hnz].
  - by rewrite !esg_and_exposures_zero.
  - rewrite !esg_and_exposures_nonzero by done. cbn [snd].
    apply foldl_esg_item_with_performance.
Qed.

(** The result of the aggregator: the second loop run on the initial
    metrics, with the performance entry of the performance step. *)
Lemma calculate_portfolio_metrics_split history quote portfolio start_date
    end_date benchmark preference P' :
  working_portfolio quote portfolio preference = Returned P' →
  calculate_portfolio_metrics history quote portfolio start_date end_date
    benchmark preference
  = with_performance
      (match portfolio with
       | [] => ∅
       | _ => performance_after history P' start_date end_date benchmark
                initial_metrics
       end)
      (esg_and_exposures quote P' initial_metrics).2.
Proof.
  intros HP'. unfold calculate_portfolio_metrics.
  destruct portfolio as [|item rest].
  - destruct (working_portfolio_returns quote [] preference)
      as (P'' & HP'' & Hall & _).
    rewrite HP' in HP''. injection HP'' as <-.
    destruct P' as [|kv P']; [done|].
    apply Forall_cons in Hall as [Hin _]. by apply elem_of_nil in Hin.
  - rewrite (portfolio_metrics_body_exact _ _ _ _ _ _ _ P') by done.
    apply esg_and_exposures_with_performance.
Qed.

(** X14.  The ESG scores and the sector and country exposures the
    aggregator returns depend on the weights, the asset records and the
    strategy only: another price history, date range or benchmark changes
    nothing but the performance entry. *)
Theorem X14_esg_part_independent_of_prices
    (history1 history2 : string → option string → option string → outcome History)
    (quote : string → option Quote) (portfolio : list (string * R))
    (start1 end1 benchmark1 start2 end2 benchmark2 preference : option string) :
  let m1 := calculate_portfolio_metrics history1 quote portfolio start1 end1
              benchmark1 preference in
  let m2 := calculate_portfolio_metrics history2 quote portfolio start2 end2
              benchmark2 preference in
  esg_score m1 = esg_score m2
  ∧ environmental_score m1 = environmental_score m2
  ∧ social_score m1 = social_score m2
  ∧ governance_score m1 = governance_score m2
  ∧ sector_exposure m1 = sector_exposure m2
  ∧ country_exposure m1 = country_exposure m2.
Proof.
  intros m1 m2. subst m1 m2.
  destruct (working_portfolio_returns quote portfolio preference)
    as (P' & HP' & _).
  rewrite (calculate_portfolio_metrics_split history1 _ _ _ _ _ _ P') by done.
  rewrite (calculate_portfolio_metrics_split history2 _ _ _ _ _ _ P') by done.
  by split_and!.
Qed.

(** ** The working portfolio under a strategy *)

Lemma weights_getitem_here (portfolio : list (string * R)) t w :
  (t, w) ∈ portfolio → NoDup portfolio.*1 →
  weights_getitem portfolio t = Returned w.
Proof.
  unfold weights_getitem.
  induction portfolio as [|[t0 w0] rest IH]; intros Hin Hnd;
    [by apply elem_of_nil in Hin|].
  simpl. apply NoDup_cons in Hnd as [Ht0 Hnd].
  apply elem_of_cons in Hin as [Heq|Hin].
  - simplify_eq. by rewrite decide_True.
  - rewrite decide_False.
    + specialize (IH Hin Hnd).
      destruct (list_find _ rest) as [[j e]|]; simpl in *; done.
    + simpl. intros ->. apply Ht0. apply list_elem_of_fmap. by exists (t, w).
Qed.

Lemma filtered_portfolio_kept quote name (portfolio l : list (string * R)) :
  NoDup portfolio.*1 → (∀ item, item ∈ l → item ∈ portfolio) →
  filtered_portfolio portfolio
    (filter (eligible name) (omap (get_stock_data quote) l.*1))
  = Returned (filter (kept quote name) l).
Proof.
  intros Hnd. induction l as [|[t w] rest IH]; intros Hsub; [done|].
  assert (filtered_portfolio portfolio
            (filter (eligible name) (omap (get_stock_data quote) rest.*1))
          = Returned (filter (kept quote name) rest)) as IH'.
  { apply IH. intros item Hin. by apply Hsub, list_elem_of_further. }
  cbn [fmap list_fmap fst omap list_omap]. rewrite (filter_cons (kept quote name)).
  destruct (get_stock_data quote t) as [data|] eqn:Hd.
  - assert (kept quote name (t, w) ↔ eligible name data) as Hk
      by (unfold kept; cbn [fst]; by rewrite Hd).
    rewrite filter_cons.
    destruct (decide (eligible name data)) as [Hel|Hel].
    + destruct (decide (kept quote name (t, w))) as [_|Hn];
        [|destruct Hn; by apply Hk].
      unfold filtered_portfolio in *. rewrite mapM_outcome_cons, IH'.
      apply get_stock_data_record in Hd as [-> _].
      unfold mbind, outcome_bind.
      rewrite (weights_getitem_here portfolio t w);
        [done | apply Hsub, list_elem_of_here | done].
    + destruct (decide (kept quote name (t, w))) as [Hy|_]; [|exact IH'].
      destruct Hel. by apply Hk.
  - destruct (decide (kept quote name (t, w))) as [Hy|_]; [|exact IH'].
    unfold kept in Hy. cbn [fst] in Hy. by rewrite Hd in Hy.
Qed.

(** X15.  When the keys of the weights dict are distinct and a non-empty
    strategy name is given, the portfolio the aggregator goes on with is
    the input restricted, in its order and with its weights, to the entries
    whose ticker has an asset record that the filter keeps; without a
    strategy it is the input itself, unresolved tickers included. *)
Theorem X15_working_portfolio_is_the_restricted_input
    (quote : string → option Quote) (portfolio : list (string * R))
    (name : string) :
  NoDup portfolio.*1 →
  (name ≠ "" →
   working_portfolio quote portfolio (Some name)
   = Returned (filter (kept quote name) portfolio))
  ∧ working_portfolio quote portfolio None = Returned portfolio
  ∧ working_portfolio quote portfolio (Some "") = Returned portfolio.
Proof.
  intros Hnd. split; [|by split].
  intros Hname. unfold working_portfolio. cbn [truthy].
  rewrite bool_decide_eq_false_2 by done. cbn [negb].
  rewrite filter_stocks_eligible. by apply filtered_portfolio_kept.
Qed.

Lemma X15_witness :
  NoDup [("A", 50); ("C", 50)].*1
  ∧ working_portfolio scenario_quote [("A", 50); ("C", 50)] (Some "Net Zéro")
    = Returned (filter (kept scenario_quote "Net Zéro") [("A", 50); ("C", 50)]).
Proof.
  assert (NoDup [("A", 50); ("C", 50)].*1) as Hnd
    by (simpl; repeat constructor; set_solver).
  split; [exact Hnd|].
  by apply (X15_working_portfolio_is_the_restricted_input scenario_quote
              [("A", 50); ("C", 50)] "Net Zéro" Hnd).
Defined.

(** ** Weighted averages stay within the scores *)

Lemma py_sum_cons x (l : list R) : py_sum (x :: l) = x + py_sum l.
Proof.
  unfold py_sum. cbn [foldl]. rewrite foldl_Rplus_shift. unfold py_sum. lra.
Qed.

Lemma contributions_bounds quote key W portfolio lo hi :
  0 < W →
  (∀ item : string * R, item ∈ portfolio → 0 <= item.2) →
  (∀ (item : string * R) data, item ∈ portfolio →
     get_stock_data quote item.1 = Some data →
     lo <= dict_get (scores data) key 0 <= hi) →
  lo * (py_sum (resolved_weights quote portfolio) / W)
  <= py_sum (contributions quote key W portfolio)
  <= hi * (py_sum (resolved_weights quote portfolio) / W).
Proof.
  intros HW. induction portfolio as [|item rest IH]; intros Hnn Hb.
  - unfold resolved_weights, contributions, py_sum. simpl. unfold Rdiv. lra.
  - assert (lo * (py_sum (resolved_weights quote rest) / W)
            <= py_sum (contributions quote key W rest)
            <= hi * (py_sum (resolved_weights quote rest) / W)) as IH'.
    { apply IH; intros; [apply Hnn | eapply Hb]; eauto using list_elem_of_further. }
    unfold resolved_weights, contributions in *. cbn [omap list_omap].
    destruct (get_stock_data quote item.1) as [data|] eqn:Hd; [|exact IH'].
    rewrite !py_sum_cons.
    assert (0 <= item.2) as Hw by apply Hnn, list_elem_of_here.
    assert (lo <= dict_get (scores data) key 0 <= hi) as Hs
      by (eapply Hb; [apply list_elem_of_here | done]).
    assert (0 <= item.2 / W) as Ha.
    { unfold Rdiv. apply Rmult_le_pos; [done|].
      apply Rlt_le. by apply Rinv_0_lt_compat. }
    set (a := item.2 / W) in *.
    set (S := py_sum (omap _ rest)) in *.
    replace ((item.2 + S) / W) with (a + S / W) by (unfold a, Rdiv; lra).
    nra.
Qed.

Lemma score_entry_weighted history quote portfolio P' start_date end_date
    benchmark preference key :
  working_portfolio quote portfolio preference = Returned P' →
  py_sum (resolved_weights quote P') ≠ 0 →
  key ∈ ["esg_score"; "environmental_score"; "social_score"; "governance_score"] →
  score_entry (calculate_portfolio_metrics history quote portfolio start_date
                 end_date benchmark preference) key
  = weighted_score quote key P'.
Proof.
  intros HP' HW Hkey.
  destruct (weighted_aggregates history quote portfolio P' start_date end_date
              benchmark preference HP' HW) as (He & Hv & Hs & Hg & _).
  unfold score_entry.
  repeat (apply elem_of_cons in Hkey as [->|Hkey]); [done..|].
  by apply elem_of_nil in Hkey.
Qed.

(** X16.  With non-negative weights whose total over the resolved tickers
    of the working portfolio is positive, each aggregated score lies between
    any two bounds that hold for the corresponding score of every resolved
    asset: the aggregate is an average, never better than the best asset nor
    worse than the worst. *)
Theorem X16_aggregated_score_within_asset_scores
    (history : string → option string → option string → outcome History)
    (quote : string → option Quote) (portfolio P' : list (string * R))
    (start_date end_date benchmark preference : option string)
    (key : string) (lo hi : R) :
  working_portfolio quote portfolio preference = Returned P' →
  (∀ item : string * R, item ∈ P' → 0 <= item.2) →
  0 < py_sum (resolved_weights quote P') →
  key ∈ ["esg_score"; "environmental_score"; "social_score"; "governance_score"] →
  (∀ (item : string * R) data, item ∈ P' →
     get_stock_data quote item.1 = Some data →
     lo <= dict_get (scores data) key 0 <= hi) →
  lo <= score_entry (calculate_portfolio_metrics history quote portfolio
                       start_date end_date benchmark preference) key
     <= hi.
Proof.
  intros HP' Hnn HW Hkey Hb.
  rewrite (score_entry_weighted _ _ _ P') by (done || lra).
  unfold weighted_score.
  pose proof (contributions_bounds quote key
                (py_sum (resolved_weights quote P')) P' lo hi HW Hnn Hb) as H.
  replace (py_sum (resolved_weights quote P') / py_sum (resolved_weights quote P'))
    with 1 in H by (field; lra).
  lra.
Qed.

Lemma X16_witness :
  10 <= score_entry (calculate_portfolio_metrics no_history scenario_quote
                       [("A", 50); ("B", 50)] None None None None) "esg_score"
     <= 15.
Proof.
  apply (X16_aggregated_score_within_asset_scores no_history scenario_quote
           [("A", 50); ("B", 50)] [("A", 50); ("B", 50)] None None None None
           "esg_score" 10 15).
  - reflexivity.
  - intros item Hin.
    repeat (apply elem_of_cons in Hin as [->|Hin]); simpl; try lra.
    by apply elem_of_nil in Hin.
  - rewrite scenario_A_B_total. lra.
  - apply list_elem_of_here.
  - intros item data Hin Hd.
    repeat (apply elem_of_cons in Hin as [->|Hin]).
    + cbn [fst] in Hd. rewrite scenario_record_A in Hd. injection Hd as <-.
      change (dict_get (scores stock_A) "esg_score" 0) with 10. lra.
    + cbn [fst] in Hd. rewrite scenario_record_B in Hd. injection Hd as <-.
      change (dict_get (scores stock_B) "esg_score" 0) with 15. lra.
    + by apply elem_of_nil in Hin.
Defined.

(** ** Exposures are shares *)

Lemma exposure_total_entry (e : gmap string R) k v :
  e !! k = Some v → exposure_total e = v + exposure_total (delete k e).
Proof.
  intros Hk. rewrite <- (insert_delete_id e k v) at 1 by done.
  apply exposure_total_insert_fresh, lookup_delete_eq.
Qed.

Lemma exposure_total_nonneg (e : gmap string R) :
  map_Forall (λ _ v, 0 <= v) e → 0 <= exposure_total e.
Proof.
  induction e as [|k v e Hk _ IH] using map_first_key_ind.
  - intros _. rewrite exposure_total_empty. lra.
  - intros Hall. rewrite exposure_total_insert_fresh by done.
    apply map_Forall_insert in Hall as [Hv Hall]; [|done].
    specialize (IH Hall). lra.
Qed.

Lemma exposure_entry_le_total (e : gmap string R) k v :
  map_Forall (λ _ v, 0 <= v) e → e !! k = Some v →
  0 <= v <= exposure_total e.
Proof.
  intros Hall Hk. split; [by apply (Hall k)|].
  rewrite (exposure_total_entry e k v) by done.
  assert (0 <= exposure_total (delete k e)); [|lra].
  apply exposure_total_nonneg.
  intros k' v' Hk'. apply (Hall k').
  by apply lookup_delete_Some in Hk' as [_ ?].
Qed.

Lemma add_exposure_nonneg (e : gmap string R) k w :
  map_Forall (λ _ v, 0 <= v) e → 0 <= w →
  map_Forall (λ _ v, 0 <= v) (add_exposure e k w).
Proof.
  intros Hall Hw. unfold add_exposure, dict_get.
  apply map_Forall_insert_2; [|done].
  destruct (e !! k) as [old|] eqn:Hk; [|lra].
  specialize (Hall k old Hk). simpl in Hall. lra.
Qed.

(** What the second loop does to the two exposure dicts: values stay
    non-negative and each total grows by at most the normalised weights of
    the assets with a record. *)
Lemma foldl_esg_item_exposures quote W m portfolio :
  0 < W →
  (∀ item : string * R, item ∈ portfolio → 0 <= item.2) →
  map_Forall (λ _ v, 0 <= v) (sector_exposure m) →
  map_Forall (λ _ v, 0 <= v) (country_exposure m) →
  let m' := foldl (esg_item quote W) m portfolio in
  map_Forall (λ _ v, 0 <= v) (sector_exposure m')
  ∧ map_Forall (λ _ v, 0 <= v) (country_exposure m')
  ∧ exposure_total (sector_exposure m')
    <= exposure_total (sector_exposure m)
       + py_sum (map (λ w, w / W) (resolved_weights quote portfolio))
  ∧ exposure_total (country_exposure m')
    <= exposure_total (country_exposure m)
       + py_sum (map (λ w, w / W) (resolved_weights quote portfolio)).
Proof.
  intros HW. revert m.
  induction portfolio as [|item rest IH]; intros m Hnn Hs Hc.
  - cbn. unfold py_sum. simpl. split_and!; [done|done|lra|lra].
  - cbn [foldl]. cbn zeta.
    assert (0 <= item.2 / W) as Ha.
    { unfold Rdiv. apply Rmult_le_pos; [apply Hnn, list_elem_of_here|].
      apply Rlt_le. by apply Rinv_0_lt_compat. }
    assert (∀ i : string * R, i ∈ rest → 0 <= i.2) as Hnn'
      by (intros; by apply Hnn, list_elem_of_further).
    unfold resolved_weights. cbn [omap list_omap].
    unfold esg_item at 2 4 6 8.
    destruct (get_stock_data quote item.1) as [data|] eqn:Hd.
    + cbn [map]. rewrite !py_sum_cons.
      fold (resolved_weights quote rest).
      destruct (IH (accumulated data (item.2 / W) m) Hnn') as (H1 & H2 & H3 & H4).
      * cbn [accumulated sector_exposure]. destruct (bool_decide _); [|done].
        by apply add_exposure_nonneg.
      * cbn [accumulated country_exposure]. destruct (bool_decide _); [|done].
        by apply add_exposure_nonneg.
      * cbn zeta in *. split_and!; [done|done|..].
        -- etransitivity; [exact H3|]. cbn [accumulated sector_exposure].
           destruct (bool_decide _); [rewrite exposure_total_add|]; lra.
        -- etransitivity; [exact H4|]. cbn [accumulated country_exposure].
           destruct (bool_decide _); [rewrite exposure_total_add|]; lra.
    + fold (resolved_weights quote rest). by apply IH.
Qed.

(** When every asset with a record has a known country, the total of the
    country exposures grows by the normalised weights of those assets. *)
Lemma foldl_esg_item_countries quote W m portfolio :
  (∀ item data, item ∈ portfolio → get_stock_data quote item.1 = Some data →
                country data ≠ "N/A") →
  exposure_total (country_exposure (foldl (esg_item quote W) m portfolio))
  = foldl Rplus (exposure_total (country_exposure m))
      (map (λ w, w / W) (resolved_weights quote portfolio)).
Proof.
  revert m. induction portfolio as [|item rest IH]; intros m Hknown; [done|].
  cbn [foldl]. rewrite IH.
  2:{ intros ? ? ?. apply Hknown. by apply list_elem_of_further. }
  unfold resolved_weights, esg_item. cbn [omap list_omap].
  destruct (get_stock_data quote item.1) as [data|] eqn:Hd; [|done].
  cbn [map foldl accumulated country_exposure].
  rewrite bool_decide_eq_true_2
    by (eapply Hknown; [apply list_elem_of_here | done]).
  by rewrite exposure_total_add.
Qed.

(** X17.  With non-negative weights whose total over the resolved tickers
    of the working portfolio is positive, every value of sector_exposure
    and of country_exposure lies between 0 and 1, each of the two dicts sums
    to at most 1, and country_exposure sums to exactly 1 when every
    resolved asset has a known country. *)
Theorem X17_exposures_are_shares
    (history : string → option string → option string → outcome History)
    (quote : string → option Quote) (portfolio P' : list (string * R))
    (start_date end_date benchmark preference : option string) :
  working_portfolio quote portfolio preference = Returned P' →
  (∀ item : string * R, item ∈ P' → 0 <= item.2) →
  0 < py_sum (resolved_weights quote P') →
  let m := calculate_portfolio_metrics history quote portfolio start_date
             end_date benchmark preference in
  (∀ k v, sector_exposure m !! k = Some v → 0 <= v <= 1)
  ∧ (∀ k v, country_exposure m !! k = Some v → 0 <= v <= 1)
  ∧ exposure_total (sector_exposure m) <= 1
  ∧ exposure_total (country_exposure m) <= 1
  ∧ ((∀ item data, item ∈ P' → get_stock_data quote item.1 = Some data →
                   country data ≠ "N/A") →
     exposure_total (country_exposure m) = 1).
Proof.
  intros HP' Hnn HW m. subst m.
  rewrite (calculate_portfolio_metrics_split _ _ _ _ _ _ _ P') by done.
  rewrite esg_and_exposures_nonzero by lra. cbn [snd].
  set (W := py_sum (resolved_weights quote P')) in *.
  destruct (foldl_esg_item_exposures quote W initial_metrics P' HW Hnn)
    as (Hs & Hc & Hst & Hct); [done..|].
  cbn zeta in *. cbn [initial_metrics sector_exposure country_exposure] in Hst, Hct.
  rewrite exposure_total_empty, py_sum_div in Hst, Hct.
  fold W in Hst, Hct.
  replace (0 + W / W) with 1 in Hst, Hct by (field; lra).
  cbn [with_performance sector_exposure country_exposure].
  split_and!.
  - intros k v Hk. destruct (exposure_entry_le_total _ k v Hs Hk). lra.
  - intros k v Hk. destruct (exposure_entry_le_total _ k v Hc Hk). lra.
  - done.
  - done.
  - intros Hknown. rewrite foldl_esg_item_countries by done.
    cbn [initial_metrics country_exposure].
    rewrite exposure_total_empty, foldl_Rplus_shift, py_sum_div.
    fold W. field. lra.
Qed.

Lemma X17_witness :
  exposure_total
    (country_exposure
       (calculate_portfolio_metrics no_history scenario_quote
          [("A", 50); ("B", 50)] None None None None)) = 1.
Proof.
  apply (X17_exposures_are_shares no_history scenario_quote
           [("A", 50); ("B", 50)] [("A", 50); ("B", 50)] None None None None).
  - reflexivity.
  - intros item Hin.
    repeat (apply elem_of_cons in Hin as [->|Hin]); simpl; try lra.
    by apply elem_of_nil in Hin.
  - rewrite scenario_A_B_total. lra.
  - intros item data Hin Hd.
    repeat (apply elem_of_cons in Hin as [->|Hin]).
    + cbn [fst] in Hd. rewrite scenario_record_A in Hd. by injection Hd as <-.
    + cbn [fst] in Hd. rewrite scenario_record_B in Hd. by injection Hd as <-.
    + by apply elem_of_nil in Hin.
Defined.

(** ** Dates of the portfolio series *)

Lemma szip_index f (s1 s2 : Series) :
  length s1 = length s2 → (szip f s1 s2).*1 = s1.*1.
Proof.
  revert s2. induction s1 as [|e1 s1 IH]; intros [|e2 s2] Hlen; try done.
  cbn. f_equal. apply IH. by injection Hlen.
Qed.

Lemma cumprod_from_index acc (s : Series) : (cumprod_from acc s).*1 = s.*1.
Proof.
  revert acc. induction s as [|[d [x|]] s IH]; intros acc; [done|..];
    cbn; by rewrite IH.
Qed.

Lemma reindex_values_length (s : Series) index :
  length (reindex s index).*2 = length index.
Proof. unfold reindex. by rewrite !length_fmap. Qed.

Lemma returns_column_first d p rest :
  ∃ vals,
    (reindex (pct_change (close_series ((d, p) :: rest))) ((d, p) :: rest).*1).*2
    = NaN :: vals.
Proof.
  eexists. unfold reindex. cbn [fmap list_fmap fst snd]. f_equal.
  unfold at_date, pct_change. cbn [close_series map pct_change_from fst snd list_find].
  by rewrite decide_True.
Qed.

Section SeriesDates.

Variable history : string → option string → option string → outcome History.
Variables start_date end_date : option string.

Lemma aligned_step prices st t w e rest :
  aligned history start_date end_date prices st →
  history t start_date end_date = Returned (Close (e :: rest)) →
  aligned history start_date end_date prices
    {| data := df_setitem (data st) t (close_series (e :: rest));
       returns := df_setitem (returns st) t
                    (pct_change (close_series (e :: rest)));
       valid_tickers := valid_tickers st ++ [t];
       valid_weights := valid_weights st ++ [w] |}.
Proof.
  intros (Hne & Hidx & Hlen & Hcols & t0 & vals0 & Ht0 & Hh0 & Hc0) Hh.
  assert (df_index (df_setitem (returns st) t
                      (pct_change (close_series (e :: rest)))) = prices.*1)
    as Hidx'.
  { unfold df_setitem. cbn [df_index]. rewrite Hidx.
    destruct prices; done. }
  assert (∃ vals, df_columns (df_setitem (returns st) t
                     (pct_change (close_series (e :: rest)))) !! t = Some vals
                  ∧ length vals = length prices
                  ∧ (t = t0 → ∃ vals', vals = NaN :: vals')) as Hnew.
  { eexists. unfold df_setitem. cbn [df_columns].
    rewrite lookup_insert_eq. split; [done|].
    rewrite reindex_values_length, Hidx.
    assert (match prices.*1 with
            | [] => (pct_change (close_series (e :: rest))).*1
            | z :: l => z :: l
            end = prices.*1) as -> by (by destruct prices).
    split; [by rewrite length_fmap|].
    intros ->. rewrite Hh in Hh0. injection Hh0 as <-.
    destruct e as [d p]. apply returns_column_first. }
  destruct Hnew as (vals & Hvals & Hlenv & Hhead).
  split_and!; cbn [returns valid_tickers valid_weights]; [done|done|..].
  - rewrite !length_app. simpl. lia.
  - intros t' Ht'. destruct (decide (t' = t)) as [->|Hneq].
    + by exists vals.
    + apply elem_of_app in Ht' as [Ht'|Ht']; [|set_solver].
      destruct (Hcols t' Ht') as (vals' & Hc' & Hl').
      exists vals'. split; [|done].
      unfold df_setitem. cbn [df_columns]. by rewrite lookup_insert_ne.
  - destruct (decide (t = t0)) as [->|Hneq].
    + destruct (Hhead eq_refl) as (vals' & ->).
      exists t0, vals'. split_and!; [set_solver|done|done].
    + exists t0, vals0. split_and!; [set_solver|done|].
      unfold df_setitem. cbn [df_columns]. by rewrite lookup_insert_ne.
Qed.

Lemma fetch_loop_aligned prices pairs st st' :
  aligned history start_date end_date prices st →
  fetch_loop history start_date end_date pairs st = Returned st' →
  aligned history start_date end_date prices st'.
Proof.
  revert st. induction pairs as [|[t w] pairs IH]; intros st Hal Hst.
  - by injection Hst as <-.
  - cbn [fetch_loop] in Hst.
    destruct (history t start_date end_date) as [[|[|e rest]]|err] eqn:Hh;
      cbn [mbind outcome_bind] in Hst; [by eapply IH..| |done].
    eapply IH; [|exact Hst]. by apply aligned_step.
Qed.

(** The first loop from the empty frames: either nothing was collected, or
    the frames are aligned on the first non-empty close series. *)
Lemma fetch_loop_first pairs st' :
  fetch_loop history start_date end_date pairs (mkFetched df_new df_new [] [])
  = Returned st' →
  valid_tickers st' = []
  ∨ ∃ prices, first_closes history start_date end_date pairs.*1 = Some prices
              ∧ aligned history start_date end_date prices st'.
Proof.
  induction pairs as [|[t w] pairs IH]; intros Hst.
  - injection Hst as <-. by left.
  - cbn [fetch_loop] in Hst. cbn [fmap list_fmap fst first_closes].
    destruct (history t start_date end_date) as [[|[|e rest]]|err] eqn:Hh;
      cbn [mbind outcome_bind] in Hst; [by apply IH..| |done].
    right. exists (e :: rest). split; [done|].
    eapply fetch_loop_aligned; [|exact Hst].
    destruct e as [d p].
    destruct (returns_column_first d p rest) as (vals & Hvals).
    split_and!; cbn [returns valid_tickers valid_weights app]; [done| |done|..].
    + unfold df_setitem. cbn [df_index df_new].
      apply pct_change_close_index.
    + intros t' Ht'. apply list_elem_of_singleton in Ht' as ->.
      eexists. unfold df_setitem. cbn [df_columns df_index df_new].
      rewrite lookup_insert_eq. split; [done|].
      by rewrite reindex_values_length, pct_change_close_index, length_fmap.
    + exists t, vals. split_and!; [set_solver|done|].
      unfold df_setitem. cbn [df_columns df_index df_new].
      rewrite lookup_insert_eq, pct_change_close_index. by rewrite Hvals.
Qed.

End SeriesDates.

(** The second loop keeps the dates of the frame, and a first value that is
    not a number, in the accumulator or in a column, stays. *)
Lemma weighted_sum_loop_dates (returns : DataFrame) pairs (acc r : Series) :
  (∀ t, t ∈ pairs.*1 →
     ∃ vals, df_columns returns !! t = Some vals
             ∧ length vals = length (df_index returns)) →
  acc.*1 = df_index returns →
  weighted_sum_loop returns pairs acc = Returned r →
  r.*1 = df_index returns
  ∧ (acc.*2 !! 0%nat = Some NaN → r.*2 !! 0%nat = Some NaN)
  ∧ ((∃ t vals, t ∈ pairs.*1 ∧ df_columns returns !! t = Some (NaN :: vals)) →
     r.*2 !! 0%nat = Some NaN).
Proof.
  revert acc. induction pairs as [|[t w] pairs IH]; intros acc Hcols Hacc Hr.
  - injection Hr as <-. split_and!; [done|done|].
    intros (t & vals & Ht & _). by apply elem_of_nil in Ht.
  - cbn [weighted_sum_loop] in Hr.
    destruct (Hcols t) as (vals & Hc & Hlen); [set_solver|].
    unfold df_getitem in Hr. rewrite Hc in Hr.
    set (col := smap (λ r, fmul r (Some w)) (zip (df_index returns) vals)) in *.
    assert (length acc = length col) as Hlen'.
    { unfold col. rewrite smap_length, length_zip, Hlen, <- Hacc, length_fmap. lia. }
    destruct (IH (szip fadd acc col)) as (Hd & Hkeep & Hany); [set_solver| |done|].
    { by rewrite szip_index. }
    assert (acc.*2 !! 0%nat = Some NaN → (szip fadd acc col).*2 !! 0%nat = Some NaN)
      as Hstep.
    { destruct acc as [|[d a] acc], col as [|[d' b] col']; try done.
      cbn. by intros [= ->]. }
    split_and!; [done|by intros; apply Hkeep, Hstep|].
    intros (t' & vals' & Ht' & Hc').
    cbn [fmap list_fmap fst] in Ht'. apply elem_of_cons in Ht' as [->|Ht'].
    + apply Hkeep. rewrite Hc in Hc'. injection Hc' as ->.
      unfold col in *. destruct (df_index returns) as [|d0 idx]; [done|].
      destruct acc as [|[d a] acc]; [done|].
      cbn. by destruct a.
    + apply Hany. by exists t', vals'.
Qed.

(** X18.  Whenever the series builder returns series that are not empty,
    both carry exactly the dates of the first ticker, in the order of the
    call, whose close series is not empty, and at the first of these dates
    the portfolio return and the portfolio value are not numbers. *)
Theorem X18_portfolio_series_dates
    (history : string → option string → option string → outcome History)
    (tickers : list string) (weights : list R)
    (start_date end_date : option string) (value rets : Series) :
  get_portfolio_historical_data history tickers weights start_date end_date
  = (value, rets) →
  rets ≠ [] →
  ∃ prices,
    first_closes history start_date end_date (zip tickers weights).*1
    = Some prices
    ∧ rets.*1 = prices.*1 ∧ value.*1 = prices.*1
    ∧ rets.*2 !! 0%nat = Some NaN ∧ value.*2 !! 0%nat = Some NaN.
Proof.
  unfold get_portfolio_historical_data, portfolio_historical_body.
  intros Hrun Hne.
  destruct (bool_decide (tickers = []) || bool_decide (weights = []));
    [by injection Hrun as <- <-|].
  destruct (fetch_loop history start_date end_date (zip tickers weights) _)
    as [st|err] eqn:Hst; cbn [mbind outcome_bind] in Hrun;
    [|by injection Hrun as <- <-].
  destruct (df_empty (data st) || bool_decide (valid_tickers st = [])) eqn:Hemp;
    [by injection Hrun as <- <-|].
  apply orb_false_iff in Hemp as [_ Hvt]. apply bool_decide_eq_false in Hvt.
  destruct (fetch_loop_first _ _ _ _ _ Hst) as [?|(prices & Hfirst & Hal)]; [done|].
  destruct Hal as (Hp & Hidx & Hlen & Hcols & Hhead).
  exists prices. split; [done|].
  destruct (decide (py_sum (valid_weights st) = 0)) as [Hz|Hnz].
  { rewrite Hz, mapM_py_div_zero in Hrun; [by injection Hrun as <- <-|].
    intros Hnil. apply Hvt. apply nil_length_inv. by rewrite Hlen, Hnil. }
  rewrite mapM_py_div_nonzero in Hrun by done. cbn [mbind outcome_bind] in Hrun.
  destruct (weighted_sum_loop _ _ _) as [r|err] eqn:Hloop;
    cbn [mbind outcome_bind] in Hrun; [|by injection Hrun as <- <-].
  injection Hrun as <- <-.
  assert ((zip (valid_tickers st) (map (λ w, w / py_sum (valid_weights st))
                                       (valid_weights st))).*1
          = valid_tickers st) as Hfst.
  { apply fst_zip. rewrite length_map. lia. }
  apply weighted_sum_loop_dates in Hloop as (Hd & _ & Hnan).
  2:{ intros t Ht. rewrite Hfst in Ht. destruct (Hcols t Ht) as (vals & ? & ?).
      exists vals. split; [done|]. by rewrite Hidx, length_fmap. }
  2:{ by rewrite <- list_fmap_compose, list_fmap_id. }
  assert (r.*2 !! 0%nat = Some NaN) as Hr0.
  { apply Hnan. destruct Hhead as (t0 & vals & Ht0 & _ & Hc0).
    exists t0, vals. by rewrite Hfst. }
  split_and!.
  - by rewrite Hd.
  - unfold cumprod. by rewrite smap_index, cumprod_from_index, smap_index, Hd.
  - done.
  - destruct r as [|[d [x|]] r]; [done|by injection Hr0|done].
Qed.

Lemma X18_witness :
  ∃ prices,
    first_closes two_day_history None None (zip ["AAPL"] [0.5]).*1 = Some prices
    ∧ (get_portfolio_historical_data two_day_history ["AAPL"] [0.5] None None).2.*1
      = prices.*1
    ∧ (get_portfolio_historical_data two_day_history ["AAPL"] [0.5] None None).1.*1
      = prices.*1
    ∧ (get_portfolio_historical_data two_day_history ["AAPL"] [0.5] None None).2.*2
        !! 0%nat = Some NaN
    ∧ (get_portfolio_historical_data two_day_history ["AAPL"] [0.5] None None).1.*2
        !! 0%nat = Some NaN.
Proof.
  apply (X18_portfolio_series_dates two_day_history ["AAPL"] [0.5] None None).
  - apply surjective_pairing.
  - rewrite (single_asset_returns_exact _ _ _ _ _ two_day_prices);
      [done|done| |lra|done].
    simpl. repeat constructor; set_solver.
Defined.

(** ** Lower scores never disqualify *)

Lemma eligible_monotone preference (s s' : Stock) :
  env_score s' <= env_score s → soc_score s' <= soc_score s →
  gov_score s' <= gov_score s → total_score s' <= total_score s →
  eligible preference s → eligible preference s'.
Proof.
  intros He Hs Hg Ht.
  assert (∀ a b c, Rmax (env_score s) (Rmax (soc_score s) (gov_score s)) < c →
                   a = env_score s' → b = Rmax (soc_score s') (gov_score s') →
                   Rmax a b < c) as Hmax3.
  { intros a b c Hlt -> ->.
    apply Rmax_Rlt in Hlt as [H1 [H2 H3]%Rmax_Rlt].
    repeat apply Rmax_lub_lt; lra. }
  unfold eligible, net_zero_ok, multi_thematic_ok, solidarity_ok, default_ok.
  intros [(Hp & H1 & H2 & H3)|[(Hp & H1 & H2 & H3)|[(Hp & H1 & H2 & H3)|(Hp & H1 & H2)]]].
  - left. split_and!; [done|lra|lra|].
    apply Rmax_Rlt in H3 as [? ?]. apply Rmax_lub_lt; lra.
  - right; left. split_and!; [done|lra|by eapply Hmax3|].
    destruct H3 as [?|[?|?]]; [left|right; left|right; right]; lra.
  - do 2 right; left. split_and!; [done|lra..].
  - do 3 right. split_and!; [done|lra|by eapply Hmax3].
Qed.

(** X19.  Under every strategy name the filter is monotone in the scores:
    when it keeps an asset, it also keeps, from any input list, every asset
    whose four scores are each at most those of the kept one. *)
Theorem X19_lower_scores_stay_eligible
    (preference : string) (stocks stocks' : list Stock) (s s' : Stock) :
  s ∈ filter_stocks_by_preference stocks preference →
  s' ∈ stocks' →
  env_score s' <= env_score s → soc_score s' <= soc_score s →
  gov_score s' <= gov_score s → total_score s' <= total_score s →
  s' ∈ filter_stocks_by_preference stocks' preference.
Proof.
  rewrite !filter_stocks_eligible. intros [Hel _]%list_elem_of_filter Hin ? ? ? ?.
  apply list_elem_of_filter. split; [|done]. by apply (eligible_monotone _ s).
Qed.

Lemma X19_witness :
  stock_A ∈ filter_stocks_by_preference [stock_C; stock_A] "Net Zéro".
Proof.
  destruct scenario_scores as ((HA1 & HA2 & HA3 & HA4) & (HB1 & HB2 & HB3 & HB4) & _).
  apply (X19_lower_scores_stay_eligible "Net Zéro" [stock_A; stock_B]
           [stock_C; stock_A] stock_B stock_A).
  - rewrite filter_stocks_filter. apply list_elem_of_filter.
    split; [|set_solver]. apply Is_true_true, scenario_A_B_appended.
  - set_solver.
  - rewrite HA1, HB1. lra.
  - rewrite HA2, HB2. lra.
  - rewrite HA3, HB3. lra.
  - rewrite HA4, HB4. lra.
Defined.

(** ** A failed download *)

Lemma fetch_loop_raises history start_date end_date pairs st t e :
  t ∈ pairs.*1 → history t start_date end_date = Raised e →
  ∃ e', fetch_loop history start_date end_date pairs st = Raised e'.
Proof.
  revert st. induction pairs as [|[t' w] pairs IH]; intros st Hin Hh.
  - by apply elem_of_nil in Hin.
  - cbn [fetch_loop]. cbn [fmap list_fmap fst] in Hin.
    destruct (history t' start_date end_date) as [[|[|e0 rest]]|e'] eqn:Hh';
      cbn [mbind outcome_bind]; [..|by exists e'];
      (apply elem_of_cons in Hin as [->|Hin]; [congruence|by apply IH]).
Qed.

Lemma series_builder_failed_fetch history tickers weights start_date end_date t e :
  t ∈ (zip tickers weights).*1 →
  history t start_date end_date = Raised e →
  get_portfolio_historical_data history tickers weights start_date end_date
  = ([], []).
Proof.
  intros Hin Hh. unfold get_portfolio_historical_data, portfolio_historical_body.
  destruct (bool_decide _ || bool_decide _); [done|].
  destruct (fetch_loop_raises history start_date end_date (zip tickers weights)
              (mkFetched df_new df_new [] []) t e Hin Hh) as (e' & ->).
  done.
Qed.

(** X20.  When the download of the price history raises for one ticker that
    is paired with a weight, the series builder returns two empty series,
    whatever data the other tickers have; and when such a ticker is in the
    working portfolio of the aggregator, the performance entry of its result
    is the empty dict. *)
Theorem X20_one_failed_download_empties_the_series
    (history : string → option string → option string → outcome History)
    (quote : string → option Quote) (tickers : list string) (weights : list R)
    (portfolio P' : list (string * R))
    (start_date end_date benchmark preference : option string)
    (t : string) (e : exn) :
  history t start_date end_date = Raised e →
  (t ∈ (zip tickers weights).*1 →
   get_portfolio_historical_data history tickers weights start_date end_date
   = ([], []))
  ∧ (working_portfolio quote portfolio preference = Returned P' →
     t ∈ P'.*1 →
     performance_metrics
       (calculate_portfolio_metrics history quote portfolio start_date end_date
          benchmark preference) = ∅).
Proof.
  intros Hh. split.
  - intros Hin. by eapply series_builder_failed_fetch.
  - intros HP' Hin.
    rewrite (calculate_portfolio_metrics_split _ _ _ _ _ _ _ P') by done.
    cbn [with_performance performance_metrics].
    destruct portfolio as [|item rest]; [done|].
    unfold performance_after.
    rewrite (series_builder_failed_fetch _ _ _ _ _ t e); [done| |done].
    by rewrite zip_fst_snd.
Qed.

Lemma X20_witness :
  get_portfolio_historical_data failing_history ["AAPL"; "BAD"] [0.5; 0.5]
    None None = ([], [])
  ∧ performance_metrics
      (calculate_portfolio_metrics failing_history scenario_quote
         [("A", 50); ("BAD", 50)] None None None None) = ∅.
Proof.
  destruct (X20_one_failed_download_empties_the_series failing_history
              scenario_quote ["AAPL"; "BAD"] [0.5; 0.5]
              [("A", 50); ("BAD", 50)] [("A", 50); ("BAD", 50)]
              None None None None "BAD" FetchError) as [Hs Hm].
  - reflexivity.
  - split; [apply Hs|apply Hm].
    + cbn. set_solver.
    + reflexivity.
    + cbn. set_solver.
Defined.

(** * Where the document and the code part *)

(** ** What the aggregator returns on partly missing data *)

Lemma scenario_esg_score history start_date end_date benchmark preference :
  esg_score (calculate_portfolio_metrics history scenario_quote
               [("A", 50); ("B", 50)] start_date end_date benchmark preference)
  = 12.5.
Proof.
  destruct (weighted_aggregates history scenario_quote [("A", 50); ("B", 50)]
              [("A", 50); ("B", 50)] start_date end_date benchmark preference
              (scenario_working_portfolio preference))
    as (Hes & _); [rewrite scenario_A_B_total; lra|].
  rewrite Hes. unfold weighted_score. rewrite scenario_A_B_total.
  unfold contributions. cbn [omap list_omap fst snd].
  rewrite scenario_record_A, scenario_record_B.
  change (dict_get (scores stock_A) "esg_score" 0) with 10.
  change (dict_get (scores stock_B) "esg_score" 0) with 15.
  unfold py_sum. simpl. lra.
Qed.

(** C8 as stated fails.  A ticker without an asset record but with the
    closes 100, 110 gives a result whose performance metrics are not empty;
    and the two assets of the scenario, for which the price series are
    empty, give esg_score = 12.5.  In both cases the aggregator returns,
    but not the all-zero/empty metrics. *)
Lemma C8_aggregate_not_all_zero :
  (let aggregate := calculate_portfolio_metrics two_day_history unresolved_quote
                      [("AAPL", 1)] None None None None in
   get_stock_data unresolved_quote "AAPL" = None
   ∧ is_Some (performance_metrics aggregate !! "annualized_return")
   ∧ aggregate ≠ initial_metrics)
  ∧ (let aggregate := calculate_portfolio_metrics no_history scenario_quote
                        [("A", 50); ("B", 50)] None None None None in
     get_portfolio_historical_data no_history ["A"; "B"] [50; 50] None None
     = ([], [])
     ∧ esg_score aggregate = 12.5
     ∧ aggregate ≠ initial_metrics).
Proof.
  split.
  - intros aggregate.
    assert (is_Some (performance_metrics aggregate !! "annualized_return"))
      as Hperf.
    { subst aggregate.
      rewrite (calculate_portfolio_metrics_split _ _ _ _ _ _ _ [("AAPL", 1)])
        by done.
      cbn [with_performance performance_metrics]. unfold performance_after.
      cbn [fmap list_fmap fst snd].
      rewrite (single_asset_returns_exact _ _ _ _ _ two_day_prices);
        [|done| |lra|done].
      2:{ simpl. repeat constructor; set_solver. }
      change (negb (empty (pct_change (close_series two_day_prices))))
        with true. cbn match.
      destruct (calculate_metrics_base
                  (pct_change (close_series two_day_prices)) None) as (-> & _);
        done. }
    split_and!; [done|exact Hperf|].
    intros Heq. rewrite Heq in Hperf. by destruct Hperf.
  - intros aggregate.
    assert (esg_score aggregate = 12.5) as Hesg by apply scenario_esg_score.
    split_and!; [done|exact Hesg|].
    intros Heq. rewrite Heq in Hesg. cbn in Hesg. lra.
Qed.
